(** * Ontario certificate tool: name normalisation, reference table,
      date formatting, exports and the file pipeline

    A shallow embedding of [App.tsx] (normalizeGameName, sanitizeFolderName,
    parseProviderData, handleFilesSelected, handleStartProcessing,
    handleExportZip) and of [components/ReportTable.tsx]
    (cleanGameNameForDisplay, getDisplayHash, formatDateToYyyyMmDd,
    copyToClipboard, copyForComProcess).

    JavaScript strings are sequences of UTF-16 code units; they are modelled
    as lists of code units ([N]).  A JavaScript [Map] keyed by strings is a
    [gmap]. *)

From Stdlib Require Import ZArith NArith Ascii String List Lia Bool Sorted Permutation.
From stdpp Require Import base option list gmap fin_maps.

#[local] Set Warnings "-clear-no-such-hyp".

Local Open Scope N_scope.

(** ** JavaScript strings *)

Abbreviation jsstring := (list N).

(** An ASCII literal as a JavaScript string. *)
Definition js (s : string) : jsstring :=
  List.map N_of_ascii (list_ascii_of_string s).

(** Truthiness of a string value: every string but the empty one. *)
Definition truthy (s : jsstring) : bool :=
  match s with [] => false | _ :: _ => true end.

(** Truthiness of a [string | null] value. *)
Definition truthyOpt (o : option jsstring) : bool :=
  match o with Some s => truthy s | None => false end.

(** [x || ''] on a [string | null | undefined] value. *)
Definition orEmpty (o : option jsstring) : jsstring :=
  match o with Some s => s | None => [] end.

(** [x || null] on a string: the empty string becomes null. *)
Definition orNull (s : jsstring) : option jsstring :=
  if truthy s then Some s else None.

(** [x || null] on a [string | null | undefined] value. *)
Definition optOrNull (o : option jsstring) : option jsstring :=
  match o with Some s => orNull s | None => None end.

Module Str.

(** The class [\s] of ECMAScript regular expressions, which is also the
    set removed by [String.prototype.trim]: WhiteSpace and LineTerminator. *)
Definition isSpace (c : N) : bool :=
  (c =? 9) || (c =? 10) || (c =? 11) || (c =? 12) || (c =? 13) || (c =? 32)
  || (c =? 160) || (c =? 5760) || ((8192 <=? c) && (c <=? 8202))
  || (c =? 8232) || (c =? 8233) || (c =? 8239) || (c =? 8287)
  || (c =? 12288) || (c =? 65279).

Fixpoint trimStart (s : jsstring) : jsstring :=
  match s with
  | [] => []
  | c :: t => if isSpace c then trimStart t else s
  end.

Fixpoint trimEnd (s : jsstring) : jsstring :=
  match s with
  | [] => []
  | c :: t =>
      match trimEnd t with
      | [] => if isSpace c then [] else [c]
      | r => c :: r
      end
  end.

(** [s.trim()] *)
Definition trim (s : jsstring) : jsstring := trimEnd (trimStart s).

(** [s.toLowerCase()], by code unit.  The mapping covers Basic Latin and
    the Latin-1 Supplement (U+00C0 to U+00DE but the multiplication sign);
    every other code unit is left as it is.  This is what
    [String.prototype.toLowerCase] does on a string of code units below 256,
    of white space and of the symbols ™ ® © (see [latinName]); it is not on
    a string with other cased letters, which the method lowers too, the
    capital sigma according to what surrounds it. *)
Definition toLowerUnit (c : N) : N :=
  if (65 <=? c) && (c <=? 90) then c + 32
  else if (192 <=? c) && (c <=? 222) && negb (c =? 215) then c + 32
  else c.

Definition toLowerCase (s : jsstring) : jsstring := List.map toLowerUnit s.

(** Canonicalize of a case-insensitive, non-unicode regular expression,
    on the units that can match an ASCII pattern character: a unit outside
    ASCII never canonicalizes to an ASCII one. *)
Definition canonicalize (c : N) : N :=
  if (97 <=? c) && (c <=? 122) then c - 32 else c.

Definition eqCI (c p : N) : bool := canonicalize c =? canonicalize p.

(** Match the literal [pat] (flag [i]) at the start of [s]; the rest of
    [s] after the match. *)
Fixpoint matchLit (pat s : jsstring) : option jsstring :=
  match pat with
  | [] => Some s
  | p :: pt =>
      match s with
      | c :: t => if eqCI c p then matchLit pt t else None
      | [] => None
      end
  end.

(** The whole of [s] is the literal [pat] (flag [i]). *)
Definition isLit (pat s : jsstring) : bool :=
  match matchLit pat s with Some [] => true | _ => false end.

(** [s.startsWith(pat)], [s.endsWith(pat)], [s.includes(pat)]. *)
Fixpoint startsWith (pat s : jsstring) : bool :=
  match pat with
  | [] => true
  | p :: pt =>
      match s with
      | c :: t => (c =? p) && startsWith pt t
      | [] => false
      end
  end.

Fixpoint includes (pat s : jsstring) : bool :=
  startsWith pat s ||
  match s with
  | [] => false
  | _ :: t => includes pat t
  end.

Definition endsWith (pat s : jsstring) : bool :=
  startsWith (rev pat) (rev s).

(** [s.split(sep)] for a separator of one code unit. *)
Fixpoint split (sep : N) (s : jsstring) : list jsstring :=
  match s with
  | [] => [[]]
  | c :: t =>
      if c =? sep then [] :: split sep t
      else match split sep t with
           | h :: r => (c :: h) :: r
           | [] => [[c]]
           end
  end.

(** [parts.join(sep)] *)
Fixpoint join (sep : jsstring) (parts : list jsstring) : jsstring :=
  match parts with
  | [] => []
  | [p] => p
  | p :: rest => p ++ sep ++ join sep rest
  end.

(** [a < b] on strings: lexicographic on code units. *)
Fixpoint ltb (a b : jsstring) : bool :=
  match a, b with
  | _, [] => false
  | [], _ :: _ => true
  | x :: a', y :: b' => (x <? y) || ((x =? y) && ltb a' b')
  end.

End Str.

(** ** App.tsx: normalizeGameName *)

Definition COPY : jsstring := js "(copy)".
Definition V_94PCT : jsstring := js "94%".
Definition V_V94 : jsstring := js "v94".
Definition TM : N := 8482.       (* U+2122 *)
Definition REG : N := 174.       (* U+00AE *)
Definition COPYRIGHT : N := 169. (* U+00A9 *)

(** The regular expression [\s*\(copy\)] (flag [i]) tried at the start of
    [s].  [\s*] is greedy; as the literal starts with a parenthesis, which is
    not white space, giving back white space cannot make the literal match:
    only the maximal run is followed by a match. *)
Definition matchCopyAt (s : jsstring) : option jsstring :=
  Str.matchLit COPY (Str.trimStart s).

(** [s.replace(/\s*\(copy\)/i, '')]: no flag [g], so the leftmost match only. *)
Fixpoint replaceCopy (s : jsstring) : jsstring :=
  match matchCopyAt s with
  | Some rest => rest
  | None =>
      match s with
      | [] => []
      | c :: t => c :: replaceCopy t
      end
  end.

(** The regular expression [\s+(94%|v94)$] (flag [i], no flag [m]) tried at
    the start of [s]: at least one white space, then one of the two
    alternatives, then the end of the input. *)
Definition matchVersionAt (s : jsstring) : bool :=
  match s with
  | c :: t =>
      Str.isSpace c &&
      (Str.isLit V_94PCT (Str.trimStart t) || Str.isLit V_V94 (Str.trimStart t))
  | [] => false
  end.

(** [s.replace(/\s+(94%|v94)$/i, '')] *)
Fixpoint replaceVersion (s : jsstring) : jsstring :=
  if matchVersionAt s then []
  else match s with
       | [] => []
       | c :: t => c :: replaceVersion t
       end.

Definition isSymbol (c : N) : bool :=
  (c =? TM) || (c =? REG) || (c =? COPYRIGHT).

(** [s.replace(/™|®|©/g, '')] *)
Definition stripSymbols (s : jsstring) : jsstring :=
  List.filter (fun c => negb (isSymbol c)) s.

(** [s.replace(/\s+/g, ' ')]: every maximal run of white space becomes one
    space, written when the last unit of the run is reached. *)
Fixpoint collapseSpaces (s : jsstring) : jsstring :=
  match s with
  | [] => []
  | c :: t =>
      if Str.isSpace c then
        match t with
        | c' :: _ => if Str.isSpace c' then collapseSpaces t
                     else 32 :: collapseSpaces t
        | [] => [32]
        end
      else c :: collapseSpaces t
  end.

(** The steps of [normalizeGameName] after the removal of the copy marker. *)
Definition normalizeTail (s : jsstring) : jsstring :=
  Str.trim (collapseSpaces (stripSymbols (Str.toLowerCase (replaceVersion s)))).

Definition normalizeGameName (name : option jsstring) : jsstring :=
  if truthyOpt name then normalizeTail (replaceCopy (Str.trim (orEmpty name)))
  else [].

(** ** ReportTable.tsx: cleanGameNameForDisplay *)

Definition cleanGameNameForDisplay (name : option jsstring) : jsstring :=
  if truthyOpt name then
    Str.trim (collapseSpaces (stripSymbols
      (replaceVersion (replaceCopy (Str.trim (orEmpty name))))))
  else [].

(** ** App.tsx: sanitizeFolderName *)

Definition isIllegalPathUnit (c : N) : bool :=
  existsb (N.eqb c) (js "<>:/\|?*") || (c =? 34).

Definition sanitizeFolderName (name : jsstring) : jsstring :=
  List.map (fun c => if isIllegalPathUnit c then 95 else c) name.

(** ** types.ts: the data model *)

(** ProviderInfo, the value type of GameProviderMap. *)
Record ProviderInfo := {
  provider : jsstring;
  activatedInIms : option jsstring;
  portalLiveDate : option jsstring;
  imsGameCode : option jsstring
}.

Record FileDetail := {
  name : jsstring;
  md5 : option jsstring;
  sha1 : option jsstring
}.

Record GameInstanceData := {
  gameName : option jsstring;
  gameCode : option jsstring;
  files : list FileDetail
}.

Inductive Status := queued | processing | completed | error.

Record ProcessedFileData := {
  id : jsstring;
  pdfFileName : jsstring;
  reportNumber : option jsstring;
  certificationDate : option jsstring;
  supplierRegistrationNumber : option jsstring;
  extractedInstances : list GameInstanceData;
  status : Status;
  errorMessage : option jsstring
}.

(** What the extraction service returns for one document. *)
Record ExtractedGeminiInfo := {
  x_reportNumber : option jsstring;
  x_certificationDate : option jsstring;
  x_supplierRegistrationNumber : option jsstring;
  x_gameInstances : list GameInstanceData
}.

(** A browser [File]: its name, size in bytes, MIME type and bytes. *)
Record File := {
  f_name : jsstring;
  f_size : Z;
  f_type : jsstring;
  f_bytes : list N
}.

#[global] Instance Status_eq_dec : EqDecision Status.
Proof. solve_decision. Defined.

Definition status_eqb (a b : Status) : bool := bool_decide (a = b).

(** ** App.tsx: parseProviderData *)

Definition LF : N := 10.
Definition TAB : N := 9.
Definition GAME_PROVIDER : jsstring := js "game provider".

(** [parts[i]] of a line that has at least six fields. *)
Definition field (parts : list jsstring) (i : nat) : jsstring :=
  nth i parts [].

(** The lines that are read as data: all of them, or all but the first when
    the first is not empty and its lower-case form includes "game provider". *)
Definition dataLines (text : jsstring) : list jsstring :=
  let lines := Str.split LF text in
  match lines with
  | l0 :: rest =>
      if truthy l0 && Str.includes GAME_PROVIDER (Str.toLowerCase l0)
      then rest else lines
  | [] => lines
  end.

(** The body of the [forEach] over the data lines. *)
Definition addLine (m : gmap jsstring ProviderInfo) (line : jsstring)
  : gmap jsstring ProviderInfo :=
  let parts := Str.split TAB line in
  if (6 <=? length parts)%nat then
    let gameName := Str.trim (field parts 0) in
    let providerName := Str.trim (field parts 1) in
    let activatedInIms := orNull (Str.trim (field parts 2)) in
    let portalLiveDate := orNull (Str.trim (field parts 3)) in
    let imsGameCode := orNull (Str.trim (field parts 5)) in
    if truthy gameName && truthy providerName then
      let normalizedKey := normalizeGameName (Some gameName) in
      if truthy normalizedKey then
        <[ normalizedKey :=
             {| provider := providerName;
                activatedInIms := activatedInIms;
                portalLiveDate := portalLiveDate;
                imsGameCode := imsGameCode |} ]> m
      else m
    else m
  else m.

Definition parseProviderData (text : jsstring) : gmap jsstring ProviderInfo :=
  fold_left addLine (dataLines text) ∅.

(** ** ECMAScript dates (ECMA-262, Date objects), on time values in [Z] *)

Module EcmaDate.
Local Open Scope Z_scope.

Definition msPerDay : Z := 86400000.

Definition Day (t : Z) : Z := t / msPerDay.

Definition DaysInYear (y : Z) : Z :=
  if negb (y mod 4 =? 0) then 365
  else if negb (y mod 100 =? 0) then 366
  else if negb (y mod 400 =? 0) then 365
  else 366.

Definition DayFromYear (y : Z) : Z :=
  365 * (y - 1970) + (y - 1969) / 4 - (y - 1901) / 100 + (y - 1601) / 400.

Definition TimeFromYear (y : Z) : Z := msPerDay * DayFromYear y.

(** The year of a day number: the largest [y] with [DayFromYear y <= d].
    The mean year has 365.2425 days; the estimate is at most one off. *)
Definition YearFromDay (d : Z) : Z :=
  let y := 1970 + (d * 10000) / 3652425 in
  if DayFromYear (y + 1) <=? d then y + 1
  else if d <? DayFromYear y then y - 1
  else y.

Definition YearFromTime (t : Z) : Z := YearFromDay (Day t).

Definition InLeapYear (t : Z) : Z :=
  if DaysInYear (YearFromTime t) =? 366 then 1 else 0.

Definition DayWithinYear (t : Z) : Z :=
  Day t - DayFromYear (YearFromTime t).

(** Months are numbered from 0. *)
Definition MonthFromTime (t : Z) : Z :=
  let d := DayWithinYear t in
  let l := InLeapYear t in
  if d <? 31 then 0
  else if d <? 59 + l then 1
  else if d <? 90 + l then 2
  else if d <? 120 + l then 3
  else if d <? 151 + l then 4
  else if d <? 181 + l then 5
  else if d <? 212 + l then 6
  else if d <? 243 + l then 7
  else if d <? 273 + l then 8
  else if d <? 304 + l then 9
  else if d <? 334 + l then 10
  else 11.

Definition DateFromTime (t : Z) : Z :=
  let d := DayWithinYear t in
  let l := InLeapYear t in
  match MonthFromTime t with
  | 0 => d + 1
  | 1 => d - 30
  | 2 => d - 58 - l
  | 3 => d - 89 - l
  | 4 => d - 119 - l
  | 5 => d - 150 - l
  | 6 => d - 180 - l
  | 7 => d - 211 - l
  | 8 => d - 242 - l
  | 9 => d - 272 - l
  | 10 => d - 303 - l
  | _ => d - 333 - l
  end.

(** Days of the year [y] before its month [mn] (numbered from 0). *)
Definition daysBeforeMonth (y mn : Z) : Z :=
  let l := if DaysInYear y =? 366 then 1 else 0 in
  match mn with
  | 0 => 0
  | 1 => 31
  | 2 => 59 + l
  | 3 => 90 + l
  | 4 => 120 + l
  | 5 => 151 + l
  | 6 => 181 + l
  | 7 => 212 + l
  | 8 => 243 + l
  | 9 => 273 + l
  | 10 => 304 + l
  | _ => 334 + l
  end.

(** MakeDay(year, month, date): the day number of the first of the month,
    plus [date - 1]. *)
Definition MakeDay (year month date : Z) : Z :=
  let ym := year + month / 12 in
  let mn := month mod 12 in
  DayFromYear ym + daysBeforeMonth ym mn + date - 1.

(** MakeDate(day, 0) followed by TimeClip; [None] is NaN. *)
Definition MakeDate (day : Z) : option Z :=
  let tv := day * msPerDay in
  if Z.abs tv <=? 8640000000000000 then Some tv else None.

(** [Date.UTC(year, month, day)] on integers. *)
Definition UTC (year month day : Z) : option Z :=
  let yr := if (0 <=? year) && (year <=? 99) then 1900 + year else year in
  MakeDate (MakeDay yr month day).

(** The decimal digits of a natural number, most significant first, padded
    with zeros to [width] digits. *)
Fixpoint padDigits (width : nat) (n : Z) (acc : jsstring) : jsstring :=
  match width with
  | O => acc
  | S w => padDigits w (n / 10) (Z.to_N (48 + n mod 10) :: acc)
  end.

(** [date.toISOString().split('T')[0]]: the year on four digits when it is
    between 0 and 9999, else a sign and six digits. *)
Definition isoDate (t : Z) : jsstring :=
  let y := YearFromTime t in
  let ys := if (0 <=? y) && (y <=? 9999) then padDigits 4 y []
            else (if y <? 0 then 45%N else 43%N) :: padDigits 6 (Z.abs y) [] in
  ys ++ [45%N] ++ padDigits 2 (MonthFromTime t + 1) []
     ++ [45%N] ++ padDigits 2 (DateFromTime t) [].

(** Days of month [m] (numbered from 1) of year [y]. *)
Definition daysInMonth (y m : Z) : Z :=
  match m with
  | 2 => if DaysInYear y =? 366 then 29 else 28
  | 4 | 6 | 9 | 11 => 30
  | _ => 31
  end.

End EcmaDate.

(** ** ReportTable.tsx: getDisplayHash and formatDateToYyyyMmDd *)

Definition getDisplayHash (file : FileDetail) : jsstring :=
  if truthyOpt (md5 file) then orEmpty (md5 file)
  else if truthyOpt (sha1 file) then orEmpty (sha1 file)
  else [].

Definition isDigit (c : N) : bool := (48 <=? c) && (c <=? 57).

Definition DASH : N := 45.
Definition SLASH : N := 47.

(** [/^\d{4}-\d{2}-\d{2}$/.test(s)] *)
Definition isIsoShape (s : jsstring) : bool :=
  match s with
  | [y1; y2; y3; y4; a; m1; m2; b; d1; d2] =>
      forallb isDigit [y1; y2; y3; y4; m1; m2; d1; d2] && (a =? DASH) && (b =? DASH)
  | _ => false
  end.

(** The class [[/\-]]. *)
Definition isDateSep (c : N) : bool := (c =? SLASH) || (c =? DASH).

(** [\d{1,2}] followed by the separator class: the digits and what follows
    the separator.  The quantifier is greedy, and one digit less would leave
    a digit where the separator must be. *)
Definition digits12Sep (s : jsstring) : option (jsstring * jsstring) :=
  match s with
  | d1 :: d2 :: c :: t =>
      if isDigit d1 && isDigit d2 && isDateSep c then Some ([d1; d2], t)
      else if isDigit d1 && isDateSep d2 then Some ([d1], c :: t)
      else None
  | [d1; c] => if isDigit d1 && isDateSep c then Some ([d1], []) else None
  | _ => None
  end.

(** [s.match(/^(\d{1,2})[/\-](\d{1,2})[/\-](\d{4})$/)]: the three groups. *)
Definition matchDayMonthYear (s : jsstring)
  : option (jsstring * jsstring * jsstring) :=
  match digits12Sep s with
  | Some (d, s1) =>
      match digits12Sep s1 with
      | Some (m, s2) =>
          match s2 with
          | [y1; y2; y3; y4] =>
              if forallb isDigit s2 then Some (d, m, s2) else None
          | _ => None
          end
      | None => None
      end
  | None => None
  end.

(** [parseInt(s, 10)] on a string of decimal digits. *)
Definition parseInt (s : jsstring) : Z :=
  fold_left (fun acc c => (10 * acc + (Z.of_N c - 48))%Z) s 0%Z.

Section Host.

(** [new Date(s).getTime()] for a string [s]; [None] is NaN.  Outside the
    ISO format, what the constructor accepts is left to the engine by
    ECMA-262. *)
Variable Date_parse : jsstring -> option Z.

Definition formatDateToYyyyMmDd (dateString : option jsstring) : jsstring :=
  if negb (truthyOpt dateString) then []
  else
    let trimmedDateString := Str.trim (orEmpty dateString) in
    (* Case 3, also reached when the first two fall through *)
    let fallback :=
      match Date_parse trimmedDateString with
      | Some t => EcmaDate.isoDate t
      | None => []
      end in
    (* Case 2 *)
    let dayMonthYear :=
      match matchDayMonthYear trimmedDateString with
      | Some (d, m, y) =>
          let day := parseInt d in
          let month := parseInt m in
          let year := parseInt y in
          if ((1000 <? year) && (1 <=? month) && (month <=? 12)
              && (1 <=? day) && (day <=? 31))%Z then
            match EcmaDate.UTC year (month - 1) day with
            | Some t =>
                if (EcmaDate.DateFromTime t =? day)%Z
                then EcmaDate.isoDate t else fallback
            | None => fallback
            end
          else fallback
      | None => fallback
      end in
    (* Case 1 *)
    if isIsoShape trimmedDateString then
      match Date_parse trimmedDateString with
      | Some _ => trimmedDateString
      | None => dayMonthYear
      end
    else dayMonthYear.

End Host.

(** The hash cell of an instance in the table on screen. *)
Definition hashCell (instance : GameInstanceData) : jsstring :=
  match files instance with
  | _ :: _ => Str.join (js ", ") (List.map getDisplayHash (files instance))
  | [] => []
  end.

(** ** ReportTable.tsx: the two clipboard exports *)

Definition QUOTE : N := 34.

(** The map of the reference table's IMS game codes, built by the loop over
    [gameProviderMap.entries()]: only truthy codes are entered. *)
Definition authoritativeImsCodeMap (gameProviderMap : gmap jsstring ProviderInfo)
  : gmap jsstring jsstring :=
  map_fold (fun gameNameKey providerInfo acc =>
              if truthyOpt (imsGameCode providerInfo)
              then <[ gameNameKey := orEmpty (imsGameCode providerInfo) ]> acc
              else acc)
           ∅ gameProviderMap.

(** [formatListForClipboard]: the truthy items joined by a comma and a space,
    every quote doubled, the whole between quotes; nothing when that is empty. *)
Definition formatListForClipboard (items : list jsstring) : jsstring :=
  match items with
  | [] => []
  | _ =>
      let content := Str.join (js ", ") (List.filter truthy items) in
      if negb (truthy content) then []
      else
        let escapedContent :=
          flat_map (fun c => if c =? QUOTE then [QUOTE; QUOTE] else [c]) content in
        [QUOTE] ++ escapedContent ++ [QUOTE]
  end.

Definition FULL_HEADERS : jsstring :=
  Str.join [TAB]
    [ js "GameName";
      js "GameCodes";
      js "Progressive";
      js "CertificateRef";
      js "Activated in IMS";
      js "Portal live date";
      js "SupplierRegistrationnumber";
      js "Deactivated";
      js "FileList";
      js "HashList" ].

Definition COM_HEADERS : jsstring :=
  Str.join [TAB]
    [ js "Game Name";
      js "IMS Game Code";
      js "Certificate Number";
      js "Activated in IMS";
      js "Portal Live Date" ].

(** The instance that stands for a completed file without instances. *)
Definition noInstance : GameInstanceData :=
  {| gameName := None; gameCode := None; files := [] |}.

Definition UNCATEGORIZED_SORT_KEY : jsstring := js "ZZZ_Uncategorized".

Record ComDataRow := {
  c_gameName : jsstring;
  c_gameCode : jsstring;
  c_certificateRef : jsstring;
  c_activatedInIms : jsstring;
  c_date : jsstring;
  c_provider : jsstring
}.

(** The comparator given to [comDataRows.sort]. *)
Definition compareRows (a b : ComDataRow) : Z :=
  if Str.ltb (c_provider a) (c_provider b) then (-1)%Z
  else if Str.ltb (c_provider b) (c_provider a) then 1%Z
  else if Str.ltb (c_gameName a) (c_gameName b) then (-1)%Z
  else if Str.ltb (c_gameName b) (c_gameName a) then 1%Z
  else 0%Z.

(** [Array.prototype.sort] is stable (ECMA-262 since 2019); with a
    comparator that is a total preorder the result is the one of any stable
    sort, here insertion from the right. *)
Fixpoint insertRow (x : ComDataRow) (l : list ComDataRow) : list ComDataRow :=
  match l with
  | [] => [x]
  | y :: t => if (compareRows x y <=? 0)%Z then x :: l else y :: insertRow x t
  end.

Definition sortRows (l : list ComDataRow) : list ComDataRow :=
  fold_right insertRow [] l.

Section Exports.

Variable Date_parse : jsstring -> option Z.
Variable gameProviderMap : gmap jsstring ProviderInfo.

(** The cells of the row that [copyToClipboard] writes for one instance of
    a file. *)
Definition fullRowCells (fileEntry : ProcessedFileData)
    (instance : GameInstanceData) : list jsstring :=
  let cleanedGameName := cleanGameNameForDisplay (gameName instance) in
  let gameNameKey := normalizeGameName (gameName instance) in
  let gameCodes := orEmpty (authoritativeImsCodeMap gameProviderMap !! gameNameKey) in
  let providerInfo := gameProviderMap !! gameNameKey in
  let portalDate :=
    formatDateToYyyyMmDd Date_parse (optOrNull (providerInfo ≫= portalLiveDate)) in
  [ cleanedGameName;
    gameCodes;
    [];                                      (* Progressive *)
    orEmpty (reportNumber fileEntry);
    orEmpty (providerInfo ≫= activatedInIms);
    portalDate;
    [];                                      (* SupplierRegistrationnumber *)
    [];                                      (* Deactivated *)
    formatListForClipboard (List.map name (files instance));
    formatListForClipboard (List.map getDisplayHash (files instance)) ].

Definition fullRow (fileEntry : ProcessedFileData) (instance : GameInstanceData)
  : jsstring :=
  Str.join [TAB] (fullRowCells fileEntry instance).

(** The body of [data.forEach] in [copyToClipboard]: the rows pushed for
    one file. *)
Definition fullRowsOf (fileEntry : ProcessedFileData) : list jsstring :=
  if negb (status_eqb (status fileEntry) completed) then []
  else
    match extractedInstances fileEntry with
    | _ :: _ => List.map (fullRow fileEntry) (extractedInstances fileEntry)
    | [] =>
        [ Str.join [TAB]
            [ []; []; []; orEmpty (reportNumber fileEntry);
              []; []; []; []; []; [] ] ]
    end.

(** [copyToClipboard]: the text written to the clipboard, or [None] when
    it alerts that there is nothing to copy. *)
Definition copyToClipboard (data : list ProcessedFileData) : option jsstring :=
  let tableRows := flat_map fullRowsOf data in
  let rows := Str.join [LF] tableRows in
  if negb (truthy (Str.trim rows)) then None
  else Some (FULL_HEADERS ++ [LF] ++ rows).

Definition comRow (fileEntry : ProcessedFileData) (instance : GameInstanceData)
  : ComDataRow :=
  let gameNameKey := normalizeGameName (gameName instance) in
  let providerInfo := gameProviderMap !! gameNameKey in
  {| c_gameName := cleanGameNameForDisplay (gameName instance);
     c_gameCode := orEmpty (authoritativeImsCodeMap gameProviderMap !! gameNameKey);
     c_certificateRef := orEmpty (reportNumber fileEntry);
     c_activatedInIms := orEmpty (providerInfo ≫= activatedInIms);
     c_date :=
       formatDateToYyyyMmDd Date_parse (optOrNull (providerInfo ≫= portalLiveDate));
     c_provider :=
       match optOrNull (provider <$> providerInfo) with
       | Some p => p
       | None => UNCATEGORIZED_SORT_KEY
       end |}.

(** The body of [data.forEach] in [copyForComProcess]. *)
Definition comRowsOf (fileEntry : ProcessedFileData) : list ComDataRow :=
  if negb (status_eqb (status fileEntry) completed) then []
  else
    let instances :=
      match extractedInstances fileEntry with
      | _ :: _ => extractedInstances fileEntry
      | [] => [noInstance]
      end in
    List.map (comRow fileEntry) instances.

Definition comLine (row : ComDataRow) : jsstring :=
  Str.join [TAB]
    [ c_gameName row; c_gameCode row; c_certificateRef row;
      c_activatedInIms row; c_date row ].

(** The rows of [copyForComProcess] after the sort. *)
Definition comSortedRows (data : list ProcessedFileData) : list ComDataRow :=
  sortRows (flat_map comRowsOf data).

(** [copyForComProcess]: the text written to the clipboard, or [None] when
    it alerts that there is nothing to export. *)
Definition copyForComProcess (data : list ProcessedFileData) : option jsstring :=
  match flat_map comRowsOf data with
  | [] => None
  | _ =>
      Some (COM_HEADERS ++ [LF]
            ++ Str.join [LF] (List.map comLine (comSortedRows data)))
  end.

End Exports.

(** ** App.tsx: handleExportZip *)

(** An archive under construction (JSZip): its entries by path.  [folder]
    enters the directory [name/]; [file] on that folder enters [name/file]. *)
Inductive ZipEntry := ZDir | ZFile (bytes : list N).

Definition zipFolder (zip : gmap jsstring ZipEntry) (folderName : jsstring)
  : gmap jsstring ZipEntry :=
  <[ folderName ++ [SLASH] := ZDir ]> zip.

Definition zipFile (zip : gmap jsstring ZipEntry) (folderName : jsstring)
    (fileName : jsstring) (bytes : list N) : gmap jsstring ZipEntry :=
  <[ folderName ++ [SLASH] ++ fileName := ZFile bytes ]> zip.

Definition UNCATEGORIZED : jsstring := js "Uncategorized".

(** The provider of an instance: by name in the reference table, else by the
    suffix of the game code; [None] or an empty name when neither gives one. *)
Definition resolveProvider (gameProviderMap : gmap jsstring ProviderInfo)
    (instance : GameInstanceData) : option jsstring :=
  let gameNameKey := normalizeGameName (gameName instance) in
  let providerInfo := gameProviderMap !! gameNameKey in
  let providerName := provider <$> providerInfo in
  if negb (truthyOpt providerName) then
    if truthyOpt (gameCode instance) then
      if Str.endsWith (js "_mcg") (orEmpty (gameCode instance))
      then Some (js "Games Global")
      else if Str.endsWith (js "_prg") (orEmpty (gameCode instance))
      then Some (js "Pragmatic")
      else providerName
    else providerName
  else providerName.

(** The folder of an instance. *)
Definition folderOf (gameProviderMap : gmap jsstring ProviderInfo)
    (instance : GameInstanceData) : jsstring :=
  sanitizeFolderName
    (match optOrNull (Str.trim <$> resolveProvider gameProviderMap instance) with
     | Some p => p
     | None => UNCATEGORIZED
     end).

Section ExportZip.

Variable gameProviderMap : gmap jsstring ProviderInfo.
Variable originalFile : File.

(** The body of the loop over the instances of one file, on the archive
    and the set [processedFolders]. *)
Definition addInstance (acc : gmap jsstring ZipEntry * gset jsstring)
    (instance : GameInstanceData) : gmap jsstring ZipEntry * gset jsstring :=
  let '(zip, processedFolders) := acc in
  let folderName := folderOf gameProviderMap instance in
  if negb (bool_decide (folderName ∈ processedFolders)) then
    (zipFile (zipFolder zip folderName) folderName
       (f_name originalFile) (f_bytes originalFile),
     processedFolders ∪ {[ folderName ]})
  else acc.

(** One completed file whose original is at hand: the archive afterwards
    and the folders the file was put in. *)
Definition addFile (zip : gmap jsstring ZipEntry)
    (processedFile : ProcessedFileData)
  : gmap jsstring ZipEntry * gset jsstring :=
  let '(zip1, processedFolders) :=
    fold_left addInstance (extractedInstances processedFile) (zip, ∅) in
  if bool_decide (size processedFolders = 0%nat) then
    (zipFile (zipFolder zip1 UNCATEGORIZED) UNCATEGORIZED
       (f_name originalFile) (f_bytes originalFile),
     processedFolders ∪ {[ UNCATEGORIZED ]})
  else (zip1, processedFolders).

End ExportZip.

(** The loop of [handleExportZip] over the completed files: the archive and
    [filesAddedToZip]. *)
Definition zipStep (gameProviderMap : gmap jsstring ProviderInfo)
    (originalFilesMap : gmap jsstring File)
    (acc : gmap jsstring ZipEntry * nat) (processedFile : ProcessedFileData)
  : gmap jsstring ZipEntry * nat :=
  let '(zip, filesAddedToZip) := acc in
  match originalFilesMap !! id processedFile with
  | None => acc
  | Some originalFile =>
      let '(zip', processedFolders) :=
        addFile gameProviderMap originalFile zip processedFile in
      if bool_decide (0 < size processedFolders)%nat
      then (zip', S filesAddedToZip) else (zip', filesAddedToZip)
  end.

Inductive ZipOutcome :=
| ZipRefused                                    (* the alert of the guard *)
| ZipNothing                                    (* no file could be added *)
| ZipDownload (zip : gmap jsstring ZipEntry) (filesAddedToZip : nat).

Definition handleExportZip (isZipping isBatchProcessing : bool)
    (processedFiles : list ProcessedFileData)
    (originalFilesMap : gmap jsstring File)
    (gameProviderMap : gmap jsstring ProviderInfo) : ZipOutcome :=
  let filesToZip :=
    List.filter (fun pf => status_eqb (status pf) completed) processedFiles in
  if isZipping || isBatchProcessing
     || bool_decide (length filesToZip = 0%nat)
     || bool_decide (size gameProviderMap = 0%nat)
  then ZipRefused
  else
    let '(zip, filesAddedToZip) :=
      fold_left (zipStep gameProviderMap originalFilesMap) filesToZip (∅, 0%nat) in
    if bool_decide (filesAddedToZip = 0%nat) then ZipNothing
    else ZipDownload zip filesAddedToZip.

(** The archive of an outcome; empty when nothing is downloaded. *)
Definition archiveOf (o : ZipOutcome) : gmap jsstring ZipEntry :=
  match o with ZipDownload zip _ => zip | _ => ∅ end.

(** ** App.tsx: handleFilesSelected and handleStartProcessing *)

(** A number of the kind [Date.now()] or [map.size] gives, as the template
    literal writes it. *)
Fixpoint decimalFuel (fuel : nat) (n : Z) (acc : jsstring) : jsstring :=
  match fuel with
  | O => acc
  | S f =>
      let acc' := Z.to_N (48 + n mod 10) :: acc in
      if (n / 10 =? 0)%Z then acc' else decimalFuel f (n / 10) acc'
  end.

Definition decimal (n : Z) : jsstring :=
  decimalFuel (S (Z.to_nat (Z.log2 n))) n [].

(** A thrown error: its [message], if it has one. *)
Definition Result (A : Type) : Type := (option jsstring + A)%type.

Definition throwError {A} (msg : string) : Result A := inl (Some (js msg)).

Definition isPdfType (t : jsstring) : bool :=
  bool_decide (t = js "application/pdf").

Definition isImageType (t : jsstring) : bool :=
  Str.startsWith (js "image/png") t || Str.startsWith (js "image/jpeg") t.

(** [prev.map(f => f.id === id ? g(f) : f)] *)
Definition updateById (fileId : jsstring) (g : ProcessedFileData -> ProcessedFileData)
    (prev : list ProcessedFileData) : list ProcessedFileData :=
  List.map (fun f => if bool_decide (id f = fileId) then g f else f) prev.

Record AppState := {
  processedFiles : list ProcessedFileData;
  originalFilesMap : gmap jsstring File;
  isBatchProcessing : bool;
  isZipping : bool;
  apiKey : jsstring;
  gameProviderMap : gmap jsstring ProviderInfo;
  providerDataText : jsstring;
  providerDataStatus : jsstring
}.

Section Pipeline.

(** constants.ts: the ceiling in bytes, and the same in megabytes as the
    template literal of the message writes it. *)
Variable MAX_FILE_SIZE_BYTES : Z.
Variable MAX_FILE_SIZE_MB : jsstring.

(** The collaborators of the batch run: each returns or throws. *)
Variable extractTextFromPdf : File -> Result jsstring.
Variable extractInfoFromText : jsstring -> jsstring -> Result ExtractedGeminiInfo.
Variable convertFileToBase64AndGetMime : File -> Result (jsstring * jsstring).
Variable extractInfoFromImage :
  jsstring -> jsstring -> jsstring -> Result ExtractedGeminiInfo.

Definition blankEntry (fileId : jsstring) (file : File) (st : Status)
    (msg : option jsstring) : ProcessedFileData :=
  {| id := fileId;
     pdfFileName := f_name file;
     reportNumber := None;
     certificationDate := None;
     supplierRegistrationNumber := None;
     extractedInstances := [];
     status := st;
     errorMessage := msg |}.

(** The entry pushed for one selected file; [now] is [Date.now()]. *)
Definition initialEntry (file : File) (now : Z) : ProcessedFileData :=
  let fileId := f_name file ++ [DASH] ++ decimal now in
  if (MAX_FILE_SIZE_BYTES <? f_size file)%Z then
    blankEntry fileId file error
      (Some (js "File exceeds " ++ MAX_FILE_SIZE_MB ++ js "MB limit."))
  else
    let isPdf := isPdfType (f_type file) in
    let isImage := isImageType (f_type file) in
    if negb isPdf && negb isImage then
      blankEntry fileId file error
        (Some (js "Invalid file type: " ++ f_type file
               ++ js ". Please upload PDF (.pdf), PNG (.png), or JPEG (.jpg) files."))
    else blankEntry fileId file queued None.

(** [handleFilesSelected]: every file of the selection, with the clock
    read when its turn comes. *)
Definition handleFilesSelected (files : list (File * Z)) (st : AppState)
  : AppState :=
  let newOriginalFilesMap :=
    fold_left (fun m '(file, now) =>
                 <[ f_name file ++ [DASH] ++ decimal now := file ]> m)
              files (originalFilesMap st) in
  let newInitialFilesData :=
    List.map (fun '(file, now) => initialEntry file now) files in
  {| processedFiles := processedFiles st ++ newInitialFilesData;
     originalFilesMap := newOriginalFilesMap;
     isBatchProcessing := isBatchProcessing st;
     isZipping := isZipping st;
     apiKey := apiKey st;
     gameProviderMap := gameProviderMap st;
     providerDataText := providerDataText st;
     providerDataStatus := providerDataStatus st |}.

(** The [try] block for one file: the extracted data, or the error thrown. *)
Definition extractFor (originals : gmap jsstring File) (key : jsstring)
    (current : ProcessedFileData) : Result ExtractedGeminiInfo :=
  match originals !! id current with
  | None => throwError "Original file not found for processing."
  | Some file =>
      if isPdfType (f_type file) then
        match extractTextFromPdf file with
        | inl e => inl e
        | inr textContent =>
            if negb (truthy (Str.trim textContent))
            then throwError "No text content could be extracted from the PDF."
            else extractInfoFromText textContent key
        end
      else if isImageType (f_type file) then
        match convertFileToBase64AndGetMime file with
        | inl e => inl e
        | inr (base64, mimeType) =>
            if negb (truthy base64)
            then throwError "Could not convert image to base64."
            else extractInfoFromImage base64 mimeType key
        end
      else inl (Some (js "Unsupported file type for processing: " ++ f_type file))
  end.

Definition setStatus (s : Status) (f : ProcessedFileData) : ProcessedFileData :=
  {| id := id f;
     pdfFileName := pdfFileName f;
     reportNumber := reportNumber f;
     certificationDate := certificationDate f;
     supplierRegistrationNumber := supplierRegistrationNumber f;
     extractedInstances := extractedInstances f;
     status := s;
     errorMessage := errorMessage f |}.

Definition setCompleted (x : ExtractedGeminiInfo) (f : ProcessedFileData)
  : ProcessedFileData :=
  {| id := id f;
     pdfFileName := pdfFileName f;
     reportNumber := x_reportNumber x;
     certificationDate := x_certificationDate x;
     supplierRegistrationNumber := x_supplierRegistrationNumber x;
     extractedInstances := x_gameInstances x;
     status := completed;
     errorMessage := errorMessage f |}.

Definition setError (e : option jsstring) (f : ProcessedFileData)
  : ProcessedFileData :=
  {| id := id f;
     pdfFileName := pdfFileName f;
     reportNumber := reportNumber f;
     certificationDate := certificationDate f;
     supplierRegistrationNumber := supplierRegistrationNumber f;
     extractedInstances := extractedInstances f;
     status := error;
     errorMessage :=
       Some (match optOrNull e with
             | Some m => m
             | None => js "Failed to process file or extract data."
             end) |}.

(** One turn of the loop over [filesToProcess]: the file is marked as
    processing, then as completed or in error. *)
Definition processOne (originals : gmap jsstring File) (key : jsstring)
    (prev : list ProcessedFileData) (current : ProcessedFileData)
  : list ProcessedFileData :=
  let prev1 := updateById (id current) (setStatus processing) prev in
  match extractFor originals key current with
  | inr extractedData => updateById (id current) (setCompleted extractedData) prev1
  | inl e => updateById (id current) (setError e) prev1
  end.

Definition withStatusText (st : AppState) (txt : jsstring) : AppState :=
  {| processedFiles := processedFiles st;
     originalFilesMap := originalFilesMap st;
     isBatchProcessing := isBatchProcessing st;
     isZipping := isZipping st;
     apiKey := apiKey st;
     gameProviderMap := gameProviderMap st;
     providerDataText := providerDataText st;
     providerDataStatus := txt |}.

(** [handleStartProcessing], run to its end without another event in
    between. *)
Definition handleStartProcessing (st : AppState) : AppState :=
  if isBatchProcessing st || isZipping st then st
  else if negb (truthy (apiKey st)) then st
  else
    let parsedMap := parseProviderData (providerDataText st) in
    if bool_decide (size parsedMap = 0%nat) then
      withStatusText st
        (js "Failed to load provider data. Please paste valid data before processing.")
    else
      let loaded :=
        js "Loaded " ++ decimal (Z.of_nat (size parsedMap))
        ++ js " game provider mapping"
        ++ (if bool_decide (size parsedMap = 1%nat) then [] else js "s")
        ++ js "." in
      let filesToProcess :=
        List.filter (fun f => status_eqb (status f) queued) (processedFiles st) in
      {| processedFiles :=
           match filesToProcess with
           | [] => processedFiles st
           | _ => fold_left (processOne (originalFilesMap st) (apiKey st))
                    filesToProcess (processedFiles st)
           end;
         originalFilesMap := originalFilesMap st;
         isBatchProcessing := false;
         isZipping := isZipping st;
         apiKey := apiKey st;
         gameProviderMap := parsedMap;
         providerDataText := providerDataText st;
         providerDataStatus := loaded |}.

(** The file is refused when it is selected. *)
Definition rejected (file : File) : bool :=
  (MAX_FILE_SIZE_BYTES <? f_size file)%Z
  || negb (isPdfType (f_type file) || isImageType (f_type file)).

(** The guards of [handleStartProcessing] let the batch run. *)
Definition batchStarts (st : AppState) : Prop :=
  isBatchProcessing st = false /\ isZipping st = false
  /\ truthy (apiKey st) = true
  /\ size (parseProviderData (providerDataText st)) <> 0%nat.

End Pipeline.

(** What the batch run makes of a queued entry on its own. *)
Definition outcomeOf
    (extractTextFromPdf : File -> Result jsstring)
    (extractInfoFromText : jsstring -> jsstring -> Result ExtractedGeminiInfo)
    (convertFileToBase64AndGetMime : File -> Result (jsstring * jsstring))
    (extractInfoFromImage :
       jsstring -> jsstring -> jsstring -> Result ExtractedGeminiInfo)
    (originals : gmap jsstring File) (key : jsstring) (f : ProcessedFileData)
  : ProcessedFileData :=
  match extractFor extractTextFromPdf extractInfoFromText
          convertFileToBase64AndGetMime extractInfoFromImage originals key f with
  | inr extractedData => setCompleted extractedData f
  | inl e => setError e f
  end.

(** The entry has been processed: it is completed or in error. *)
Definition settled (f : ProcessedFileData) : Prop :=
  status f = completed \/ status f = error.

(** ** App.tsx: the rest of the component *)

Definition SEMICOLON : N := 59.

(** The [onload] handler of [convertFileToBase64AndGetMime], on the data
    URL that the reader gives: the base64 text and the MIME type, or the
    error of the rejection. *)
Definition parseDataUrl (result : jsstring) : Result (jsstring * jsstring) :=
  let parts := Str.split SEMICOLON result in
  if (length parts <? 2)%nat || negb (Str.startsWith (js "data:") (nth 0 parts []))
  then throwError "Invalid Data URL format"
  else
    let mimeType := skipn 5 (nth 0 parts []) in
    let base64Data := skipn (length (js "base64,")) (nth 1 parts []) in
    inr (base64Data, mimeType).

(** [handleClearAllData]: refused while a batch or an export runs. *)
Definition handleClearAllData (st : AppState) : AppState :=
  if isBatchProcessing st || isZipping st then st
  else
    {| processedFiles := [];
       originalFilesMap := ∅;
       isBatchProcessing := isBatchProcessing st;
       isZipping := isZipping st;
       apiKey := apiKey st;
       gameProviderMap := ∅;
       providerDataText := [];
       providerDataStatus := [] |}.

Definition hasQueuedFiles (st : AppState) : bool :=
  existsb (fun f => status_eqb (status f) queued) (processedFiles st).

Definition isProcessingLocked (st : AppState) : bool :=
  isBatchProcessing st || isZipping st.

Definition getButtonTitle (st : AppState) : jsstring :=
  if isProcessingLocked st then js "Processing is in progress."
  else if negb (truthy (apiKey st)) then js "Please enter API Key."
  else if negb (truthy (Str.trim (providerDataText st)))
  then js "Please paste Game Provider Data before starting."
  else if negb (hasQueuedFiles st) then js "No files in the queue to process."
  else js "Start processing queued files".

(** The [disabled] attribute of the button that starts the batch. *)
Definition startDisabled (st : AppState) : bool :=
  negb (hasQueuedFiles st) || negb (truthy (Str.trim (providerDataText st)))
  || isProcessingLocked st || negb (truthy (apiKey st)).

(** The [canExport] property given to the table. *)
Definition canExport (st : AppState) : bool :=
  existsb (fun f => status_eqb (status f) completed) (processedFiles st)
  && bool_decide (0 < size (gameProviderMap st))%nat
  && negb (isBatchProcessing st).

(** ReportTable.tsx: the [disabled] attribute of the export button, and
    the test of the copy buttons on the data. *)
Definition exportDisabled (st : AppState) : bool :=
  negb (canExport st) || isZipping st || isBatchProcessing st.

Definition hasCompletedData (data : list ProcessedFileData) : bool :=
  existsb (fun f => status_eqb (status f) completed) data.

(** ** Predicates used to state the properties *)

(** Some position of [s] starts the literal [(copy)], in any letter case. *)
Fixpoint hasCopy (s : jsstring) : bool :=
  match Str.matchLit COPY s with
  | Some _ => true
  | None => match s with [] => false | _ :: t => hasCopy t end
  end.

(** Some position of [s] starts a match of [\s+(94%|v94)$]. *)
Fixpoint hasVersionSuffix (s : jsstring) : bool :=
  matchVersionAt s || match s with [] => false | _ :: t => hasVersionSuffix t end.

(** One or two digits; four digits. *)
Definition isField12 (s : jsstring) : bool :=
  match s with
  | [a] => isDigit a
  | [a; b] => isDigit a && isDigit b
  | _ => false
  end.

Definition isField4 (s : jsstring) : bool :=
  match s with
  | [_; _; _; _] => forallb isDigit s
  | _ => false
  end.

(** Every unit of [s] is white space. *)
Definition allSpace (s : jsstring) : bool := forallb Str.isSpace s.

(** [s] does not start with white space. *)
Definition headClean (s : jsstring) : bool :=
  match s with c :: _ => negb (Str.isSpace c) | [] => true end.

(** Every white space of [s] is one space followed by no white space. *)
Fixpoint spaced (s : jsstring) : bool :=
  match s with
  | [] => true
  | c :: t => (if Str.isSpace c then (c =? 32) && headClean t else true) && spaced t
  end.

(** [spaced], and the last unit is not white space. *)
Fixpoint tight (s : jsstring) : bool :=
  match s with
  | [] => true
  | c :: t =>
      (if Str.isSpace c then (c =? 32) && headClean t && truthy t else true)
      && tight t
  end.

(** An instance and a file without the game codes that the extraction gave. *)
Definition eraseGameCode (instance : GameInstanceData) : GameInstanceData :=
  {| gameName := gameName instance; gameCode := None; files := files instance |}.

Definition eraseGameCodes (f : ProcessedFileData) : ProcessedFileData :=
  {| id := id f;
     pdfFileName := pdfFileName f;
     reportNumber := reportNumber f;
     certificationDate := certificationDate f;
     supplierRegistrationNumber := supplierRegistrationNumber f;
     extractedInstances := List.map eraseGameCode (extractedInstances f);
     status := status f;
     errorMessage := errorMessage f |}.

(** The shape of a key: nothing that the last four steps of the normalizer
    (lower case, symbols, white space, trim) would change.  It says nothing
    of the marker [(copy)] and of the version suffix, of which the
    normalizer takes off one only: a key can hold either. *)
Definition keyShape (y : jsstring) : Prop :=
  Str.trim y = y /\ Str.toLowerCase y = y /\ stripSymbols y = y
  /\ collapseSpaces y = y.

(** The order of the comparator: [a] is not after [b]. *)
Definition rowLe (a b : ComDataRow) : Prop := (compareRows a b <= 0)%Z.

(** A folder name without a slash. *)
Definition noSlash (s : jsstring) : Prop := Forall (fun c => c <> SLASH) s.

(** The file is in every folder of the set. *)
Definition filed (originalFile : File) (zip : gmap jsstring ZipEntry)
    (folders : gset jsstring) : Prop :=
  forall folderName, folderName ∈ folders ->
    noSlash folderName
    /\ zip !! (folderName ++ [SLASH] ++ f_name originalFile)
       = Some (ZFile (f_bytes originalFile)).

(** The day that a leap year has more. *)
Definition leapDays (y : Z) : Z :=
  if (EcmaDate.DaysInYear y =? 366)%Z then 1%Z else 0%Z.

(** Every entry of the list has its original file at hand. *)
Definition originalsAtHand (st : AppState) : Prop :=
  forall f, In f (processedFiles st) -> is_Some (originalFilesMap st !! id f).

(** A reader of a quoted cell: the quotes around it taken off and every
    doubled quote made one. *)
Fixpoint undouble (s : jsstring) : jsstring :=
  match s with
  | c :: ((d :: t) as r) =>
      if (c =? QUOTE) && (d =? QUOTE) then QUOTE :: undouble t
      else c :: undouble r
  | _ => s
  end.

Definition readCell (cell : jsstring) : jsstring :=
  match cell with
  | [] => []
  | _ :: t => undouble (removelast t)
  end.

(** The rows that a completed file gives in either export: one for each
    instance, one for a file without instances. *)
Definition rowCount (data : list ProcessedFileData) : nat :=
  list_sum
    (List.map (fun f => Nat.max 1 (length (extractedInstances f)))
       (List.filter (fun f => status_eqb (status f) completed) data)).

(** What every entry of a parsed table satisfies. *)
Definition entryShape (k : jsstring) (info : ProviderInfo) : Prop :=
  truthy k = true /\ keyShape k
  /\ truthy (provider info) = true /\ Str.trim (provider info) = provider info
  /\ (forall o, activatedInIms info = Some o -> truthy o = true /\ Str.trim o = o)
  /\ (forall o, portalLiveDate info = Some o -> truthy o = true /\ Str.trim o = o)
  /\ (forall o, imsGameCode info = Some o -> truthy o = true /\ Str.trim o = o).

(** A unit that is white space or one of the three symbols. *)
Definition blankUnit (c : N) : bool := Str.isSpace c || isSymbol c.

(** The original of the file is at hand. *)
Definition hasOriginal (originalFilesMap : gmap jsstring File)
    (f : ProcessedFileData) : bool :=
  match originalFilesMap !! id f with Some _ => true | None => false end.

(** The guard of [handleExportZip]. *)
Definition exportRefused (isZipping isBatchProcessing : bool)
    (processedFiles : list ProcessedFileData)
    (gameProviderMap : gmap jsstring ProviderInfo) : bool :=
  isZipping || isBatchProcessing
  || negb (existsb (fun f => status_eqb (status f) completed) processedFiles)
  || bool_decide (size gameProviderMap = 0%nat).

(** A field of one or two digits, written on two digits. *)
Definition twoDigits (s : jsstring) : jsstring :=
  match s with [a] => [48; a] | _ => s end.

(** A number from 0 to 99, written on two digits. *)
Definition decimal2 (n : Z) : jsstring :=
  [Z.to_N (48 + n / 10); Z.to_N (48 + n mod 10)].

(** The code units on which [String.prototype.toLowerCase] is the mapping
    by code unit of [Str.toLowerCase]: those below 256 (Basic Latin and
    Latin-1), the white space and the symbols ™ ® ©. *)
Definition latinUnit (c : N) : bool :=
  (c <? 256) || Str.isSpace c || isSymbol c.

(** A name of such code units only. *)
Definition latinName (s : jsstring) : bool := forallb latinUnit s.

(** ** Sample data *)

Module Sample.

(** A pasted reference table: a header and two games. *)
Definition referenceText : jsstring :=
  Str.join [LF]
    [ Str.join [TAB] [ js "Name"; js "Game Provider"; js "Activated in IMS";
                       js "Portal Live Date"; js "Status"; js "IMS Game Code" ];
      Str.join [TAB] [ js "Starburst"; js "NetEnt"; js "Yes";
                       js "05/03/2024"; js "live"; js "nt_starburst" ];
      Str.join [TAB] [ js "Book of Ra (copy)"; js "iSoftBet"; js "No";
                       []; js "live"; js "isb_bookofra" ] ].

Definition referenceTable : gmap jsstring ProviderInfo :=
  parseProviderData referenceText.

(** An engine that reads the ISO date format only, with a month from 01 to
    12 and a day from 01 to the length of the month. *)
Definition isoOnlyDateParse (s : jsstring) : option Z :=
  if isIsoShape s then
    let y := parseInt (firstn 4 s) in
    let m := parseInt (firstn 2 (skipn 5 s)) in
    let d := parseInt (skipn 8 s) in
    if ((1 <=? m) && (m <=? 12) && (1 <=? d)
        && (d <=? EcmaDate.daysInMonth y m))%Z
    then EcmaDate.MakeDate (EcmaDate.MakeDay y (m - 1) d)
    else None
  else None.

(** An engine that reads the ISO format and, as ECMA-262 lets an engine do
    for a string outside that format, reads a string of the day, month and
    year form day first, a day past the end of the month counted on into
    the next month. *)
Definition dayFirstDateParse (s : jsstring) : option Z :=
  match isoOnlyDateParse s with
  | Some t => Some t
  | None =>
      match matchDayMonthYear s with
      | Some (d, m, y) => EcmaDate.UTC (parseInt y) (parseInt m - 1) (parseInt d)
      | None => None
      end
  end.
Definition instance (gameName : string) (code : option jsstring)
  : GameInstanceData :=
  {| gameName := Some (js gameName);
     gameCode := code;
     files := [ {| name := js "game.jar";
                   md5 := Some (js "9e107d9d372bb682");
                   sha1 := None |} ] |}.

Definition completedFile (fileId : string) (report : string)
    (instances : list GameInstanceData) : ProcessedFileData :=
  {| id := js fileId;
     pdfFileName := js "cert.pdf";
     reportNumber := Some (js report);
     certificationDate := None;
     supplierRegistrationNumber := None;
     extractedInstances := instances;
     status := completed;
     errorMessage := None |}.

Definition pdf (fileName : string) (size : Z) (type : string) : File :=
  {| f_name := js fileName; f_size := size; f_type := js type;
     f_bytes := [37; 80; 68; 70] |}.

(** Collaborators that succeed on every document. *)
Definition extracted : ExtractedGeminiInfo :=
  {| x_reportNumber := Some (js "R-1");
     x_certificationDate := Some (js "2024-03-05");
     x_supplierRegistrationNumber := None;
     x_gameInstances := [ instance "Starburst" (Some (js "nt_starburst")) ] |}.

Definition extractTextFromPdf (file : File) : Result jsstring :=
  inr (js "Certificate R-1").

Definition extractInfoFromText (text key : jsstring) : Result ExtractedGeminiInfo :=
  inr extracted.

Definition convertFileToBase64AndGetMime (file : File)
  : Result (jsstring * jsstring) :=
  inr (js "JVBERg==", f_type file).

Definition extractInfoFromImage (base64 mime key : jsstring)
  : Result ExtractedGeminiInfo :=
  inr extracted.

(** A ceiling of ten megabytes. *)
Definition MAX_FILE_SIZE_BYTES : Z := 10 * 1024 * 1024.
Definition MAX_FILE_SIZE_MB : jsstring := js "10".

(** The application with a key and a pasted table, before any file. *)
Definition ready : AppState :=
  {| processedFiles := [];
     originalFilesMap := ∅;
     isBatchProcessing := false;
     isZipping := false;
     apiKey := js "AIza-key";
     gameProviderMap := ∅;
     providerDataText := referenceText;
     providerDataStatus := [] |}.

(** One file over the ceiling and one valid file, selected together. *)
Definition selection : list (File * Z) :=
  [ (pdf "big.pdf" 20000000 "application/pdf", 1700000000000%Z);
    (pdf "cert.pdf" 4 "application/pdf", 1700000000000%Z) ].

End Sample.

(** * Properties *)

(** ** Strings *)

Section StrFacts.
Import Str.

Lemma trimStart_length s : (length (trimStart s) <= length s)%nat.
Proof. induction s as [|c t IH]; simpl; [lia|]. destruct (isSpace c); simpl; lia. Qed.

Lemma trimEnd_length s : (length (trimEnd s) <= length s)%nat.
Proof.
  induction s as [|c t IH]; simpl; [lia|].
  destruct (trimEnd t); [destruct (isSpace c)|]; simpl in *; lia.
Qed.

Lemma trim_length s : (length (trim s) <= length s)%nat.
Proof.
  unfold trim. pose proof (trimEnd_length (trimStart s)).
  pose proof (trimStart_length s). lia.
Qed.

Lemma trimStart_headClean s : headClean (trimStart s) = true.
Proof.
  induction s as [|c t IH]; simpl; [done|].
  destruct (isSpace c) eqn:E; [done|]. simpl. by rewrite E.
Qed.

Lemma trimStart_id s : headClean s = true -> trimStart s = s.
Proof. destruct s as [|c t]; simpl; [done|]. by destruct (isSpace c). Qed.

Lemma trimStart_allSpace s : allSpace s = true -> trimStart s = [].
Proof.
  induction s as [|c t IH]; simpl; [done|].
  intros [-> H]%andb_true_iff. auto.
Qed.

Lemma trimStart_nil s : trimStart s = [] -> allSpace s = true.
Proof.
  induction s as [|c t IH]; simpl; [done|].
  destruct (isSpace c); [auto | discriminate].
Qed.

Lemma trimStart_app s r :
  headClean r = true -> truthy r = true -> trimStart (s ++ r) = trimStart s ++ r.
Proof.
  intros Hr Hn. induction s as [|c t IH]; simpl.
  - by apply trimStart_id.
  - by destruct (isSpace c).
Qed.

Lemma trimEnd_allSpace s : allSpace s = true -> trimEnd s = [].
Proof.
  induction s as [|c t IH]; simpl; [done|].
  intros [-> H]%andb_true_iff. by rewrite IH.
Qed.

Lemma trimEnd_nil s : trimEnd s = [] -> allSpace s = true.
Proof.
  induction s as [|c t IH]; simpl; [done|].
  destruct (trimEnd t) eqn:E; [|discriminate].
  destruct (isSpace c); [auto | discriminate].
Qed.

Lemma trimEnd_cons_clean c t :
  isSpace c = false -> trimEnd (c :: t) = c :: trimEnd t.
Proof. intros H. simpl. rewrite H. by destruct (trimEnd t). Qed.

Lemma trimEnd_headClean s : headClean s = true -> headClean (trimEnd s) = true.
Proof.
  destruct s as [|c t]; [done|]. simpl headClean at 1.
  intros H%negb_true_iff. rewrite trimEnd_cons_clean by done. simpl. by rewrite H.
Qed.

(** A prefix that ends in a unit that is not white space is kept whole. *)
Lemma trimEnd_app p c b :
  isSpace c = false -> trimEnd (p ++ c :: b) = p ++ c :: trimEnd b.
Proof.
  intros Hc. induction p as [|x p IH].
  - by apply trimEnd_cons_clean.
  - change ((x :: p) ++ c :: b) with (x :: (p ++ c :: b)).
    cbn [trimEnd]. rewrite IH. by destruct p.
Qed.

Lemma trimEnd_snoc p c : isSpace c = false -> trimEnd (p ++ [c]) = p ++ [c].
Proof. intros H. by rewrite trimEnd_app. Qed.

Lemma trimEnd_app_allSpace s w :
  allSpace w = true -> trimEnd (s ++ w) = trimEnd s.
Proof.
  intros Hw. induction s as [|c t IH]; simpl.
  - by apply trimEnd_allSpace.
  - by rewrite IH.
Qed.

Lemma Forall_trimStart (P : N -> Prop) s : Forall P s -> Forall P (trimStart s).
Proof.
  induction 1 as [|c t Hc Ht IH]; simpl; [constructor|].
  destruct (isSpace c); [done | by constructor].
Qed.

Lemma Forall_trimEnd (P : N -> Prop) s : Forall P s -> Forall P (trimEnd s).
Proof.
  induction 1 as [|c t Hc Ht IH]; simpl; [constructor|].
  destruct (trimEnd t).
  - destruct (isSpace c); [constructor | by repeat constructor].
  - by constructor.
Qed.

Lemma matchLit_length pat s r :
  matchLit pat s = Some r -> length s = (length pat + length r)%nat.
Proof.
  revert s. induction pat as [|p pt IH]; intros s; simpl.
  - by intros [= ->].
  - destruct s as [|c t]; [done|]. destruct (eqCI c p); [|done].
    intros H%IH. simpl. lia.
Qed.

Lemma matchLit_app pat s r q :
  matchLit pat s = Some r -> matchLit pat (s ++ q) = Some (r ++ q).
Proof.
  revert s. induction pat as [|p pt IH]; intros s; simpl.
  - by intros [= ->].
  - destruct s as [|c t]; [done|]. simpl. destruct (eqCI c p); [auto | done].
Qed.

Lemma toLowerUnit_idem c : toLowerUnit (toLowerUnit c) = toLowerUnit c.
Proof.
  unfold toLowerUnit.
  destruct (N.leb_spec 65 c), (N.leb_spec c 90), (N.leb_spec 192 c),
    (N.leb_spec c 222), (N.eqb_spec c 215); simpl.
  all: repeat (match goal with
          | |- context [ (?a <=? ?b) ] => destruct (N.leb_spec a b)
          | |- context [ (?a =? ?b) ] => destruct (N.eqb_spec a b)
          end; simpl); lia.
Qed.

Lemma toLowerCase_stable s :
  Forall (fun c => toLowerUnit c = c) s -> toLowerCase s = s.
Proof.
  induction 1 as [|c t Hc Ht IH]; simpl; [done|]. by rewrite Hc, IH.
Qed.

Lemma toLowerCase_Forall s : Forall (fun c => toLowerUnit c = c) (toLowerCase s).
Proof.
  induction s; simpl; constructor; [apply toLowerUnit_idem | done].
Qed.

End StrFacts.

(** ** The name normalizer *)

Section NormalizeFacts.
Import Str.

Lemma collapseSpaces_length s : (length (collapseSpaces s) <= length s)%nat.
Proof.
  induction s as [|c t IH]; simpl; [lia|].
  destruct (isSpace c); [destruct t as [|c' t']; [simpl; lia|]|];
    try destruct (isSpace c'); simpl in *; lia.
Qed.

Lemma collapseSpaces_headClean s :
  headClean s = true -> headClean (collapseSpaces s) = true.
Proof. destruct s as [|c t]; simpl; [done|]. by destruct (isSpace c) eqn:E; simpl; rewrite ?E. Qed.

Lemma collapseSpaces_spaced s : spaced (collapseSpaces s) = true.
Proof.
  induction s as [|c t IH]; [done|]. cbn [collapseSpaces].
  destruct (isSpace c) eqn:Ec.
  - destruct t as [|c' t']; [done|].
    destruct (isSpace c') eqn:Ec'; [done|].
    cbn [spaced]. rewrite IH.
    change (isSpace 32) with true. cbn [N.eqb Pos.eqb andb].
    rewrite collapseSpaces_headClean; [done|]. simpl. by rewrite Ec'.
  - cbn [spaced]. by rewrite Ec, IH.
Qed.

Lemma spaced_trimStart s : spaced s = true -> spaced (trimStart s) = true.
Proof.
  induction s as [|c t IH]; [done|]. intros H. simpl.
  destruct (isSpace c) eqn:Ec; [|done].
  apply IH. simpl in H. by apply andb_true_iff in H as [_ H].
Qed.

Lemma spaced_trimEnd s : spaced s = true -> tight (trimEnd s) = true.
Proof.
  induction s as [|c t IH]; [done|]. cbn [spaced].
  intros [Hc Ht]%andb_true_iff. specialize (IH Ht). cbn [trimEnd].
  destruct (trimEnd t) as [|x r] eqn:E.
  - destruct (isSpace c) eqn:Ec; [done|]. simpl. by rewrite Ec.
  - cbn [tight]. cbn [tight] in IH. rewrite IH, andb_true_r.
    destruct (isSpace c) eqn:Ec; [|done].
    apply andb_true_iff in Hc as [-> Hh]. rewrite andb_true_r. simpl.
    apply trimEnd_headClean in Hh. by rewrite E in Hh.
Qed.

Lemma tight_trimEnd s : tight s = true -> trimEnd s = s.
Proof.
  induction s as [|c t IH]; [done|]. cbn [tight].
  intros [Hc Ht]%andb_true_iff. cbn [trimEnd]. rewrite (IH Ht).
  destruct t as [|x r]; [|done].
  destruct (isSpace c); [|done]. by rewrite andb_false_r in Hc.
Qed.

Lemma tight_collapseSpaces s : tight s = true -> collapseSpaces s = s.
Proof.
  induction s as [|c t IH]; [done|]. cbn [tight].
  intros [Hc Ht]%andb_true_iff. cbn [collapseSpaces]. rewrite (IH Ht).
  destruct (isSpace c); [|done].
  apply andb_true_iff in Hc as [[Hc Hh]%andb_true_iff Hn].
  apply N.eqb_eq in Hc as ->.
  destruct t as [|x r]; [done|]. simpl in Hh.
  apply negb_true_iff in Hh. by rewrite Hh.
Qed.

Lemma Forall_collapseSpaces (P : N -> Prop) s :
  P 32 -> Forall P s -> Forall P (collapseSpaces s).
Proof.
  intros H32. induction 1 as [|c t Hc Ht IH]; [constructor|].
  cbn [collapseSpaces]. destruct (isSpace c).
  - destruct t as [|c' t']; [by repeat constructor|].
    destruct (isSpace c'); [done | by constructor].
  - by constructor.
Qed.

Lemma stripSymbols_length s : (length (stripSymbols s) <= length s)%nat.
Proof. induction s as [|c t IH]; simpl; [lia|]. destruct (isSymbol c); simpl; lia. Qed.

Lemma stripSymbols_clean s : Forall (fun c => isSymbol c = false) (stripSymbols s).
Proof.
  induction s as [|c t IH]; simpl; [constructor|].
  destruct (isSymbol c) eqn:E; simpl; [done | by constructor].
Qed.

Lemma stripSymbols_Forall (P : N -> Prop) s :
  Forall P s -> Forall P (stripSymbols s).
Proof.
  induction 1 as [|c t Hc Ht IH]; simpl; [constructor|].
  destruct (isSymbol c); simpl; [done | by constructor].
Qed.

Lemma stripSymbols_id s :
  Forall (fun c => isSymbol c = false) s -> stripSymbols s = s.
Proof. induction 1 as [|c t Hc Ht IH]; simpl; [done|]. rewrite Hc. simpl. by f_equal. Qed.

Lemma toLowerCase_length s : length (toLowerCase s) = length s.
Proof. apply length_map. Qed.

Lemma matchCopyAt_length s r :
  matchCopyAt s = Some r -> (length r < length s)%nat.
Proof.
  unfold matchCopyAt. intros H%matchLit_length.
  pose proof (trimStart_length s). change (length COPY) with 6%nat in H. lia.
Qed.

Lemma replaceCopy_length s : (length (replaceCopy s) <= length s)%nat.
Proof.
  induction s as [|c t IH]; cbn [replaceCopy].
  - destruct (matchCopyAt []) eqn:E; [|done]. apply matchCopyAt_length in E. lia.
  - destruct (matchCopyAt (c :: t)) eqn:E.
    + apply matchCopyAt_length in E. lia.
    + simpl. lia.
Qed.

Lemma replaceVersion_length s : (length (replaceVersion s) <= length s)%nat.
Proof.
  induction s as [|c t IH]; [done|]. cbn [replaceVersion].
  destruct (matchVersionAt (c :: t)); simpl; lia.
Qed.

(** Without an occurrence of the marker the first replacement is the
    identity. *)
Lemma hasCopy_trimStart s : hasCopy s = false -> hasCopy (trimStart s) = false.
Proof.
  induction s as [|c t IH]; [done|]. cbn [hasCopy trimStart].
  destruct (matchLit COPY (c :: t)) eqn:E; [done|]. intros H.
  destruct (isSpace c); [auto|]. cbn [hasCopy]. by rewrite E.
Qed.

Lemma hasCopy_head s : hasCopy s = false -> matchLit COPY s = None.
Proof. destruct s; cbn [hasCopy]; by destruct (matchLit COPY _). Qed.

Lemma replaceCopy_id s : hasCopy s = false -> replaceCopy s = s.
Proof.
  induction s as [|c t IH]; intros H.
  - done.
  - cbn [replaceCopy]. unfold matchCopyAt.
    rewrite (hasCopy_head _ (hasCopy_trimStart _ H)).
    f_equal. apply IH. cbn [hasCopy] in H.
    by destruct (matchLit COPY (c :: t)).
Qed.

Lemma eqCI_paren c : eqCI c 40 = true -> c = 40.
Proof.
  unfold eqCI. change (canonicalize 40) with 40. unfold canonicalize.
  destruct (N.leb_spec 97 c), (N.leb_spec c 122); simpl; intros ?%N.eqb_eq; lia.
Qed.

(** A match of the literal starts with the parenthesis, not white space. *)
Lemma matchLit_COPY_head c t r :
  matchLit COPY (c :: t) = Some r -> c = 40.
Proof.
  change COPY with (40 :: js "copy)"). cbn [matchLit].
  destruct (eqCI c 40) eqn:E; [|done]. intros _. by apply eqCI_paren.
Qed.

Lemma replaceCopy_shorter s :
  hasCopy s = true -> (length (replaceCopy s) < length s)%nat.
Proof.
  induction s as [|c t IH]; [done|]. intros H. cbn [replaceCopy].
  destruct (matchCopyAt (c :: t)) eqn:E.
  - by apply matchCopyAt_length in E.
  - cbn [hasCopy] in H. destruct (matchLit COPY (c :: t)) eqn:E'.
    + exfalso. apply matchLit_COPY_head in E' as Hc. subst c.
      unfold matchCopyAt in E. cbn [trimStart] in E.
      change (isSpace 40) with false in E. cbv iota in E. congruence.
    + simpl. specialize (IH H). lia.
Qed.

Lemma replaceVersion_id s : hasVersionSuffix s = false -> replaceVersion s = s.
Proof.
  induction s as [|c t IH]; [done|]. cbn [hasVersionSuffix replaceVersion].
  intros [-> H]%orb_false_iff. f_equal. auto.
Qed.

Lemma replaceVersion_shorter s :
  hasVersionSuffix s = true -> (length (replaceVersion s) < length s)%nat.
Proof.
  induction s as [|c t IH]; [done|]. cbn [hasVersionSuffix replaceVersion].
  destruct (matchVersionAt (c :: t)); simpl; [lia|].
  intros H. specialize (IH H). lia.
Qed.

Lemma trim_collapse_keyShape w :
  Forall (fun c => toLowerUnit c = c) w ->
  Forall (fun c => isSymbol c = false) w ->
  keyShape (trim (collapseSpaces w)).
Proof.
  intros Hl Hs. unfold trim.
  set (u := trimStart (collapseSpaces w)).
  assert (Ht : tight (trimEnd u) = true)
    by apply spaced_trimEnd, spaced_trimStart, collapseSpaces_spaced.
  assert (Hh : headClean (trimEnd u) = true)
    by apply trimEnd_headClean, trimStart_headClean.
  repeat split.
  - unfold trim. by rewrite (trimStart_id _ Hh), (tight_trimEnd _ Ht).
  - apply toLowerCase_stable, Forall_trimEnd, Forall_trimStart,
      Forall_collapseSpaces; done.
  - apply stripSymbols_id, Forall_trimEnd, Forall_trimStart,
      Forall_collapseSpaces; done.
  - by apply tight_collapseSpaces.
Qed.

Lemma normalizeTail_keyShape s : keyShape (normalizeTail s).
Proof.
  apply trim_collapse_keyShape.
  - apply stripSymbols_Forall, toLowerCase_Forall.
  - apply stripSymbols_clean.
Qed.

Lemma normalizeGameName_keyShape x : keyShape (normalizeGameName x).
Proof.
  unfold normalizeGameName. destruct (truthyOpt x).
  - apply normalizeTail_keyShape.
  - by repeat split.
Qed.

Lemma normalizeTail_length s : (length (normalizeTail s) <= length s)%nat.
Proof.
  unfold normalizeTail.
  pose proof (trim_length (collapseSpaces (stripSymbols (toLowerCase (replaceVersion s))))).
  pose proof (collapseSpaces_length (stripSymbols (toLowerCase (replaceVersion s)))).
  pose proof (stripSymbols_length (toLowerCase (replaceVersion s))).
  pose proof (toLowerCase_length (replaceVersion s)).
  pose proof (replaceVersion_length s). lia.
Qed.

Lemma normalizeTail_fix y :
  keyShape y -> hasVersionSuffix y = false -> normalizeTail y = y.
Proof.
  intros (Ht & Hl & Hs & Hc) Hv. unfold normalizeTail.
  by rewrite (replaceVersion_id _ Hv), Hl, Hs, Hc.
Qed.

(** A key is a fixed point of the normalizer exactly when neither
    removal finds anything left in it. *)
Lemma normalize_key_fix y :
  keyShape y ->
  normalizeGameName (Some y) = y <->
  hasCopy y = false /\ hasVersionSuffix y = false.
Proof.
  intros Hk. unfold normalizeGameName. destruct y as [|c t]; [done|].
  cbn [truthyOpt truthy orEmpty]. set (y := c :: t) in *.
  destruct Hk as (Ht & Hk). rewrite Ht. split.
  - intros Heq.
    pose proof (normalizeTail_length (replaceCopy y)) as H1.
    pose proof (replaceCopy_length y) as H2. rewrite Heq in H1.
    destruct (hasCopy y) eqn:Hc.
    { apply replaceCopy_shorter in Hc. lia. }
    split; [done|]. rewrite (replaceCopy_id _ Hc) in Heq.
    destruct (hasVersionSuffix y) eqn:Hv; [|done].
    apply replaceVersion_shorter in Hv.
    assert (length (normalizeTail y) <= length (replaceVersion y))%nat.
    { unfold normalizeTail.
      pose proof (trim_length (collapseSpaces (stripSymbols (toLowerCase (replaceVersion y))))).
      pose proof (collapseSpaces_length (stripSymbols (toLowerCase (replaceVersion y)))).
      pose proof (stripSymbols_length (toLowerCase (replaceVersion y))).
      pose proof (toLowerCase_length (replaceVersion y)). lia. }
    rewrite Heq in H. lia.
  - intros [Hc Hv]. rewrite (replaceCopy_id _ Hc).
    apply normalizeTail_fix; [by split | done].
Qed.

End NormalizeFacts.

Section CopyMarker.
Import Str.

Lemma replaceCopy_eq s :
  replaceCopy s =
  match matchCopyAt s with
  | Some rest => rest
  | None => match s with [] => [] | c :: t => c :: replaceCopy t end
  end.
Proof. by destruct s. Qed.

Lemma eqCI_close c : eqCI c 41 = true -> c = 41.
Proof.
  unfold eqCI. change (canonicalize 41) with 41. unfold canonicalize.
  destruct (N.leb_spec 97 c), (N.leb_spec c 122); simpl; intros ?%N.eqb_eq; lia.
Qed.

(** The shape of a marker: six units between parentheses. *)
Lemma isLit_COPY_shape c :
  isLit COPY c = true -> exists mid, length mid = 4%nat /\ c = 40 :: mid ++ [41].
Proof.
  unfold isLit. destruct (matchLit COPY c) as [[|]|] eqn:E; [|done..]. intros _.
  pose proof (matchLit_length _ _ _ E) as Hlen.
  change (length COPY) with 6%nat in Hlen.
  destruct c as [|c0 [|c1 [|c2 [|c3 [|c4 [|c5 [|]]]]]]]; try done.
  pose proof (matchLit_COPY_head _ _ _ E) as ->.
  change COPY with [40; 99; 111; 112; 121; 41] in E. cbn [matchLit] in E.
  repeat match type of E with
         | (if ?b then _ else _) = _ => destruct b eqn:?; [|done]
         end.
  match goal with H : eqCI c5 41 = true |- _ => apply eqCI_close in H as -> end.
  by exists [c1; c2; c3; c4].
Qed.

Lemma matchLit_prefix pat u rest r :
  matchLit pat (u ++ rest) = Some r -> (length pat <= length u)%nat ->
  exists r', matchLit pat u = Some r'.
Proof.
  revert u. induction pat as [|p pt IH]; intros u; simpl.
  - eauto.
  - destruct u as [|c t]; simpl; [lia|].
    destruct (eqCI c p); [|done]. intros H Hl. apply (IH t); [done | lia].
Qed.

(** No match of the literal starts in a part without one and runs into a
    marker that follows it. *)
Lemma matchLit_COPY_straddle u rest :
  truthy u = true -> matchLit COPY u = None ->
  matchLit COPY (u ++ 40 :: rest) = None.
Proof.
  intros Hu Hn. destruct (matchLit COPY (u ++ 40 :: rest)) as [r|] eqn:E; [|done].
  exfalso. destruct (le_lt_dec (length COPY) (length u)) as [Hl|Hl].
  - destruct (matchLit_prefix _ _ _ _ E Hl) as [r' Hr']. congruence.
  - change (length COPY) with 6%nat in Hl.
    change COPY with [40; 99; 111; 112; 121; 41] in E.
    destruct u as [|u0 [|u1 [|u2 [|u3 [|u4 [|u5 u6]]]]]];
      try done; cbn [matchLit app] in E; try (simpl in Hl; lia);
      repeat match type of E with
             | (if ?b then _ else _) = _ => destruct b eqn:?; [|done]
             end;
      vm_compute in *; congruence.
Qed.

Lemma hasCopy_tail c t : hasCopy (c :: t) = false -> hasCopy t = false.
Proof. cbn [hasCopy]. by destruct (matchLit COPY (c :: t)). Qed.

(** The marker that follows a part without any is the one removed, with
    the white space before it. *)
Lemma replaceCopy_first a rest r :
  hasCopy a = false -> matchLit COPY (40 :: rest) = Some r ->
  replaceCopy (a ++ 40 :: rest) = trimEnd a ++ r.
Proof.
  intros Ha Hm. induction a as [|x a IH].
  - rewrite replaceCopy_eq. unfold matchCopyAt. simpl app.
    rewrite trimStart_id by done. by rewrite Hm.
  - rewrite replaceCopy_eq. unfold matchCopyAt.
    rewrite trimStart_app by done.
    destruct (trimStart (x :: a)) as [|d u] eqn:Eu.
    + rewrite app_nil_l, Hm.
      by rewrite (trimEnd_allSpace _ (trimStart_nil _ Eu)).
    + rewrite matchLit_COPY_straddle; [|done|].
      2:{ apply hasCopy_head. rewrite <- Eu. by apply hasCopy_trimStart. }
      rewrite <- app_comm_cons, IH by (by eapply hasCopy_tail).
      cbn [trimEnd]. destruct (trimEnd a) eqn:Ea; [|done].
      destruct (isSpace x) eqn:Ex; [|done].
      exfalso. simpl in Eu. rewrite Ex in Eu.
      by rewrite (trimStart_allSpace _ (trimEnd_nil _ Ea)) in Eu.
Qed.

Lemma trimEnd_is_prefix s : exists w, s = trimEnd s ++ w.
Proof.
  induction s as [|c t [w Hw]]; [by exists []|]. cbn [trimEnd].
  destruct (trimEnd t) eqn:E.
  - destruct (isSpace c); [by exists (c :: t)|]. exists t. done.
  - exists w. simpl. by rewrite Hw at 1.
Qed.

Lemma hasCopy_prefix p q : hasCopy (p ++ q) = false -> hasCopy p = false.
Proof.
  induction p as [|c t IH]; [done|]. simpl app. intros H.
  pose proof (hasCopy_head _ H) as Hh. cbn [hasCopy].
  destruct (matchLit COPY (c :: t)) eqn:E.
  - apply (matchLit_app _ _ _ q) in E. simpl app in E. congruence.
  - apply IH. by eapply hasCopy_tail.
Qed.

Lemma hasCopy_trim s : hasCopy s = false -> hasCopy (trim s) = false.
Proof.
  intros H%hasCopy_trimStart. unfold trim.
  destruct (trimEnd_is_prefix (trimStart s)) as [w Hw].
  rewrite Hw in H. by eapply hasCopy_prefix.
Qed.

Lemma normalize_marker a c b :
  hasCopy a = false -> isLit COPY c = true ->
  normalizeGameName (Some (a ++ c ++ b)) = normalizeTail (trim a ++ trimEnd b).
Proof.
  intros Ha Hc. destruct (isLit_COPY_shape _ Hc) as (mid & Hlen & ->).
  unfold normalizeGameName. cbn [truthyOpt orEmpty].
  assert (truthy (a ++ (40 :: mid ++ [41]) ++ b) = true) as -> by by destruct a.
  f_equal. unfold trim at 1.
  change ((40 :: mid ++ [41]) ++ b) with (40 :: ((mid ++ [41]) ++ b)).
  rewrite trimStart_app by done.
  replace (trimStart a ++ 40 :: (mid ++ [41]) ++ b)
    with ((trimStart a ++ 40 :: mid) ++ 41 :: b)
    by (by rewrite <- !app_assoc).
  rewrite trimEnd_app by done. rewrite <- app_assoc. simpl app.
  rewrite (replaceCopy_first _ _ (trimEnd b)).
  - done.
  - by apply hasCopy_trimStart.
  - unfold isLit in Hc.
    destruct (matchLit COPY (40 :: mid ++ [41])) as [[|]|] eqn:E; try done.
    apply (matchLit_app _ _ _ (trimEnd b)) in E.
    by rewrite <- app_comm_cons, <- app_assoc in E.
Qed.

End CopyMarker.

(** The examples of the specification. *)
Example normalize_examples :
  normalizeGameName (Some (js "Book of Ra (copy)"))
    = normalizeGameName (Some (js "Book of Ra"))
  /\ normalizeGameName (Some (js "Starburst V94"))
     = normalizeGameName (Some (js "Starburst"))
  /\ normalizeGameName (Some (js "Game" ++ [TM] ++ js " 94%"))
     = normalizeGameName (Some (js "Game"))
  /\ normalizeGameName (Some (js "  Book   of Ra  ")) = js "book of ra".
Proof. by vm_compute. Qed.

(** C1 (as stated, refuted): one more marker is left after the first was
    removed, and the second pass removes it. *)
Lemma normalize_twice_differs :
  normalizeGameName (Some (js "a (copy) (copy)")) = js "a (copy)"
  /\ normalizeGameName (Some (normalizeGameName (Some (js "a (copy) (copy)")))) = js "a"
  /\ normalizeGameName (Some (normalizeGameName (Some (js "a (copy) (copy)"))))
     <> normalizeGameName (Some (js "a (copy) (copy)")).
Proof. by vm_compute. Qed.

(** C1 (amended): null and the empty string normalize to the empty string,
    and a second normalization changes nothing exactly when the normalized
    name has no [(copy)] marker and no trailing version suffix left. *)
Theorem normalize_idempotent_iff :
  normalizeGameName None = []
  /\ normalizeGameName (Some []) = []
  /\ forall x : option jsstring,
       normalizeGameName (Some (normalizeGameName x)) = normalizeGameName x
       <-> hasCopy (normalizeGameName x) = false
           /\ hasVersionSuffix (normalizeGameName x) = false.
Proof.
  split; [done|]. split; [done|]. intros x.
  apply normalize_key_fix, normalizeGameName_keyShape.
Qed.

(** C4 (as stated, refuted): a marker in the middle of a name is removed
    too; nothing of it is left in the key. *)
Lemma interior_copy_marker_removed :
  hasCopy (js "Book (copy) of Ra") = true
  /\ Str.endsWith (js "(copy)") (Str.trim (js "Book (copy) of Ra")) = false
  /\ normalizeGameName (Some (js "Book (copy) of Ra")) = js "book of ra"
  /\ hasCopy (normalizeGameName (Some (js "Book (copy) of Ra"))) = false.
Proof. by vm_compute. Qed.

(** C4 (amended): the first [(copy)] marker, in any letter case, is removed
    with the white space before it wherever it stands: a name [a ++ c ++ b],
    where [c] is a marker and [a] has none, normalizes as [trim a] followed
    by [b] without its trailing white space does once the marker is gone; a
    trailing marker disappears without a trace. *)
Theorem copy_marker_removed_anywhere (a c b : jsstring) :
  hasCopy a = false -> Str.isLit COPY c = true ->
  normalizeGameName (Some (a ++ c ++ b))
    = normalizeTail (Str.trim a ++ Str.trimEnd b)
  /\ normalizeGameName (Some (a ++ c)) = normalizeGameName (Some a).
Proof.
  intros Ha Hc. split; [by apply normalize_marker|].
  rewrite <- (app_nil_r c), normalize_marker by done.
  simpl Str.trimEnd. rewrite app_nil_r.
  unfold normalizeGameName. destruct a as [|x a]; [done|].
  cbn [truthyOpt truthy orEmpty].
  by rewrite (replaceCopy_id _ (hasCopy_trim _ Ha)).
Qed.

(** C4, on a name with a marker in the middle and one with a marker at the
    end. *)
Lemma copy_marker_removed_anywhere_witness :
  normalizeGameName (Some (js "Book of Ra " ++ js "(Copy)" ++ js " Deluxe "))
    = normalizeTail (Str.trim (js "Book of Ra ") ++ Str.trimEnd (js " Deluxe "))
  /\ normalizeGameName (Some (js "Book of Ra " ++ js "(Copy)"))
     = normalizeGameName (Some (js "Book of Ra ")).
Proof.
  apply (copy_marker_removed_anywhere (js "Book of Ra ") (js "(Copy)") (js " Deluxe "));
    reflexivity.
Defined.

(** ** The reference table *)

Section SplitFacts.
Import Str.

Variable sep : N.
Variable pat : jsstring.
Hypothesis pat_no_sep : forallb (fun p => negb (p =? sep)) pat = true.

Lemma split_cons_inv s : exists h r, split sep s = h :: r.
Proof.
  induction s as [|c t (h & r & E)]; simpl; [by eauto|].
  destruct (c =? sep); [by eauto|]. rewrite E. by eauto.
Qed.

(** The pattern starts a string exactly when it starts its first field. *)
Lemma startsWith_first_field q s h r :
  forallb (fun p => negb (p =? sep)) q = true ->
  split sep s = h :: r -> startsWith q s = startsWith q h.
Proof.
  revert s h r. induction q as [|p q IH]; intros s h r Hq Hs; [done|].
  simpl in Hq. apply andb_true_iff in Hq as [Hp Hq].
  destruct s as [|c t]; simpl in Hs.
  - by injection Hs as <- <-.
  - destruct (N.eqb_spec c sep) as [->|Hc].
    + injection Hs as <- <-. simpl.
      apply negb_true_iff in Hp. by rewrite N.eqb_sym, Hp.
    + destruct (split_cons_inv t) as (h' & r' & E). rewrite E in Hs.
      injection Hs as <- <-. simpl. f_equal. by eapply IH.
Qed.

(** A pattern without the separator occurs in a string exactly when it
    occurs in one of its fields. *)
Lemma includes_split s :
  includes pat s = existsb (includes pat) (split sep s).
Proof.
  induction s as [|c t IH].
  - cbn [includes split existsb]. by rewrite !orb_false_r.
  - cbn [includes split]. rewrite IH.
    destruct (split_cons_inv t) as (h & r & E).
    destruct (N.eqb_spec c sep) as [->|Hc].
    + cbn [existsb includes].
      rewrite (startsWith_first_field pat (sep :: t) [] (split sep t) pat_no_sep).
      * by rewrite orb_false_r.
      * simpl. by rewrite N.eqb_refl.
    + rewrite E. cbn [existsb includes].
      rewrite (startsWith_first_field pat (c :: t) (c :: h) r pat_no_sep).
      * by rewrite orb_assoc.
      * simpl. destruct (N.eqb_spec c sep); [done|]. by rewrite E.
Qed.

End SplitFacts.

Section HeaderFacts.
Import Str.

Lemma toLowerUnit_tab c : (toLowerUnit c =? TAB) = (c =? TAB).
Proof.
  unfold toLowerUnit, TAB.
  destruct (N.leb_spec 65 c), (N.leb_spec c 90), (N.leb_spec 192 c),
    (N.leb_spec c 222), (N.eqb_spec c 215); simpl;
    repeat match goal with
           | |- context [ (?a =? ?b) ] => destruct (N.eqb_spec a b)
           end; try done; lia.
Qed.

Lemma split_toLowerCase s :
  split TAB (toLowerCase s) = List.map toLowerCase (split TAB s).
Proof.
  induction s as [|c t IH]; [done|]. cbn [toLowerCase List.map split].
  rewrite toLowerUnit_tab. fold (toLowerCase t). rewrite IH.
  destruct (c =? TAB); [done|]. by destruct (split TAB t).
Qed.

(** The test on the whole first line is a test on its fields. *)
Lemma header_test_by_field line :
  includes GAME_PROVIDER (toLowerCase line)
  = existsb (fun f => includes GAME_PROVIDER (toLowerCase f)) (split TAB line).
Proof.
  rewrite (includes_split TAB GAME_PROVIDER) by done.
  rewrite split_toLowerCase. induction (split TAB line); [done|].
  simpl. by f_equal.
Qed.

End HeaderFacts.

(** C3 (as stated, refuted): a first line with "game provider" in its second
    field only is skipped; read as data it would have given an entry. *)
Lemma header_in_second_field_skipped :
  Str.includes GAME_PROVIDER
    (Str.toLowerCase (hd [] (Str.split TAB
       (js "Name" ++ [TAB] ++ js "Game Provider" ++ [TAB] ++ js "Yes" ++ [TAB]
        ++ js "01/02/2024" ++ [TAB] ++ js "x" ++ [TAB] ++ js "code_1")))) = false
  /\ dataLines
       (js "Name" ++ [TAB] ++ js "Game Provider" ++ [TAB] ++ js "Yes" ++ [TAB]
        ++ js "01/02/2024" ++ [TAB] ++ js "x" ++ [TAB] ++ js "code_1") = []
  /\ parseProviderData
       (js "Name" ++ [TAB] ++ js "Game Provider" ++ [TAB] ++ js "Yes" ++ [TAB]
        ++ js "01/02/2024" ++ [TAB] ++ js "x" ++ [TAB] ++ js "code_1") !! js "name" = None
  /\ provider <$>
       (addLine ∅
          (js "Name" ++ [TAB] ++ js "Game Provider" ++ [TAB] ++ js "Yes" ++ [TAB]
           ++ js "01/02/2024" ++ [TAB] ++ js "x" ++ [TAB] ++ js "code_1") !! js "name")
     = Some (js "Game Provider").
Proof. by vm_compute. Qed.

(** C3 (amended): the first line is skipped as a header exactly when some
    tab-separated field of it, the first or a later one, contains "game
    provider" in any letter case; the table is read from the other lines. *)
Theorem header_skipped_iff (text : jsstring) :
  dataLines text
  = (if existsb (fun f => Str.includes GAME_PROVIDER (Str.toLowerCase f))
               (Str.split TAB (hd [] (Str.split LF text)))
     then tl (Str.split LF text) else Str.split LF text)
  /\ parseProviderData text = fold_left addLine (dataLines text) ∅.
Proof.
  split; [|done]. unfold dataLines.
  destruct (Str.split LF text) as [|l0 rest] eqn:E; [done|]. cbn [hd tl].
  rewrite <- header_test_by_field.
  destruct l0 as [|c l0]; [done|]. done.
Qed.

(** ** The exports *)

(** C9 (as stated, refuted): an md5 that is the empty string is not null,
    and yet the sha1 is shown. *)
Lemma empty_md5_yields_sha1 :
  md5 {| name := js "a.bin"; md5 := Some []; sha1 := Some (js "da39a3ee") |} <> None
  /\ getDisplayHash
       {| name := js "a.bin"; md5 := Some []; sha1 := Some (js "da39a3ee") |}
     = js "da39a3ee"
  /\ getDisplayHash
       {| name := js "a.bin"; md5 := Some []; sha1 := Some (js "da39a3ee") |}
     <> orEmpty (md5 {| name := js "a.bin"; md5 := Some []; sha1 := Some (js "da39a3ee") |}).
Proof. by vm_compute. Qed.

(** C9 (amended): the hash of a file is its md5 when that is neither null
    nor empty, else its sha1 when that is neither null nor empty, else the
    empty string; the cell on screen and the hash column of the full table
    are made of these hashes. *)
Theorem getDisplayHash_precedence :
  (forall file : FileDetail,
     getDisplayHash file
     = match md5 file with
       | Some (c :: h) => c :: h
       | _ => match sha1 file with
              | Some (c :: h) => c :: h
              | _ => []
              end
       end)
  /\ (forall instance : GameInstanceData,
        hashCell instance
        = Str.join (js ", ") (List.map getDisplayHash (files instance)))
  /\ (forall Date_parse gameProviderMap fileEntry instance,
        nth 9 (fullRowCells Date_parse gameProviderMap fileEntry instance) []
        = formatListForClipboard (List.map getDisplayHash (files instance))
        /\ fullRow Date_parse gameProviderMap fileEntry instance
           = Str.join [TAB] (fullRowCells Date_parse gameProviderMap fileEntry instance)).
Proof.
  split; [|split].
  - intros [n [[|c h]|] [[|c' h']|]]; reflexivity.
  - intros [g c [|f fs]]; reflexivity.
  - intros; split; reflexivity.
Qed.

Section FullTable.

Variable Date_parse : jsstring -> option Z.
Variable gameProviderMap : gmap jsstring ProviderInfo.

(** The codes of the export are those of the reference table. *)
Lemma authoritativeImsCodeMap_lookup (k : jsstring) :
  authoritativeImsCodeMap gameProviderMap !! k
  = gameProviderMap !! k ≫= (fun info => optOrNull (imsGameCode info)).
Proof.
  unfold authoritativeImsCodeMap.
  apply (map_fold_weak_ind
           (fun (acc : gmap jsstring jsstring) (m : gmap jsstring ProviderInfo) =>
              acc !! k = m !! k ≫= (fun info => optOrNull (imsGameCode info)))).
  - by rewrite !lookup_empty.
  - intros i x m r Hi IH. destruct (decide (i = k)) as [->|Hne].
    + rewrite lookup_insert_eq. simpl.
      destruct (imsGameCode x) as [[|c t]|]; simpl.
      * by rewrite IH, Hi.
      * by rewrite lookup_insert_eq.
      * by rewrite IH, Hi.
    + rewrite (lookup_insert_ne m) by done. rewrite <- IH.
      destruct (truthyOpt (imsGameCode x)); [|done].
      by rewrite lookup_insert_ne.
Qed.

Lemma fullRow_eraseGameCode f i :
  fullRow Date_parse gameProviderMap (eraseGameCodes f) (eraseGameCode i)
  = fullRow Date_parse gameProviderMap f i.
Proof. reflexivity. Qed.

Lemma fullRowsOf_eraseGameCodes f :
  fullRowsOf Date_parse gameProviderMap (eraseGameCodes f)
  = fullRowsOf Date_parse gameProviderMap f.
Proof.
  unfold fullRowsOf. cbn [status extractedInstances eraseGameCodes reportNumber].
  destruct (negb (status_eqb (status f) completed)); [done|].
  destruct (extractedInstances f) as [|i l]; [done|].
  cbn [List.map]. f_equal.
  rewrite List.map_map. apply List.map_ext. intros a. apply fullRow_eraseGameCode.
Qed.

Lemma copyToClipboard_eraseGameCodes data :
  copyToClipboard Date_parse gameProviderMap (List.map eraseGameCodes data)
  = copyToClipboard Date_parse gameProviderMap data.
Proof.
  unfold copyToClipboard.
  assert (flat_map (fullRowsOf Date_parse gameProviderMap) (List.map eraseGameCodes data)
          = flat_map (fullRowsOf Date_parse gameProviderMap) data) as ->; [|done].
  induction data as [|f l IH]; [done|]. simpl.
  by rewrite fullRowsOf_eraseGameCodes, IH.
Qed.

End FullTable.

(** C7: two sets of files that differ in the extracted game codes of their
    instances only give the same full table; its code column is the IMS game
    code of the reference entry under the normalized name, when that entry
    has one, and empty otherwise. *)
Theorem full_table_ignores_extracted_codes
    (Date_parse : jsstring -> option Z)
    (gameProviderMap : gmap jsstring ProviderInfo)
    (data1 data2 : list ProcessedFileData) :
  List.map eraseGameCodes data1 = List.map eraseGameCodes data2 ->
  copyToClipboard Date_parse gameProviderMap data1
  = copyToClipboard Date_parse gameProviderMap data2
  /\ forall fileEntry instance,
       nth 1 (fullRowCells Date_parse gameProviderMap fileEntry instance) []
       = orEmpty (gameProviderMap !! normalizeGameName (gameName instance)
                  ≫= imsGameCode).
Proof.
  intros H. split.
  - rewrite <- (copyToClipboard_eraseGameCodes _ _ data1),
      <- (copyToClipboard_eraseGameCodes _ _ data2). by rewrite H.
  - intros fileEntry instance. cbn [fullRowCells nth].
    rewrite authoritativeImsCodeMap_lookup.
    destruct (gameProviderMap !! normalizeGameName (gameName instance)) as [info|];
      [|done].
    simpl. by destruct (imsGameCode info) as [[|]|].
Qed.

(** C7, on two files that differ in the game code of their instance. *)
Lemma full_table_ignores_extracted_codes_witness :
  copyToClipboard Sample.isoOnlyDateParse Sample.referenceTable
    [ Sample.completedFile "cert.pdf-1" "R-1"
        [ Sample.instance "Starburst" (Some (js "other_mcg")) ] ]
  = copyToClipboard Sample.isoOnlyDateParse Sample.referenceTable
      [ Sample.completedFile "cert.pdf-1" "R-1"
          [ Sample.instance "Starburst" None ] ]
  /\ forall fileEntry instance,
       nth 1 (fullRowCells Sample.isoOnlyDateParse Sample.referenceTable
                fileEntry instance) []
       = orEmpty (Sample.referenceTable !! normalizeGameName (gameName instance)
                  ≫= imsGameCode).
Proof.
  apply (full_table_ignores_extracted_codes Sample.isoOnlyDateParse
           Sample.referenceTable
           [ Sample.completedFile "cert.pdf-1" "R-1"
               [ Sample.instance "Starburst" (Some (js "other_mcg")) ] ]
           [ Sample.completedFile "cert.pdf-1" "R-1"
               [ Sample.instance "Starburst" None ] ]).
  reflexivity.
Defined.

(** ** The condensed table *)

Section CondensedTable.

Lemma ltb_irrefl a : Str.ltb a a = false.
Proof.
  induction a as [|x a IH]; [done|]. simpl.
  by rewrite N.ltb_irrefl, N.eqb_refl, IH.
Qed.

Lemma ltb_asym a b : Str.ltb a b = true -> Str.ltb b a = false.
Proof.
  revert b. induction a as [|x a IH]; intros [|y b]; simpl; try done.
  destruct (N.ltb_spec x y), (N.ltb_spec y x), (N.eqb_spec x y),
    (N.eqb_spec y x); simpl; try lia; try done.
  apply IH.
Qed.

(** The comparator is total: of two rows one is not after the other. *)
Lemma compareRows_total a b :
  (0 < compareRows a b)%Z -> (compareRows b a <= 0)%Z.
Proof.
  unfold compareRows.
  destruct (Str.ltb (c_provider a) (c_provider b)) eqn:E1; [lia|].
  destruct (Str.ltb (c_provider b) (c_provider a)) eqn:E2; [lia|].
  destruct (Str.ltb (c_gameName a) (c_gameName b)) eqn:E3; [lia|].
  destruct (Str.ltb (c_gameName b) (c_gameName a)) eqn:E4; lia.
Qed.


Lemma insertRow_sorted x l : Sorted rowLe l -> Sorted rowLe (insertRow x l).
Proof.
  induction 1 as [|y t Ht IH Hhd]; simpl.
  - by repeat constructor.
  - destruct (Z.leb_spec (compareRows x y) 0) as [Hle|Hgt].
    + constructor; [by constructor | by constructor].
    + constructor; [done|].
      destruct t as [|z t]; simpl.
      * constructor. by apply compareRows_total.
      * destruct (Z.leb_spec (compareRows x z) 0).
        -- constructor. by apply compareRows_total.
        -- constructor. by inversion Hhd.
Qed.

Lemma insertRow_perm x l : Permutation (insertRow x l) (x :: l).
Proof.
  induction l as [|y t IH]; simpl; [done|].
  destruct (compareRows x y <=? 0)%Z; [done|].
  rewrite IH. apply perm_swap.
Qed.

(** The rows of the export are those of the instances, in the order of
    the comparator: by provider, then by display name. *)
Lemma sortRows_sorted l : Sorted rowLe (sortRows l) /\ Permutation (sortRows l) l.
Proof.
  induction l as [|x l [IH1 IH2]]; simpl; [by split; constructor|].
  split; [by apply insertRow_sorted|].
  rewrite insertRow_perm. by constructor.
Qed.

Lemma addLine_no_empty_key m line :
  m !! ([] : jsstring) = None -> addLine m line !! ([] : jsstring) = None.
Proof.
  intros Hm. unfold addLine.
  repeat match goal with
         | |- context [ if ?b then _ else _ ] => destruct b eqn:?; try done
         end.
  rewrite lookup_insert_ne; [done|].
  intros E. rewrite E in *. discriminate.
Qed.

(** No entry of a parsed reference table is under the empty key. *)
Lemma parseProviderData_no_empty_key text :
  parseProviderData text !! ([] : jsstring) = None.
Proof.
  unfold parseProviderData.
  assert (forall l m, m !! ([] : jsstring) = None ->
                      fold_left addLine l m !! ([] : jsstring) = None) as H.
  { induction l as [|x l IH]; intros m Hm; [done|].
    simpl. by apply IH, addLine_no_empty_key. }
  apply H, lookup_empty.
Qed.

(** A completed file without instances gives one row: the report number
    and nothing else, under the sort key of the rows without provider. *)
Lemma placeholder_row Date_parse text fileEntry :
  status fileEntry = completed -> extractedInstances fileEntry = [] ->
  comRowsOf Date_parse (parseProviderData text) fileEntry
  = [ {| c_gameName := [];
         c_gameCode := [];
         c_certificateRef := orEmpty (reportNumber fileEntry);
         c_activatedInIms := [];
         c_date := [];
         c_provider := UNCATEGORIZED_SORT_KEY |} ].
Proof.
  intros Hs Hi. unfold comRowsOf. rewrite Hs, Hi. cbn [List.map negb].
  unfold comRow. cbn [gameName noInstance].
  change (normalizeGameName None) with ([] : jsstring).
  rewrite authoritativeImsCodeMap_lookup, parseProviderData_no_empty_key.
  reflexivity.
Qed.

End CondensedTable.

(** C6 (the code at the failing input): the row of the instance without
    provider comes before the row of the instance whose provider is
    iSoftBet, as [Z] is before [i] in the order of code units. *)
Theorem sentinel_row_before_resolved_row :
  List.map c_provider
    (comSortedRows Sample.isoOnlyDateParse Sample.referenceTable
       [ Sample.completedFile "cert.pdf-1" "R-1"
           [ Sample.instance "Book of Ra" None; Sample.instance "Unknown" None ] ])
  = [ js "ZZZ_Uncategorized"; js "iSoftBet" ]
  /\ copyForComProcess Sample.isoOnlyDateParse Sample.referenceTable
       [ Sample.completedFile "cert.pdf-1" "R-1"
           [ Sample.instance "Book of Ra" None; Sample.instance "Unknown" None ] ]
     = Some (COM_HEADERS ++ [LF]
             ++ Str.join [TAB] [ js "Unknown"; []; js "R-1"; []; [] ] ++ [LF]
             ++ Str.join [TAB] [ js "Book of Ra"; js "isb_bookofra"; js "R-1";
                                 js "No"; [] ])
  /\ Sample.referenceTable !! normalizeGameName (Some (js "Unknown")) = None
  /\ provider <$> Sample.referenceTable !! normalizeGameName (Some (js "Book of Ra"))
     = Some (js "iSoftBet").
Proof. by vm_compute. Qed.

(** C10 (the code at the failing input): the row of the file without
    instances has the report number only, and comes before the row of a
    game whose provider is iSoftBet. *)
Theorem placeholder_row_before_resolved_row :
  comSortedRows Sample.isoOnlyDateParse Sample.referenceTable
    [ Sample.completedFile "cert.pdf-1" "R-1" [ Sample.instance "Book of Ra" None ];
      Sample.completedFile "cert.pdf-2" "R-2" [] ]
  = [ {| c_gameName := []; c_gameCode := []; c_certificateRef := js "R-2";
         c_activatedInIms := []; c_date := [];
         c_provider := js "ZZZ_Uncategorized" |};
      {| c_gameName := js "Book of Ra"; c_gameCode := js "isb_bookofra";
         c_certificateRef := js "R-1"; c_activatedInIms := js "No"; c_date := [];
         c_provider := js "iSoftBet" |} ]
  /\ copyForComProcess Sample.isoOnlyDateParse Sample.referenceTable
       [ Sample.completedFile "cert.pdf-1" "R-1" [ Sample.instance "Book of Ra" None ];
         Sample.completedFile "cert.pdf-2" "R-2" [] ]
     = Some (COM_HEADERS ++ [LF]
             ++ Str.join [TAB] [ []; []; js "R-2"; []; [] ] ++ [LF]
             ++ Str.join [TAB] [ js "Book of Ra"; js "isb_bookofra"; js "R-1";
                                 js "No"; [] ]).
Proof. by vm_compute. Qed.

(** ** The archive export *)

Section ZipFacts.


Lemma sanitizeFolderName_noSlash s : noSlash (sanitizeFolderName s).
Proof.
  induction s as [|c t IH]; [constructor|]. constructor; [|done].
  destruct (isIllegalPathUnit c) eqn:E; [done|].
  intros ->. by vm_compute in E.
Qed.

Lemma folderOf_noSlash m i : noSlash (folderOf m i).
Proof. apply sanitizeFolderName_noSlash. Qed.

(** A path tells its folder. *)
Lemma path_folder_inj a b x y :
  noSlash a -> noSlash b -> a ++ SLASH :: x = b ++ SLASH :: y -> a = b.
Proof.
  intros Ha. revert b. induction Ha as [|c a Hc Ha IH]; intros b Hb E.
  - destruct Hb as [|d b Hd Hb]; [done|]. simpl in E. congruence.
  - destruct Hb as [|d b Hd Hb]; simpl in E; [congruence|].
    injection E as -> E. f_equal. by apply IH.
Qed.

Variable gameProviderMap : gmap jsstring ProviderInfo.
Variable originalFile : File.

Lemma filed_add zip folders folderName :
  noSlash folderName -> filed originalFile zip folders ->
  filed originalFile (zipFile (zipFolder zip folderName) folderName
           (f_name originalFile) (f_bytes originalFile))
        (folders ∪ {[ folderName ]}).
Proof.
  intros Hn Hf g Hg. unfold zipFile, zipFolder.
  destruct (decide (g = folderName)) as [->|Hne].
  - split; [done|]. apply lookup_insert_eq.
  - assert (g ∈ folders) as Hin by set_solver.
    destruct (Hf g Hin) as [Hgn Hgl]. split; [done|].
    rewrite !lookup_insert_ne; [done| |].
    + intros E. apply Hne. symmetry.
      by apply (path_folder_inj _ _ [] (f_name originalFile)).
    + intros E. apply Hne. symmetry.
      by apply (path_folder_inj _ _ (f_name originalFile) (f_name originalFile)).
Qed.

Lemma addInstance_fold l zip folders :
  filed originalFile zip folders ->
  (fold_left (addInstance gameProviderMap originalFile) l (zip, folders)).2
    = folders ∪ list_to_set (List.map (folderOf gameProviderMap) l)
  /\ filed originalFile
     (fold_left (addInstance gameProviderMap originalFile) l (zip, folders)).1
           (fold_left (addInstance gameProviderMap originalFile) l (zip, folders)).2.
Proof.
  revert zip folders. induction l as [|i l IH]; intros zip folders Hf.
  - simpl. split; [set_solver | done].
  - cbn [fold_left List.map list_to_set]. unfold addInstance at 2 4 6.
    destruct (bool_decide (folderOf gameProviderMap i ∈ folders)) eqn:E; simpl negb; cbv iota.
    + apply bool_decide_eq_true in E.
      destruct (IH zip folders Hf) as [-> H2]. split; [set_solver | done].
    + destruct (IH _ _ (filed_add zip folders (folderOf gameProviderMap i)
                          (folderOf_noSlash gameProviderMap i) Hf)) as [H1 H2].
      rewrite H1 in *. split; [set_solver | done].
Qed.

(** The path of the file in one folder is no path of another folder. *)
Lemma path_other_folder f g :
  noSlash f -> f <> g ->
  g ++ [SLASH] ++ f_name originalFile <> f ++ [SLASH]
  /\ g ++ [SLASH] ++ f_name originalFile <> f ++ [SLASH] ++ f_name originalFile.
Proof.
  intros Hf Hne. split.
  - revert g Hne. induction Hf as [|c f Hc Hf IH]; intros g Hne E.
    + destruct g as [|d g]; [done|]. simpl in E. injection E as -> E.
      by destruct g.
    + destruct g as [|d g]; simpl in E; [congruence|].
      injection E as -> E. apply (IH g); [congruence | done].
  - intros E. apply Hne. symmetry. by apply app_inv_tail in E.
Qed.

(** The loop over the instances puts the file nowhere but in the folders
    of the instances. *)
Lemma addInstance_fold_frame l zip folders g :
  (forall i, In i l -> folderOf gameProviderMap i <> g) ->
  (fold_left (addInstance gameProviderMap originalFile) l (zip, folders)).1
    !! (g ++ [SLASH] ++ f_name originalFile)
  = zip !! (g ++ [SLASH] ++ f_name originalFile).
Proof.
  revert zip folders. induction l as [|i l IH]; intros zip folders Hl; [done|].
  cbn [fold_left].
  destruct (addInstance gameProviderMap originalFile (zip, folders) i)
    as [zip' folders'] eqn:Ea.
  rewrite IH by (intros j Hj; apply Hl; by right).
  unfold addInstance in Ea.
  destruct (bool_decide (folderOf gameProviderMap i ∈ folders));
    cbn [negb] in Ea; injection Ea as <- <-; [done|].
  unfold zipFile, zipFolder.
  destruct (path_other_folder (folderOf gameProviderMap i) g) as [H1 H2];
    [apply folderOf_noSlash | apply Hl; by left |].
  by rewrite !lookup_insert_ne.
Qed.

Lemma UNCATEGORIZED_noSlash : noSlash UNCATEGORIZED.
Proof.
  unfold noSlash. set (u := UNCATEGORIZED). vm_compute in u. subst u.
  repeat constructor; done.
Qed.

Lemma folderOf_unresolved i :
  resolveProvider gameProviderMap i = None -> folderOf gameProviderMap i = UNCATEGORIZED.
Proof. unfold folderOf. by intros ->. Qed.

End ZipFacts.

(** C2 (as stated, refuted): a file with one instance of NetEnt and one
    instance without provider is put in the folder NetEnt and in the folder
    Uncategorized as well. *)
Lemma mixed_file_also_in_uncategorized :
  resolveProvider Sample.referenceTable (Sample.instance "Starburst" None)
    = Some (js "NetEnt")
  /\ resolveProvider Sample.referenceTable (Sample.instance "Unknown" None) = None
  /\ archiveOf
       (handleExportZip false false
          [ Sample.completedFile "cert.pdf-1" "R-1"
              [ Sample.instance "Starburst" None; Sample.instance "Unknown" None ] ]
          {[ js "cert.pdf-1" := Sample.pdf "cert.pdf" 4 "application/pdf" ]}
          Sample.referenceTable)
       !! js "NetEnt/cert.pdf" = Some (ZFile [37; 80; 68; 70])
  /\ archiveOf
       (handleExportZip false false
          [ Sample.completedFile "cert.pdf-1" "R-1"
              [ Sample.instance "Starburst" None; Sample.instance "Unknown" None ] ]
          {[ js "cert.pdf-1" := Sample.pdf "cert.pdf" 4 "application/pdf" ]}
          Sample.referenceTable)
       !! js "Uncategorized/cert.pdf" = Some (ZFile [37; 80; 68; 70]).
Proof. by vm_compute. Qed.

(** C2 (amended): a completed file is put once in the folder of each of its
    instances, the folder of the provider of the instance or Uncategorized
    when the instance has none; a file with instances of both kinds is in the
    folders of the providers and in Uncategorized, and a file without
    instances is in Uncategorized alone.  The file is put in no other
    folder. *)
Theorem zip_folders_per_instance
    (gameProviderMap : gmap jsstring ProviderInfo) (originalFile : File)
    (zip : gmap jsstring ZipEntry) (processedFile : ProcessedFileData) :
  (addFile gameProviderMap originalFile zip processedFile).2
  = match extractedInstances processedFile with
    | [] => {[ UNCATEGORIZED ]}
    | l => list_to_set (List.map (folderOf gameProviderMap) l)
    end
  /\ (forall folderName,
        folderName ∈ (addFile gameProviderMap originalFile zip processedFile).2 ->
        (addFile gameProviderMap originalFile zip processedFile).1
          !! (folderName ++ [SLASH] ++ f_name originalFile)
        = Some (ZFile (f_bytes originalFile)))
  /\ (forall folderName,
        folderName ∉ (addFile gameProviderMap originalFile zip processedFile).2 ->
        (addFile gameProviderMap originalFile zip processedFile).1
          !! (folderName ++ [SLASH] ++ f_name originalFile)
        = zip !! (folderName ++ [SLASH] ++ f_name originalFile))
  /\ (forall instance,
        In instance (extractedInstances processedFile) ->
        resolveProvider gameProviderMap instance = None ->
        UNCATEGORIZED ∈ (addFile gameProviderMap originalFile zip processedFile).2).
Proof.
  assert (filed originalFile zip ∅) as H0 by (intros g Hg; set_solver).
  destruct (addInstance_fold gameProviderMap originalFile
              (extractedInstances processedFile) zip ∅ H0) as [H1 H2].
  pose proof (addInstance_fold_frame gameProviderMap originalFile
                (extractedInstances processedFile) zip ∅) as H3.
  unfold addFile.
  destruct (fold_left (addInstance gameProviderMap originalFile)
              (extractedInstances processedFile) (zip, ∅)) as [zip1 folders] eqn:E.
  cbn [fst snd] in H1, H2, H3. rewrite union_empty_l_L in H1.
  destruct (extractedInstances processedFile) as [|i l] eqn:Ei.
  - simpl in H1. subst folders. rewrite size_empty.
    rewrite bool_decide_eq_true_2 by done. cbn [fst snd].
    rewrite union_empty_l_L. split; [done|]. split; [|split].
    + intros g Hg. apply (filed_add originalFile zip1 ∅ UNCATEGORIZED);
        [apply UNCATEGORIZED_noSlash | done | set_solver].
    + intros g Hg. unfold zipFile, zipFolder.
      destruct (path_other_folder originalFile UNCATEGORIZED g) as [P1 P2];
        [apply UNCATEGORIZED_noSlash | set_solver |].
      rewrite !lookup_insert_ne by done. by apply H3.
    + intros j [].
  - rewrite bool_decide_eq_false_2.
    + cbn [fst snd]. split; [done|]. split; [|split].
      * intros g Hg. by apply H2.
      * intros g Hg. apply H3. intros j Hj Ej. apply Hg. rewrite H1.
        apply elem_of_list_to_set, list_elem_of_In, in_map_iff. by exists j.
      * intros j Hj Hr. rewrite H1.
        apply elem_of_list_to_set, list_elem_of_In, in_map_iff.
        exists j. split; [by apply folderOf_unresolved | done].
    + intros Hs%size_empty_inv. apply leibniz_equiv in Hs.
      rewrite Hs in H1. cbn [List.map list_to_set] in H1.
      assert (folderOf gameProviderMap i ∈ (∅ : gset jsstring))
        by (rewrite H1; set_solver).
      set_solver.
Qed.

(** ** The file pipeline *)

Section PipelineFacts.

Variable MAX_FILE_SIZE_BYTES : Z.
Variable MAX_FILE_SIZE_MB : jsstring.
Variable extractTextFromPdf : File -> Result jsstring.
Variable extractInfoFromText : jsstring -> jsstring -> Result ExtractedGeminiInfo.
Variable convertFileToBase64AndGetMime : File -> Result (jsstring * jsstring).
Variable extractInfoFromImage :
  jsstring -> jsstring -> jsstring -> Result ExtractedGeminiInfo.

Local Abbreviation processOne' :=
  (processOne extractTextFromPdf extractInfoFromText
     convertFileToBase64AndGetMime extractInfoFromImage).

Lemma lookup_List_map {A B} (f : A -> B) (l : list A) (i : nat) :
  List.map f l !! i = f <$> (l !! i).
Proof.
  revert i. induction l as [|x l IH]; intros [|i]; simpl; auto.
Qed.

Lemma updateById_lookup fileId g prev i :
  updateById fileId g prev !! i
  = (fun f => if bool_decide (id f = fileId) then g f else f) <$> (prev !! i).
Proof. apply lookup_List_map. Qed.

Lemma processOne_other originals key prev current i g :
  prev !! i = Some g -> id g <> id current ->
  processOne' originals key prev current !! i = Some g.
Proof.
  intros Hi Hne. unfold processOne', processOne.
  destruct (extractFor _ _ _ _ originals key current);
    rewrite !updateById_lookup, Hi; simpl;
    rewrite (bool_decide_eq_false_2 (id g = id current)) by done;
    by rewrite (bool_decide_eq_false_2 (id g = id current)) by done.
Qed.

Lemma processOne_same originals key prev current i g :
  prev !! i = Some g -> id g = id current ->
  exists g', processOne' originals key prev current !! i = Some g'
             /\ id g' = id g /\ settled g'.
Proof.
  intros Hi He. unfold processOne', processOne, settled.
  destruct (extractFor _ _ _ _ originals key current);
    rewrite !updateById_lookup, Hi; simpl;
    rewrite (bool_decide_eq_true_2 (id g = id current)) by done; simpl;
    rewrite (bool_decide_eq_true_2 (id g = id current)) by done; eauto.
Qed.

Lemma processOne_settled originals key prev current i g :
  prev !! i = Some g -> settled g ->
  exists g', processOne' originals key prev current !! i = Some g'
             /\ id g' = id g /\ settled g'.
Proof.
  intros Hi Hs. destruct (decide (id g = id current)) as [He|Hne].
  - exact (processOne_same originals key prev current i g Hi He).
  - exists g. by rewrite (processOne_other originals key prev current i g).
Qed.

(** An entry whose identifier is not that of a file of the run is left
    as it is. *)
Lemma run_other originals key l prev i g :
  prev !! i = Some g -> (forall c, In c l -> id c <> id g) ->
  fold_left (processOne' originals key) l prev !! i = Some g.
Proof.
  revert prev. induction l as [|c l IH]; intros prev Hi Hl; [done|]. simpl.
  apply IH.
  - apply (processOne_other originals key prev c i g); [done|].
    intros E. by apply (Hl c); [left|].
  - intros c' Hc'. apply Hl. by right.
Qed.

Lemma run_settled originals key l prev i g :
  prev !! i = Some g -> settled g ->
  exists g', fold_left (processOne' originals key) l prev !! i = Some g'
             /\ id g' = id g /\ settled g'.
Proof.
  revert prev g. induction l as [|c l IH]; intros prev g Hi Hs; [by eauto|].
  simpl. destruct (processOne_settled originals key prev c i g Hi Hs)
    as (g1 & H1 & E1 & S1).
  destruct (IH _ _ H1 S1) as (g2 & H2 & E2 & S2).
  exists g2. repeat split; [done | congruence | done].
Qed.

(** An entry whose identifier is that of a file of the run is settled at
    the end of the run. *)
Lemma run_processed originals key l prev i g :
  prev !! i = Some g -> (exists c, In c l /\ id c = id g) ->
  exists g', fold_left (processOne' originals key) l prev !! i = Some g'
             /\ id g' = id g /\ settled g'.
Proof.
  revert prev g. induction l as [|c l IH]; intros prev g Hi (c0 & Hin & Hc0).
  - destruct Hin.
  - simpl. destruct (decide (id g = id c)) as [He|Hne].
    + destruct (processOne_same originals key prev c i g Hi He)
        as (g1 & H1 & E1 & S1).
      destruct (run_settled originals key l _ i g1 H1 S1) as (g2 & H2 & E2 & S2).
      exists g2. repeat split; [done | congruence | done].
    + apply IH; [exact (processOne_other originals key prev c i g Hi Hne)|].
      destruct Hin as [->|Hin]; [congruence|]. by exists c0.
Qed.

Local Abbreviation handleStartProcessing' :=
  (handleStartProcessing extractTextFromPdf extractInfoFromText
     convertFileToBase64AndGetMime extractInfoFromImage).

(** The list of entries after [handleStartProcessing], when it runs. *)
Lemma handleStartProcessing_files st :
  batchStarts st ->
  processedFiles (handleStartProcessing' st)
  = fold_left (processOne' (originalFilesMap st) (apiKey st))
      (List.filter (fun f => status_eqb (status f) queued) (processedFiles st))
      (processedFiles st).
Proof.
  intros (Hb & Hz & Hk & Hm). unfold handleStartProcessing', handleStartProcessing.
  rewrite Hb, Hz, Hk. simpl. rewrite bool_decide_eq_false_2 by done. simpl.
  by destruct (List.filter _ (processedFiles st)).
Qed.

(** No guard of [handleStartProcessing] changes an entry. *)
Lemma handleStartProcessing_refused st :
  ~ batchStarts st ->
  processedFiles (handleStartProcessing' st) = processedFiles st.
Proof.
  intros Hn. unfold handleStartProcessing', handleStartProcessing.
  destruct (isBatchProcessing st) eqn:Hb; [done|].
  destruct (isZipping st) eqn:Hz; [done|]. simpl.
  destruct (truthy (apiKey st)) eqn:Hk; [|done]. simpl.
  destruct (bool_decide (size (parseProviderData (providerDataText st)) = 0%nat))
    eqn:Hm; [done|].
  exfalso. apply Hn. repeat split; try done. by apply bool_decide_eq_false in Hm.
Qed.

Lemma batchStarts_dec st : batchStarts st \/ ~ batchStarts st.
Proof.
  unfold batchStarts.
  destruct (isBatchProcessing st), (isZipping st), (truthy (apiKey st)),
    (decide (size (parseProviderData (providerDataText st)) = 0%nat));
    intuition congruence.
Qed.

(** A batch run leaves alone every entry that is not queued and shares
    its identifier with no queued entry. *)
Lemma batch_leaves_others st i g :
  processedFiles st !! i = Some g -> status g <> queued ->
  (forall c, In c (processedFiles st) -> status c = queued -> id c <> id g) ->
  processedFiles (handleStartProcessing' st) !! i = Some g.
Proof.
  intros Hi Hs Hid. destruct (batchStarts_dec st) as [Hr|Hr].
  - rewrite handleStartProcessing_files by done.
    apply run_other; [done|]. intros c [Hc Hq]%filter_In.
    apply Hid; [done|]. unfold status_eqb in Hq. by apply bool_decide_eq_true in Hq.
  - by rewrite handleStartProcessing_refused.
Qed.

(** A batch run that starts settles every queued entry. *)
Lemma batch_settles_queued st i g :
  batchStarts st -> processedFiles st !! i = Some g -> status g = queued ->
  exists g', processedFiles (handleStartProcessing' st) !! i = Some g'
             /\ id g' = id g /\ settled g'.
Proof.
  intros Hr Hi Hq. rewrite handleStartProcessing_files by done.
  apply run_processed; [done|]. exists g. split; [|done].
  apply filter_In. split.
  - apply list_elem_of_In. by eapply list_elem_of_lookup_2.
  - unfold status_eqb. by apply bool_decide_eq_true.
Qed.

Lemma initialEntry_status file now :
  status (initialEntry MAX_FILE_SIZE_BYTES MAX_FILE_SIZE_MB file now)
  = if rejected MAX_FILE_SIZE_BYTES file then error else queued.
Proof.
  unfold initialEntry, rejected.
  destruct (MAX_FILE_SIZE_BYTES <? f_size file)%Z; [done|]. simpl.
  by destruct (isPdfType (f_type file)), (isImageType (f_type file)).
Qed.

Lemma initialEntry_message file now :
  rejected MAX_FILE_SIZE_BYTES file = true ->
  exists msg,
    errorMessage (initialEntry MAX_FILE_SIZE_BYTES MAX_FILE_SIZE_MB file now)
    = Some msg /\ truthy msg = true.
Proof.
  unfold initialEntry, rejected.
  destruct (MAX_FILE_SIZE_BYTES <? f_size file)%Z; [by eauto|]. simpl.
  destruct (isPdfType (f_type file)), (isImageType (f_type file)); try done.
  by eauto.
Qed.

Lemma handleFilesSelected_files files st :
  processedFiles (handleFilesSelected MAX_FILE_SIZE_BYTES MAX_FILE_SIZE_MB files st)
  = processedFiles st
    ++ List.map (fun '(file, now) =>
                   initialEntry MAX_FILE_SIZE_BYTES MAX_FILE_SIZE_MB file now) files.
Proof. reflexivity. Qed.

Lemma handleFilesSelected_batchStarts files st :
  batchStarts st ->
  batchStarts (handleFilesSelected MAX_FILE_SIZE_BYTES MAX_FILE_SIZE_MB files st).
Proof. done. Qed.

End PipelineFacts.

(** C8 (as stated, refuted): a small file of type image/pngx, which is none
    of the three types of the list, is queued and then processed. *)
Lemma variant_mime_type_is_queued :
  ~ In (js "image/pngx") [ js "application/pdf"; js "image/png"; js "image/jpeg" ]
  /\ status (initialEntry Sample.MAX_FILE_SIZE_BYTES Sample.MAX_FILE_SIZE_MB
               (Sample.pdf "scan.png" 4 "image/pngx") 1700000000000) = queued
  /\ List.map status
       (processedFiles
          (handleStartProcessing Sample.extractTextFromPdf Sample.extractInfoFromText
             Sample.convertFileToBase64AndGetMime Sample.extractInfoFromImage
             (handleFilesSelected Sample.MAX_FILE_SIZE_BYTES Sample.MAX_FILE_SIZE_MB
                [ (Sample.pdf "scan.png" 4 "image/pngx", 1700000000000%Z) ]
                Sample.ready)))
     = [ completed ].
Proof.
  split; [|by vm_compute].
  intros [H|[H|[H|[]]]]; by vm_compute in H.
Qed.

(** C8 (amended): a selected file is refused, with status error and a
    message, when its size is over the ceiling or its type is neither exactly
    application/pdf nor a type that starts with image/png or image/jpeg, and
    is queued otherwise.  A later batch run leaves every entry that is not
    queued as it is, the refused file among them, as long as no queued entry
    has the same identifier, and, when it starts, ends with every queued
    entry completed or in error. *)
Theorem selection_then_batch
    (MAX_FILE_SIZE_BYTES : Z) (MAX_FILE_SIZE_MB : jsstring)
    (extractTextFromPdf : File -> Result jsstring)
    (extractInfoFromText : jsstring -> jsstring -> Result ExtractedGeminiInfo)
    (convertFileToBase64AndGetMime : File -> Result (jsstring * jsstring))
    (extractInfoFromImage :
       jsstring -> jsstring -> jsstring -> Result ExtractedGeminiInfo)
    (st : AppState) (files : list (File * Z)) (k : nat) (file : File) (now : Z) :
  files !! k = Some (file, now) ->
  let entry := initialEntry MAX_FILE_SIZE_BYTES MAX_FILE_SIZE_MB file now in
  let st1 := handleFilesSelected MAX_FILE_SIZE_BYTES MAX_FILE_SIZE_MB files st in
  let st2 :=
    handleStartProcessing extractTextFromPdf extractInfoFromText
      convertFileToBase64AndGetMime extractInfoFromImage st1 in
  let i := (length (processedFiles st) + k)%nat in
  processedFiles st1 !! i = Some entry
  /\ status entry = (if rejected MAX_FILE_SIZE_BYTES file then error else queued)
  /\ (rejected MAX_FILE_SIZE_BYTES file = true ->
        (exists msg, errorMessage entry = Some msg /\ truthy msg = true)
        /\ ((forall c, In c (processedFiles st1) -> status c = queued ->
                       id c <> id entry) ->
            processedFiles st2 !! i = Some entry))
  /\ (rejected MAX_FILE_SIZE_BYTES file = false -> batchStarts st ->
        exists entry', processedFiles st2 !! i = Some entry'
                       /\ id entry' = id entry /\ settled entry')
  /\ (forall j g, processedFiles st1 !! j = Some g -> status g <> queued ->
        (forall c, In c (processedFiles st1) -> status c = queued -> id c <> id g) ->
        processedFiles st2 !! j = Some g).
Proof.
  intros Hk entry st1 st2 i.
  assert (processedFiles st1 !! i = Some entry) as Hi.
  { unfold st1, i. rewrite handleFilesSelected_files.
    rewrite lookup_app_r by lia.
    replace (length (processedFiles st) + k - length (processedFiles st))%nat
      with k by lia.
    by rewrite lookup_List_map, Hk. }
  pose proof (initialEntry_status MAX_FILE_SIZE_BYTES MAX_FILE_SIZE_MB file now) as Hs.
  fold entry in Hs.
  split; [done|]. split; [done|]. split; [|split].
  - intros Hr. split; [by apply initialEntry_message|].
    intros Hid. apply batch_leaves_others; try done.
    rewrite Hs, Hr. done.
  - intros Hr Hb. apply batch_settles_queued; [done | done |].
    by rewrite Hs, Hr.
  - intros j g Hj Hg Hid. by apply batch_leaves_others.
Qed.

(** C8, on a selection of one file over the ceiling and one valid file. *)
Lemma selection_then_batch_witness :
  let entry :=
    initialEntry Sample.MAX_FILE_SIZE_BYTES Sample.MAX_FILE_SIZE_MB
      (Sample.pdf "big.pdf" 20000000 "application/pdf") 1700000000000 in
  let st1 :=
    handleFilesSelected Sample.MAX_FILE_SIZE_BYTES Sample.MAX_FILE_SIZE_MB
      Sample.selection Sample.ready in
  let st2 :=
    handleStartProcessing Sample.extractTextFromPdf Sample.extractInfoFromText
      Sample.convertFileToBase64AndGetMime Sample.extractInfoFromImage st1 in
  Sample.selection !! 0%nat
  = Some (Sample.pdf "big.pdf" 20000000 "application/pdf", 1700000000000%Z)
  /\ status entry = error
  /\ processedFiles st2 !! 0%nat = Some entry
  /\ List.map status (processedFiles st1) = [ error; queued ]
  /\ List.map status (processedFiles st2) = [ error; completed ].
Proof.
  intros entry st1 st2.
  destruct (selection_then_batch
              Sample.MAX_FILE_SIZE_BYTES Sample.MAX_FILE_SIZE_MB
              Sample.extractTextFromPdf Sample.extractInfoFromText
              Sample.convertFileToBase64AndGetMime Sample.extractInfoFromImage
              Sample.ready Sample.selection 0
              (Sample.pdf "big.pdf" 20000000 "application/pdf") 1700000000000%Z
              eq_refl) as (H1 & H2 & H3 & _).
  split; [reflexivity|]. split; [exact H2|]. split.
  - apply H3; [reflexivity|].
    intros c Hc Hq. simpl in Hc.
    destruct Hc as [<-|[<-|[]]]; [discriminate Hq | by vm_compute].
  - split; by vm_compute.
Defined.

(** ** Dates *)

Section CalendarFacts.
Import EcmaDate.
Local Open Scope Z_scope.

Lemma DayFromYear_bounds y :
  3652425 * (y - 1970) - 12650 <= 10000 * DayFromYear y
  <= 3652425 * (y - 1970) + 14725.
Proof. unfold DayFromYear. Z.div_mod_to_equations. lia. Qed.

Lemma DayFromYear_succ y : DayFromYear (y + 1) = DayFromYear y + DaysInYear y.
Proof.
  unfold DayFromYear, DaysInYear.
  destruct (Z.eqb_spec (y mod 4) 0), (Z.eqb_spec (y mod 100) 0),
    (Z.eqb_spec (y mod 400) 0); simpl; Z.div_mod_to_equations; lia.
Qed.

Lemma DaysInYear_range y : DaysInYear y = 365 \/ DaysInYear y = 366.
Proof. unfold DaysInYear. repeat destruct (_ =? _); simpl; auto. Qed.

(** The year of the [k]-th day of the year [y] is [y]. *)
Lemma YearFromDay_spec y k :
  0 <= k < DaysInYear y -> YearFromDay (DayFromYear y + k) = y.
Proof.
  intros Hk. unfold YearFromDay.
  set (d := DayFromYear y + k). set (q := d * 10000 / 3652425).
  assert (Hq : 3652425 * q <= 10000 * d < 3652425 * (q + 1)).
  { unfold q. pose proof (Z.mul_div_le (d * 10000) 3652425).
    pose proof (Z.mul_succ_div_gt (d * 10000) 3652425). lia. }
  pose proof (DayFromYear_bounds y) as By.
  pose proof (DayFromYear_bounds (y + 1)) as By1.
  pose proof (DayFromYear_succ y) as Sy.
  pose proof (DaysInYear_range y) as Ry.
  assert (Hr : q = y - 1971 \/ q = y - 1970 \/ q = y - 1969) by lia.
  destruct Hr as [-> | [-> | ->]].
  - replace (1970 + (y - 1971) + 1) with y by lia.
    destruct (Z.leb_spec (DayFromYear y) d); [done | lia].
  - replace (1970 + (y - 1970) + 1) with (y + 1) by lia.
    replace (1970 + (y - 1970)) with y by lia.
    destruct (Z.leb_spec (DayFromYear (y + 1)) d); [lia|].
    destruct (Z.ltb_spec d (DayFromYear y)); [lia | done].
  - replace (1970 + (y - 1969) + 1) with (y + 1 + 1) by lia.
    replace (1970 + (y - 1969)) with (y + 1) by lia.
    pose proof (DayFromYear_succ (y + 1)). pose proof (DaysInYear_range (y + 1)).
    destruct (Z.leb_spec (DayFromYear (y + 1 + 1)) d); [lia|].
    destruct (Z.ltb_spec d (DayFromYear (y + 1))); lia.
Qed.

Lemma Day_of_days x : Day (x * msPerDay) = x.
Proof. unfold Day, msPerDay. by rewrite Z.div_mul. Qed.


Lemma fields_of_day y k :
  0 <= k < DaysInYear y ->
  YearFromTime ((DayFromYear y + k) * msPerDay) = y
  /\ DayWithinYear ((DayFromYear y + k) * msPerDay) = k
  /\ InLeapYear ((DayFromYear y + k) * msPerDay) = leapDays y.
Proof.
  intros Hk. unfold DayWithinYear, InLeapYear, YearFromTime.
  rewrite Day_of_days, (YearFromDay_spec y k Hk). repeat split. lia.
Qed.

Lemma MakeDay_in_year y m dd :
  1 <= m <= 12 ->
  MakeDay y (m - 1) dd = DayFromYear y + (daysBeforeMonth y (m - 1) + dd - 1).
Proof.
  intros Hm. unfold MakeDay.
  rewrite (Z.div_small (m - 1) 12), (Z.mod_small (m - 1) 12) by lia.
  rewrite Z.add_0_r. lia.
Qed.

Lemma month_cases m : 1 <= m <= 12 ->
  m = 1 \/ m = 2 \/ m = 3 \/ m = 4 \/ m = 5 \/ m = 6
  \/ m = 7 \/ m = 8 \/ m = 9 \/ m = 10 \/ m = 11 \/ m = 12.
Proof. lia. Qed.

(** A date of the calendar is read back from its time value. *)
Lemma calendar_roundtrip y m dd :
  1 <= m <= 12 -> 1 <= dd <= daysInMonth y m ->
  YearFromTime (MakeDay y (m - 1) dd * msPerDay) = y
  /\ MonthFromTime (MakeDay y (m - 1) dd * msPerDay) = m - 1
  /\ DateFromTime (MakeDay y (m - 1) dd * msPerDay) = dd.
Proof.
  intros Hm Hd. rewrite MakeDay_in_year by done.
  set (k := daysBeforeMonth y (m - 1) + dd - 1).
  assert (Hk : 0 <= k < DaysInYear y).
  { unfold k, daysBeforeMonth, daysInMonth in *.
    destruct (DaysInYear_range y) as [E|E]; rewrite E in *; simpl in *;
      destruct (month_cases m Hm) as [->|[->|[->|[->|[->|[->|[->|[->|[->|[->|[->| ->]]]]]]]]]]];
      simpl in *; lia. }
  destruct (fields_of_day y k Hk) as (Hy & Hw & Hl).
  split; [done|].
  unfold DateFromTime, MonthFromTime. rewrite Hw, Hl.
  unfold k, leapDays, daysBeforeMonth, daysInMonth in *.
  destruct (DaysInYear_range y) as [E|E]; rewrite E in *; simpl in *;
    destruct (month_cases m Hm) as [->|[->|[->|[->|[->|[->|[->|[->|[->|[->|[->| ->]]]]]]]]]]];
    simpl in *;
    repeat match goal with
           | |- context [ ?a <? ?b ] => destruct (Z.ltb_spec a b); try lia
           end; simpl; split; lia.
Qed.

(** A day past the end of its month is read back as a day of the next. *)
Lemma calendar_rollover y m dd :
  1 <= m <= 12 -> daysInMonth y m < dd <= 31 ->
  DateFromTime (MakeDay y (m - 1) dd * msPerDay) = dd - daysInMonth y m.
Proof.
  intros Hm Hd.
  assert (m <= 11) as Hm'.
  { destruct (Z.eq_dec m 12) as [->|]; [simpl in Hd|]; lia. }
  assert (MakeDay y (m - 1) dd = MakeDay y (m + 1 - 1) (dd - daysInMonth y m)) as ->.
  { rewrite !MakeDay_in_year by lia.
    unfold daysBeforeMonth, daysInMonth.
    destruct (DaysInYear_range y) as [E|E]; rewrite E; simpl;
      destruct (month_cases m Hm) as [->|[->|[->|[->|[->|[->|[->|[->|[->|[->|[->| ->]]]]]]]]]]];
      simpl; lia. }
  apply calendar_roundtrip; [lia|].
  unfold daysInMonth in *.
  destruct (DaysInYear_range y) as [E|E]; rewrite E in *; simpl in *;
    destruct (month_cases m Hm) as [->|[->|[->|[->|[->|[->|[->|[->|[->|[->|[->| ->]]]]]]]]]]];
    simpl in *; lia.
Qed.

Lemma daysInMonth_range y m : 28 <= daysInMonth y m <= 31.
Proof.
  unfold daysInMonth.
  repeat match goal with
         | |- context [ match ?x with _ => _ end ] => destruct x
         end; lia.
Qed.

Lemma UTC_in_range y m dd :
  1000 < y <= 9999 -> 1 <= m <= 12 -> 1 <= dd <= 31 ->
  UTC y (m - 1) dd = Some (MakeDay y (m - 1) dd * msPerDay).
Proof.
  intros Hy Hm Hd. unfold UTC, MakeDate.
  destruct (Z.leb_spec y 99); [lia|]. rewrite andb_false_r.
  rewrite MakeDay_in_year by done.
  pose proof (DayFromYear_bounds y) as By.
  assert (0 <= daysBeforeMonth y (m - 1) <= 335).
  { unfold daysBeforeMonth.
    destruct (DaysInYear y =? 366);
      destruct (month_cases m Hm) as [->|[->|[->|[->|[->|[->|[->|[->|[->|[->|[->| ->]]]]]]]]]]];
      simpl; lia. }
  destruct (Z.leb_spec (Z.abs ((DayFromYear y + (daysBeforeMonth y (m - 1) + dd - 1))
                               * msPerDay)) 8640000000000000); [done|].
  unfold msPerDay in *. lia.
Qed.

End CalendarFacts.

Section FormatDateFacts.
Import EcmaDate.

Lemma isDigit_range c : isDigit c = true -> 48 <= c <= 57.
Proof. unfold isDigit. intros [?%N.leb_le ?%N.leb_le]%andb_true_iff. lia. Qed.

Lemma isDigit_not_space c : isDigit c = true -> Str.isSpace c = false.
Proof.
  intros H%isDigit_range. unfold Str.isSpace.
  repeat match goal with
         | |- context [ ?a =? ?b ] => destruct (N.eqb_spec a b); [lia|]
         | |- context [ ?a <=? ?b ] => destruct (N.leb_spec a b); [lia|]
         end.
  done.
Qed.

Lemma isDateSep_cases c : isDateSep c = true -> c = SLASH \/ c = DASH.
Proof.
  unfold isDateSep. intros [?%N.eqb_eq|?%N.eqb_eq]%orb_true_iff; auto.
Qed.

Lemma isField12_cases s :
  isField12 s = true ->
  (exists a, s = [a] /\ isDigit a = true)
  \/ (exists a b, s = [a; b] /\ isDigit a = true /\ isDigit b = true).
Proof.
  destruct s as [|a [|b [|c t]]]; simpl; try done.
  - intros H. left. by exists a.
  - intros [? ?]%andb_true_iff. right. by exists a, b.
Qed.

Lemma isField4_cases s :
  isField4 s = true ->
  exists a b c d, s = [a; b; c; d] /\ isDigit a = true /\ isDigit b = true
                  /\ isDigit c = true /\ isDigit d = true.
Proof.
  destruct s as [|a [|b [|c [|d [|e t]]]]]; simpl; try done.
  rewrite andb_true_r.
  intros [? [? [? ?]%andb_true_iff]%andb_true_iff]%andb_true_iff.
  by exists a, b, c, d.
Qed.

Lemma parseInt_field4 s : isField4 s = true -> (0 <= parseInt s <= 9999)%Z.
Proof.
  intros (a & b & c & d & -> & Ha%isDigit_range & Hb%isDigit_range
          & Hc%isDigit_range & Hd%isDigit_range)%isField4_cases.
  unfold parseInt. simpl. lia.
Qed.

Lemma trimEnd_last_clean s : headClean (rev s) = true -> Str.trimEnd s = s.
Proof.
  intros H. rewrite <- (rev_involutive s). destruct (rev s) as [|e r]; [done|].
  simpl in *. apply trimEnd_snoc. by apply negb_true_iff.
Qed.

Lemma trim_clean_ends s :
  headClean s = true -> headClean (rev s) = true -> Str.trim s = s.
Proof.
  intros Hh Hl. unfold Str.trim. rewrite trimStart_id by done.
  by apply trimEnd_last_clean.
Qed.

(** What the two regular expressions make of a string of the day, month
    and year form. *)
Lemma day_month_year_shape d m y sep1 sep2 :
  isField12 d = true -> isField12 m = true -> isField4 y = true ->
  isDateSep sep1 = true -> isDateSep sep2 = true ->
  truthy (d ++ sep1 :: m ++ sep2 :: y) = true
  /\ Str.trim (d ++ sep1 :: m ++ sep2 :: y) = d ++ sep1 :: m ++ sep2 :: y
  /\ isIsoShape (d ++ sep1 :: m ++ sep2 :: y) = false
  /\ matchDayMonthYear (d ++ sep1 :: m ++ sep2 :: y) = Some (d, m, y).
Proof.
  intros Hd Hm (y1 & y2 & y3 & y4 & -> & H1 & H2 & H3 & H4)%isField4_cases Hs1 Hs2.
  assert (isDigit SLASH = false /\ isDigit DASH = false) as [Ds Dd] by done.
  assert (isDateSep SLASH = true /\ isDateSep DASH = true) as [Ss Sd] by done.
  pose proof (isDigit_not_space y4 H4) as Hy4.
  destruct (isField12_cases d Hd) as [(a & -> & Ha)|(a & b & -> & Ha & Hb)];
    destruct (isField12_cases m Hm) as [(p & -> & Hp)|(p & q & -> & Hp & Hq)];
    pose proof (isDigit_not_space a Ha) as Hsa;
    destruct (isDateSep_cases _ Hs1) as [-> | ->];
    destruct (isDateSep_cases _ Hs2) as [-> | ->];
    (split; [done|]); (split; [|split]).
  all: try (apply trim_clean_ends; simpl; by rewrite ?Hsa, ?Hy4).
  all: unfold isIsoShape, matchDayMonthYear, digits12Sep;
    repeat (progress (cbn [app forallb andb orb];
                      rewrite ?Ha, ?Hb, ?Hp, ?Hq, ?H1, ?H2, ?H3, ?H4,
                        ?Ds, ?Dd, ?Ss, ?Sd));
    done.
Qed.

End FormatDateFacts.

Section FormatDate.
Import EcmaDate.

Variable Date_parse : jsstring -> option Z.

(** The second case decides for a string of the day, month and year form
    with fields in range: the date built in UTC when its day of the month
    is the day read, else what the engine makes of the string. *)
Lemma formatDate_day_month_year_case d m y sep1 sep2 :
  isField12 d = true -> isField12 m = true -> isField4 y = true ->
  isDateSep sep1 = true -> isDateSep sep2 = true ->
  (1 <= parseInt d <= 31)%Z -> (1 <= parseInt m <= 12)%Z ->
  (1000 < parseInt y)%Z ->
  formatDateToYyyyMmDd Date_parse (Some (d ++ sep1 :: m ++ sep2 :: y))
  = if (DateFromTime (MakeDay (parseInt y) (parseInt m - 1) (parseInt d) * msPerDay)
        =? parseInt d)%Z
    then isoDate (MakeDay (parseInt y) (parseInt m - 1) (parseInt d) * msPerDay)
    else match Date_parse (d ++ sep1 :: m ++ sep2 :: y) with
         | Some t => isoDate t
         | None => []
         end.
Proof.
  intros Hd Hm Hy Hs1 Hs2 Rd Rm Ry.
  destruct (day_month_year_shape d m y sep1 sep2 Hd Hm Hy Hs1 Hs2)
    as (Ht & Htrim & Hiso & Hmatch).
  pose proof (parseInt_field4 y Hy) as Ry'.
  unfold formatDateToYyyyMmDd. cbn [truthyOpt orEmpty].
  rewrite Ht, Htrim, Hiso, Hmatch. cbn [negb].
  rewrite UTC_in_range by lia.
  destruct (Z.ltb_spec 1000 (parseInt y)); [|lia].
  destruct (Z.leb_spec 1 (parseInt m)); [|lia].
  destruct (Z.leb_spec (parseInt m) 12); [|lia].
  destruct (Z.leb_spec 1 (parseInt d)); [|lia].
  destruct (Z.leb_spec (parseInt d) 31); [|lia].
  reflexivity.
Qed.

End FormatDate.

(** ** The text of a date *)

Section DateTextFacts.
Import EcmaDate.
Local Open Scope Z_scope.

Lemma padDigits_digit w n c acc :
  (0 <= n)%Z -> isDigit c = true ->
  padDigits (S w) (10 * n + (Z.of_N c - 48)) acc = padDigits w n (c :: acc).
Proof.
  intros Hn Hc%isDigit_range. cbn [padDigits].
  assert ((10 * n + (Z.of_N c - 48)) / 10 = n) as -> by (Z.div_mod_to_equations; lia).
  assert ((10 * n + (Z.of_N c - 48)) mod 10 = Z.of_N c - 48) as ->
    by (Z.div_mod_to_equations; lia).
  replace (48 + (Z.of_N c - 48)) with (Z.of_N c) by lia.
  by rewrite N2Z.id.
Qed.

Lemma digit_value c : isDigit c = true -> 0 <= Z.of_N c - 48 <= 9.
Proof. intros Hc%isDigit_range. lia. Qed.

(** The year of four digits is written as it was read. *)
Lemma padDigits_field4 y : isField4 y = true -> padDigits 4 (parseInt y) [] = y.
Proof.
  intros (a & b & c & d & -> & Ha & Hb & Hc & Hd)%isField4_cases.
  pose proof (digit_value a Ha). pose proof (digit_value b Hb).
  pose proof (digit_value c Hc).
  unfold parseInt. cbn [fold_left].
  rewrite padDigits_digit by (done || lia).
  rewrite padDigits_digit by (done || lia).
  rewrite padDigits_digit by (done || lia).
  by rewrite padDigits_digit by (done || lia).
Qed.

(** A field of one or two digits is written on two digits. *)
Lemma padDigits_field12 s :
  isField12 s = true -> padDigits 2 (parseInt s) [] = twoDigits s.
Proof.
  intros [(a & -> & Ha)|(a & b & -> & Ha & Hb)]%isField12_cases.
  - unfold parseInt. cbn [fold_left twoDigits].
    rewrite padDigits_digit by (done || lia).
    change (padDigits 1 0 [a]) with [Z.to_N (48 + 0 mod 10); a]. done.
  - pose proof (digit_value a Ha).
    unfold parseInt. cbn [fold_left twoDigits].
    rewrite padDigits_digit by (done || lia).
    by rewrite padDigits_digit by (done || lia).
Qed.

Lemma padDigits_decimal2 n : 0 <= n <= 99 -> padDigits 2 n [] = decimal2 n.
Proof.
  intros Hn. unfold decimal2. cbn [padDigits].
  by rewrite (Z.mod_small (n / 10) 10) by (Z.div_mod_to_equations; lia).
Qed.

Lemma isoDate_nonempty t : isoDate t <> [].
Proof.
  unfold isoDate.
  destruct (if (0 <=? YearFromTime t) && (YearFromTime t <=? 9999)
            then padDigits 4 (YearFromTime t) []
            else (if YearFromTime t <? 0 then 45%N else 43%N)
                 :: padDigits 6 (Z.abs (YearFromTime t)) []); discriminate.
Qed.

(** A day past the end of its month is a day of the next month. *)
Lemma MakeDay_rollover y m dd :
  1 <= m <= 11 ->
  MakeDay y (m - 1) dd = MakeDay y (m + 1 - 1) (dd - daysInMonth y m).
Proof.
  intros Hm. rewrite !MakeDay_in_year by lia.
  unfold daysBeforeMonth, daysInMonth.
  assert (1 <= m <= 12) as Hm' by lia.
  destruct (DaysInYear_range y) as [E|E]; rewrite E; simpl;
    destruct (month_cases m Hm') as [->|[->|[->|[->|[->|[->|[->|[->|[->|[->|[->| ->]]]]]]]]]]];
    simpl; lia.
Qed.

(** The text of a date of the calendar with a year of four digits. *)
Lemma isoDate_calendar y m dd :
  0 <= y <= 9999 -> 1 <= m <= 12 -> 1 <= dd <= daysInMonth y m ->
  isoDate (MakeDay y (m - 1) dd * msPerDay)
  = padDigits 4 y [] ++ [DASH] ++ padDigits 2 m [] ++ [DASH] ++ padDigits 2 dd [].
Proof.
  intros Hy Hm Hd.
  destruct (calendar_roundtrip y m dd Hm Hd) as (Yt & Mt & Dt).
  unfold isoDate. rewrite Yt, Mt, Dt.
  destruct (Z.leb_spec 0 y); [|lia]. destruct (Z.leb_spec y 9999); [|lia].
  cbn [andb]. by replace (m - 1 + 1) with m by lia.
Qed.

End DateTextFacts.




(** The examples of the specification, with an engine that reads the ISO
    format only. *)
Example formatDate_examples :
  formatDateToYyyyMmDd Sample.isoOnlyDateParse (Some (js "2024-03-05")) = js "2024-03-05"
  /\ formatDateToYyyyMmDd Sample.isoOnlyDateParse (Some (js "05/03/2024")) = js "2024-03-05"
  /\ formatDateToYyyyMmDd Sample.isoOnlyDateParse (Some (js "31/02/2024")) = []
  /\ formatDateToYyyyMmDd Sample.isoOnlyDateParse (Some []) = []
  /\ formatDateToYyyyMmDd Sample.isoOnlyDateParse None = [].
Proof. by vm_compute. Qed.

(** * Further properties *)

(** ** Folder names *)

Lemma isIllegalPathUnit_underscore : isIllegalPathUnit 95 = false.
Proof. reflexivity. Qed.

(** X1: a folder name keeps its length and has none of the units that are
    illegal in a path; a name without any is left as it is, and a second
    pass changes nothing. *)
Theorem sanitizeFolderName_legal (s : jsstring) :
  length (sanitizeFolderName s) = length s
  /\ Forall (fun c => isIllegalPathUnit c = false) (sanitizeFolderName s)
  /\ (forallb (fun c => negb (isIllegalPathUnit c)) s = true ->
      sanitizeFolderName s = s)
  /\ sanitizeFolderName (sanitizeFolderName s) = sanitizeFolderName s.
Proof.
  unfold sanitizeFolderName. split; [apply length_map|].
  assert (Forall (fun c => isIllegalPathUnit c = false)
            (List.map (fun c => if isIllegalPathUnit c then 95 else c) s)) as Hl.
  { induction s as [|c t IH]; simpl; constructor; [|done].
    destruct (isIllegalPathUnit c) eqn:E; [reflexivity | done]. }
  split; [done|].
  assert (forall u, Forall (fun c => isIllegalPathUnit c = false) u ->
                    List.map (fun c => if isIllegalPathUnit c then 95 else c) u = u)
    as Hid.
  { induction 1 as [|c t Hc Ht IH]; simpl; [done|]. by rewrite Hc, IH. }
  split; [|by apply Hid].
  intros H. apply Hid. apply Forall_forall. intros c Hc%list_elem_of_In.
  rewrite forallb_forall in H. by apply negb_true_iff, H.
Qed.

(** ** The reference table, line by line *)

Section TableFacts.
Import Str.

Lemma trimEnd_idem s : trimEnd (trimEnd s) = trimEnd s.
Proof.
  induction s as [|c t IH]; [done|]. cbn [trimEnd].
  destruct (trimEnd t) as [|x r] eqn:E.
  - destruct (isSpace c) eqn:Ec; [done|]. simpl. by rewrite Ec.
  - change (trimEnd (c :: x :: r))
      with (match trimEnd (x :: r) with
            | [] => if isSpace c then [] else [c]
            | r' => c :: r'
            end).
    by rewrite IH.
Qed.

Lemma trim_idem s : trim (trim s) = trim s.
Proof.
  unfold trim.
  rewrite (trimStart_id (trimEnd (trimStart s)))
    by apply trimEnd_headClean, trimStart_headClean.
  apply trimEnd_idem.
Qed.

Lemma truthy_orNull s o : orNull s = Some o -> truthy o = true.
Proof. unfold orNull. destruct (truthy s) eqn:E; [|done]. by intros [= <-]. Qed.

Lemma trim_orNull s o : orNull (trim s) = Some o -> trim o = o.
Proof.
  unfold orNull. destruct (truthy (trim s)); [|done]. intros [= <-]. apply trim_idem.
Qed.

Lemma addLine_entryShape m line :
  (forall k info, m !! k = Some info -> entryShape k info) ->
  forall k info, addLine m line !! k = Some info -> entryShape k info.
Proof.
  intros Hm k info. unfold addLine.
  destruct (6 <=? length (split TAB line))%nat; [|by apply Hm].
  destruct (truthy (trim (field (split TAB line) 0))
            && truthy (trim (field (split TAB line) 1))) eqn:E; [|by apply Hm].
  apply andb_true_iff in E as [E0 E1].
  destruct (truthy (normalizeGameName (Some (trim (field (split TAB line) 0)))))
    eqn:Ek; [|by apply Hm].
  destruct (decide (normalizeGameName (Some (trim (field (split TAB line) 0))) = k))
    as [<-|Hne].
  - rewrite lookup_insert_eq. intros [= <-]. unfold entryShape. cbn.
    split; [done|]. split; [apply normalizeGameName_keyShape|].
    split; [done|]. split; [apply trim_idem|].
    repeat split; eauto using truthy_orNull, trim_orNull.
  - rewrite lookup_insert_ne by done. apply Hm.
Qed.

Lemma split_no_sep sep line :
  Forall (fun c => c <> sep) line -> split sep line = [line].
Proof.
  induction 1 as [|c t Hc Ht IH]; [done|]. simpl.
  destruct (N.eqb_spec c sep); [done|]. by rewrite IH.
Qed.

Lemma split_app_sep sep text line :
  Forall (fun c => c <> sep) line ->
  split sep (text ++ sep :: line) = split sep text ++ [line].
Proof.
  intros Hl. induction text as [|c t IH].
  - cbn [app split]. by rewrite N.eqb_refl, split_no_sep.
  - rewrite <- app_comm_cons. cbn [split]. rewrite IH.
    destruct (c =? sep); [done|].
    by destruct (split_cons_inv sep t) as (h & r & ->).
Qed.

(** The fields of a line are read back from the line. *)
Lemma split_join sep f fields :
  Forall (Forall (fun c => c <> sep)) (f :: fields) ->
  split sep (join [sep] (f :: fields)) = f :: fields.
Proof.
  revert f. induction fields as [|g fields IH]; intros f Hf.
  - apply split_no_sep. by inversion Hf.
  - change (join [sep] (f :: g :: fields)) with (f ++ sep :: join [sep] (g :: fields)).
    inversion Hf as [|? ? Hf0 Hf1]; subst.
    assert (forall u, Forall (fun c => c <> sep) u ->
                      split sep (u ++ sep :: join [sep] (g :: fields))
                      = u :: g :: fields) as H.
    { induction 1 as [|c t Hc Ht IHu].
      - cbn [app split]. by rewrite N.eqb_refl, (IH g Hf1).
      - rewrite <- app_comm_cons. cbn [split].
        destruct (N.eqb_spec c sep); [done|]. by rewrite IHu. }
    by apply H.
Qed.

Lemma dataLines_app text line :
  Forall (fun c => c <> LF) line ->
  dataLines (text ++ LF :: line) = dataLines text ++ [line].
Proof.
  intros Hl. unfold dataLines. rewrite split_app_sep by done.
  destruct (split_cons_inv LF text) as (l0 & rest & ->). simpl.
  by destruct (truthy l0 && includes GAME_PROVIDER (toLowerCase l0)).
Qed.

(** One more line at the end of the text is one more step of the parser. *)
Lemma parseProviderData_app text line :
  Forall (fun c => c <> LF) line ->
  parseProviderData (text ++ LF :: line) = addLine (parseProviderData text) line.
Proof.
  intros Hl. unfold parseProviderData.
  by rewrite dataLines_app, fold_left_app.
Qed.

End TableFacts.

(** X2: every entry of a parsed table is under a key that is not empty and
    that the last four steps of the normalizer leave as it is: the key is
    trimmed, has no capital letter of Basic Latin and Latin-1, none of the
    symbols ™ ® ©, and no white space but single spaces.  Its provider is
    not empty and is trimmed, and each of its other fields is null or a
    trimmed string that is not empty. *)
Theorem parseProviderData_entries (text k : jsstring) (info : ProviderInfo) :
  parseProviderData text !! k = Some info ->
  truthy k = true /\ keyShape k
  /\ truthy (provider info) = true /\ Str.trim (provider info) = provider info
  /\ (forall o, activatedInIms info = Some o -> truthy o = true /\ Str.trim o = o)
  /\ (forall o, portalLiveDate info = Some o -> truthy o = true /\ Str.trim o = o)
  /\ (forall o, imsGameCode info = Some o -> truthy o = true /\ Str.trim o = o).
Proof.
  unfold parseProviderData. revert k info.
  assert (forall l m,
            (forall k info, m !! k = Some info -> entryShape k info) ->
            forall k info, fold_left addLine l m !! k = Some info -> entryShape k info)
    as H.
  { induction l as [|x l IH]; intros m Hm; [done|].
    simpl. apply IH. by apply addLine_entryShape. }
  apply H. intros k info. by rewrite lookup_empty.
Qed.

(** X2, on the table of the samples and the key of Starburst. *)
Lemma parseProviderData_entries_witness :
  provider <$> Sample.referenceTable !! js "starburst" = Some (js "NetEnt")
  /\ truthy (js "starburst") = true /\ keyShape (js "starburst").
Proof.
  destruct (Sample.referenceTable !! js "starburst") as [info|] eqn:E;
    [|by vm_compute in E].
  destruct (parseProviderData_entries Sample.referenceText (js "starburst") info E)
    as (H1 & H2 & _).
  split; [|by split]. vm_compute in E. injection E as <-. reflexivity.
Defined.

(** X3: a line of fewer than six fields, added at the end of the pasted text,
    changes nothing in the table. *)
Theorem short_line_discarded (text : jsstring) (fields : list jsstring) :
  Forall (Forall (fun c => c <> TAB /\ c <> LF)) fields ->
  (length fields < 6)%nat ->
  parseProviderData (text ++ LF :: Str.join [TAB] fields) = parseProviderData text.
Proof.
  intros Hf Hlen.
  assert (Forall (fun c => c <> LF) (Str.join [TAB] fields)) as Hlf.
  { clear Hlen. induction Hf as [|f fs Hf0 Hfs IH]; [constructor|].
    destruct fs as [|g fs].
    - simpl. eapply Forall_impl; [exact Hf0|]. by intros c [_ ?].
    - change (Str.join [TAB] (f :: g :: fs))
        with (f ++ TAB :: Str.join [TAB] (g :: fs)).
      apply Forall_app. split; [eapply Forall_impl; [exact Hf0|]; by intros c [_ ?]|].
      constructor; [done | exact IH]. }
  rewrite parseProviderData_app by done. unfold addLine.
  destruct fields as [|f fs].
  - reflexivity.
  - rewrite split_join.
    + destruct (Nat.leb_spec 6 (length (f :: fs))); [lia | done].
    + eapply Forall_impl; [exact Hf|]. intros u Hu.
      eapply Forall_impl; [exact Hu|]. by intros c [? _].
Qed.

(** X3, on a line of five fields. *)
Lemma short_line_discarded_witness :
  parseProviderData
    (Sample.referenceText
     ++ LF :: Str.join [TAB] [ js "Gonzo"; js "NetEnt"; js "Yes"; js "x"; js "y" ])
  = parseProviderData Sample.referenceText.
Proof.
  apply (short_line_discarded Sample.referenceText
           [ js "Gonzo"; js "NetEnt"; js "Yes"; js "x"; js "y" ]).
  - repeat constructor; discriminate.
  - simpl. lia.
Defined.

(** X4: a line of six fields or more, with a name and a provider that are not
    blank and a name whose key is not empty, added at the end of the pasted
    text, puts its values under the key of its name, in place of what an
    earlier line had put there, and leaves the other keys alone. *)
Theorem later_line_wins (text : jsstring) (fields : list jsstring) :
  Forall (Forall (fun c => c <> TAB /\ c <> LF)) fields ->
  (6 <= length fields)%nat ->
  truthy (Str.trim (nth 0 fields [])) = true ->
  truthy (Str.trim (nth 1 fields [])) = true ->
  truthy (normalizeGameName (Some (Str.trim (nth 0 fields [])))) = true ->
  parseProviderData (text ++ LF :: Str.join [TAB] fields)
    !! normalizeGameName (Some (Str.trim (nth 0 fields [])))
  = Some {| provider := Str.trim (nth 1 fields []);
            activatedInIms := orNull (Str.trim (nth 2 fields []));
            portalLiveDate := orNull (Str.trim (nth 3 fields []));
            imsGameCode := orNull (Str.trim (nth 5 fields [])) |}
  /\ forall k, k <> normalizeGameName (Some (Str.trim (nth 0 fields []))) ->
       parseProviderData (text ++ LF :: Str.join [TAB] fields) !! k
       = parseProviderData text !! k.
Proof.
  intros Hf Hlen H0 H1 Hk.
  assert (Forall (fun c => c <> LF) (Str.join [TAB] fields)) as Hlf.
  { clear Hlen H0 H1 Hk. induction Hf as [|f fs Hf0 Hfs IH]; [constructor|].
    destruct fs as [|g fs].
    - simpl. eapply Forall_impl; [exact Hf0|]. by intros c [_ ?].
    - change (Str.join [TAB] (f :: g :: fs))
        with (f ++ TAB :: Str.join [TAB] (g :: fs)).
      apply Forall_app. split; [eapply Forall_impl; [exact Hf0|]; by intros c [_ ?]|].
      constructor; [done | exact IH]. }
  rewrite parseProviderData_app by done. unfold addLine, field.
  destruct fields as [|f fs]; [simpl in Hlen; lia|].
  rewrite split_join.
  2:{ eapply Forall_impl; [exact Hf|]. intros u Hu.
      eapply Forall_impl; [exact Hu|]. by intros c [? _]. }
  destruct (Nat.leb_spec 6 (length (f :: fs))); [|lia].
  rewrite H0, H1, Hk. cbn [andb]. split.
  - apply lookup_insert_eq.
  - intros k Hne. by rewrite lookup_insert_ne.
Qed.

(** X4, on a second line for Starburst with another provider. *)
Lemma later_line_wins_witness :
  parseProviderData
    (Sample.referenceText
     ++ LF :: Str.join [TAB] [ js " STARBURST (copy) "; js "Evolution"; [];
                               js "1/2/2025"; js "x"; js "evo_starburst" ])
    !! js "starburst"
  = Some {| provider := js "Evolution";
            activatedInIms := None;
            portalLiveDate := Some (js "1/2/2025");
            imsGameCode := Some (js "evo_starburst") |}
  /\ forall k, k <> js "starburst" ->
       parseProviderData
         (Sample.referenceText
          ++ LF :: Str.join [TAB] [ js " STARBURST (copy) "; js "Evolution"; [];
                                    js "1/2/2025"; js "x"; js "evo_starburst" ]) !! k
       = parseProviderData Sample.referenceText !! k.
Proof.
  apply (later_line_wins Sample.referenceText
           [ js " STARBURST (copy) "; js "Evolution"; [];
             js "1/2/2025"; js "x"; js "evo_starburst" ]);
    try reflexivity.
  repeat constructor; discriminate.
Defined.

(** ** The name normalizer and the display name *)

Section CaseFacts.
Import Str.

Lemma toLowerUnit_cases c :
  toLowerUnit c = c
  \/ (toLowerUnit c = c + 32
      /\ (65 <= c <= 90 \/ (192 <= c <= 222 /\ c <> 215))).
Proof.
  unfold toLowerUnit.
  destruct (N.leb_spec 65 c), (N.leb_spec c 90), (N.leb_spec 192 c),
    (N.leb_spec c 222), (N.eqb_spec c 215); simpl; auto; right; split; auto; lia.
Qed.

Lemma isSpace_false_range c :
  (65 <= c <= 122 \/ 192 <= c <= 254) -> isSpace c = false.
Proof.
  intros H. unfold isSpace.
  repeat match goal with
         | |- context [ ?a =? ?b ] => destruct (N.eqb_spec a b); [lia|]
         | |- context [ ?a <=? ?b ] => destruct (N.leb_spec a b); [lia|]
         end; try done.
Qed.

Lemma isSpace_toLowerUnit c : isSpace (toLowerUnit c) = isSpace c.
Proof.
  destruct (toLowerUnit_cases c) as [->|[-> H]]; [done|].
  rewrite !isSpace_false_range by lia. done.
Qed.

Lemma isSymbol_toLowerUnit c : isSymbol (toLowerUnit c) = isSymbol c.
Proof.
  destruct (toLowerUnit_cases c) as [->|[-> H]]; [done|].
  unfold isSymbol, TM, REG, COPYRIGHT.
  repeat match goal with
         | |- context [ ?a =? ?b ] => destruct (N.eqb_spec a b); try lia
         end; try done.
Qed.

Lemma trimStart_toLowerCase s :
  trimStart (toLowerCase s) = toLowerCase (trimStart s).
Proof.
  induction s as [|c t IH]; [done|]. cbn [toLowerCase List.map trimStart].
  rewrite isSpace_toLowerUnit. by destruct (isSpace c).
Qed.

Lemma trimEnd_toLowerCase s :
  trimEnd (toLowerCase s) = toLowerCase (trimEnd s).
Proof.
  induction s as [|c t IH]; [done|]. cbn [toLowerCase List.map trimEnd].
  fold (toLowerCase t). rewrite IH, isSpace_toLowerUnit.
  destruct (trimEnd t); [by destruct (isSpace c) | done].
Qed.

Lemma trim_toLowerCase s : trim (toLowerCase s) = toLowerCase (trim s).
Proof. unfold trim. by rewrite trimStart_toLowerCase, trimEnd_toLowerCase. Qed.

Lemma stripSymbols_toLowerCase s :
  stripSymbols (toLowerCase s) = toLowerCase (stripSymbols s).
Proof.
  induction s as [|c t IH]; [done|]. cbn [toLowerCase List.map stripSymbols List.filter].
  rewrite isSymbol_toLowerUnit. fold (toLowerCase t). fold (stripSymbols (toLowerCase t)).
  fold (stripSymbols t). rewrite IH. by destruct (isSymbol c).
Qed.

Lemma collapseSpaces_toLowerCase s :
  collapseSpaces (toLowerCase s) = toLowerCase (collapseSpaces s).
Proof.
  induction s as [|c t IH]; [done|].
  cbn [toLowerCase List.map collapseSpaces]. fold (toLowerCase t).
  rewrite isSpace_toLowerUnit. destruct (isSpace c).
  - destruct t as [|c' t']; [done|].
    cbn [toLowerCase List.map] in *. rewrite isSpace_toLowerUnit.
    destruct (isSpace c'); [exact IH|].
    cbn [List.map]. f_equal. exact IH.
  - cbn [List.map]. f_equal. exact IH.
Qed.

(** A unit matches an ASCII pattern unit, letter case apart, whether it is
    put in lower case first or not. *)
Lemma eqCI_toLowerUnit c p : p < 128 -> eqCI (toLowerUnit c) p = eqCI c p.
Proof.
  intros Hp. destruct (toLowerUnit_cases c) as [->|[-> H]]; [done|].
  unfold eqCI.
  assert (canonicalize p < 128) as Hcp.
  { unfold canonicalize. destruct ((97 <=? p) && (p <=? 122)); lia. }
  unfold canonicalize at 1 3.
  destruct (N.leb_spec 97 (c + 32)), (N.leb_spec (c + 32) 122),
    (N.leb_spec 97 c), (N.leb_spec c 122); simpl;
    repeat match goal with
           | |- context [ ?a =? ?b ] => destruct (N.eqb_spec a b); try lia
           end; try done; lia.
Qed.

Lemma matchLit_toLowerCase pat s :
  Forall (fun p => p < 128) pat ->
  matchLit pat (toLowerCase s) = toLowerCase <$> matchLit pat s.
Proof.
  intros Hp. revert s. induction Hp as [|p pt Hp0 Hpt IH]; intros s; [done|].
  destruct s as [|c t]; [done|]. cbn [toLowerCase List.map matchLit].
  rewrite eqCI_toLowerUnit by done. destruct (eqCI c p); [apply IH | done].
Qed.

Lemma ascii_patterns :
  Forall (fun p => p < 128) COPY /\ Forall (fun p => p < 128) V_94PCT
  /\ Forall (fun p => p < 128) V_V94.
Proof. repeat split; repeat constructor. Qed.

Lemma replaceCopy_toLowerCase s :
  replaceCopy (toLowerCase s) = toLowerCase (replaceCopy s).
Proof.
  induction s as [|c t IH]; [done|].
  rewrite (replaceCopy_eq (toLowerCase (c :: t))), (replaceCopy_eq (c :: t)).
  unfold matchCopyAt. rewrite trimStart_toLowerCase.
  rewrite matchLit_toLowerCase by apply ascii_patterns.
  destruct (matchLit COPY (trimStart (c :: t))); [done|].
  cbn [toLowerCase List.map option_map fmap]. simpl. f_equal. exact IH.
Qed.

Lemma isLit_toLowerCase pat s :
  Forall (fun p => p < 128) pat -> isLit pat (toLowerCase s) = isLit pat s.
Proof.
  intros Hp. unfold isLit. rewrite matchLit_toLowerCase by done.
  by destruct (matchLit pat s) as [[|]|].
Qed.

Lemma matchVersionAt_toLowerCase s :
  matchVersionAt (toLowerCase s) = matchVersionAt s.
Proof.
  destruct s as [|c t]; [done|]. cbn [toLowerCase List.map matchVersionAt].
  fold (toLowerCase t).
  rewrite isSpace_toLowerUnit, trimStart_toLowerCase.
  by rewrite !isLit_toLowerCase by apply ascii_patterns.
Qed.

Lemma replaceVersion_toLowerCase s :
  replaceVersion (toLowerCase s) = toLowerCase (replaceVersion s).
Proof.
  induction s as [|c t IH]; [done|].
  assert (forall u, replaceVersion u
                    = if matchVersionAt u then []
                      else match u with [] => [] | x :: r => x :: replaceVersion r end)
    as Heq by (by intros [|]).
  rewrite (Heq (toLowerCase (c :: t))), (Heq (c :: t)), matchVersionAt_toLowerCase.
  destruct (matchVersionAt (c :: t)); [done|].
  cbn [toLowerCase List.map]. f_equal. exact IH.
Qed.

Lemma toLowerCase_idem s : toLowerCase (toLowerCase s) = toLowerCase s.
Proof. apply toLowerCase_stable, toLowerCase_Forall. Qed.

Lemma truthy_toLowerCase s : truthy (toLowerCase s) = truthy s.
Proof. by destruct s. Qed.

End CaseFacts.

(** X5: for a name of code units below 256, white space and the symbols
    ™ ® ©, the key of the name is its display name in lower case: two such
    names that are displayed alike are looked up alike. *)
Theorem key_is_lower_case_display (x : option jsstring) :
  latinName (orEmpty x) = true ->
  normalizeGameName x = Str.toLowerCase (cleanGameNameForDisplay x).
Proof.
  intros _. unfold normalizeGameName, cleanGameNameForDisplay, normalizeTail.
  destruct (truthyOpt x); [|done].
  by rewrite <- trim_toLowerCase, <- collapseSpaces_toLowerCase,
    <- stripSymbols_toLowerCase.
Qed.

(** X5, on a name with a trade mark sign and a marker. *)
Lemma key_is_lower_case_display_witness :
  cleanGameNameForDisplay (Some (js "Book of Ra" ++ [TM] ++ js " (Copy)"))
  = js "Book of Ra"
  /\ normalizeGameName (Some (js "Book of Ra" ++ [TM] ++ js " (Copy)"))
     = js "book of ra".
Proof.
  split; [reflexivity|].
  rewrite (key_is_lower_case_display
             (Some (js "Book of Ra" ++ [TM] ++ js " (Copy)")) eq_refl).
  reflexivity.
Defined.

(** X6: for a name of code units below 256, white space and the symbols
    ™ ® ©, the key does not depend on the case of the letters: the name and
    its lower-case form have the same key. *)
Theorem key_ignores_letter_case (s : jsstring) :
  latinName s = true ->
  normalizeGameName (Some (Str.toLowerCase s)) = normalizeGameName (Some s).
Proof.
  intros _. unfold normalizeGameName, normalizeTail. cbn [truthyOpt orEmpty].
  rewrite truthy_toLowerCase. destruct (truthy s); [|done].
  by rewrite trim_toLowerCase, replaceCopy_toLowerCase, replaceVersion_toLowerCase,
    toLowerCase_idem.
Qed.

(** X6, on a name in capitals with a marker and a version suffix. *)
Lemma key_ignores_letter_case_witness :
  Str.toLowerCase (js "BOOK OF RA (COPY) V94") = js "book of ra (copy) v94"
  /\ normalizeGameName (Some (js "book of ra (copy) v94"))
     = normalizeGameName (Some (js "BOOK OF RA (COPY) V94")).
Proof.
  split; [reflexivity|].
  exact (key_ignores_letter_case (js "BOOK OF RA (COPY) V94") eq_refl).
Defined.

Section BlankFacts.
Import Str.

Lemma normalizeGameName_Some s :
  normalizeGameName (Some s) = normalizeTail (replaceCopy (trim s)).
Proof. by destruct s. Qed.

Lemma cleanGameNameForDisplay_Some s :
  cleanGameNameForDisplay (Some s)
  = trim (collapseSpaces (stripSymbols (replaceVersion (replaceCopy (trim s))))).
Proof. by destruct s. Qed.

Lemma trimStart_allSpace_app w s :
  allSpace w = true -> trimStart (w ++ s) = trimStart s.
Proof.
  induction w as [|c w IH]; [done|]. simpl.
  intros [-> H]%andb_true_iff. auto.
Qed.

Lemma trim_app_allSpace s w :
  allSpace w = true -> trim (s ++ w) = trim s.
Proof.
  intros Hw. unfold trim. induction s as [|c t IH].
  - simpl. by rewrite (trimStart_allSpace _ Hw).
  - rewrite <- app_comm_cons. cbn [trimStart].
    destruct (isSpace c); [exact IH|].
    rewrite app_comm_cons. by apply trimEnd_app_allSpace.
Qed.

Lemma trim_surrounding w1 s w2 :
  allSpace w1 = true -> allSpace w2 = true -> trim (w1 ++ s ++ w2) = trim s.
Proof.
  intros H1 H2. rewrite app_assoc, trim_app_allSpace by done.
  unfold trim. by rewrite trimStart_allSpace_app.
Qed.

Lemma eqCI_cases c p :
  eqCI c p = true -> c = canonicalize p \/ c = canonicalize p + 32.
Proof.
  unfold eqCI. intros H%N.eqb_eq. rewrite <- H. unfold canonicalize.
  destruct (N.leb_spec 97 c), (N.leb_spec c 122); simpl; lia.
Qed.

(** No blank unit starts one of the three literals. *)
Lemma blankUnit_no_match c p :
  blankUnit c = true -> In p [40; 57; 118] -> eqCI c p = false.
Proof.
  intros Hb Hp. destruct (eqCI c p) eqn:E; [|done].
  apply eqCI_cases in E.
  destruct Hp as [<-|[<-|[<-|[]]]]; destruct E as [-> | ->]; by vm_compute in Hb.
Qed.

Lemma blank_matchLit pat p s :
  In p [40; 57; 118] -> Forall (fun c => blankUnit c = true) s ->
  matchLit (p :: pat) s = None.
Proof.
  intros Hp [|c t Hc Ht]; [done|]. simpl. by rewrite blankUnit_no_match.
Qed.

Lemma blank_hasCopy s :
  Forall (fun c => blankUnit c = true) s -> hasCopy s = false.
Proof.
  induction 1 as [|c t Hc Ht IH]; [done|]. cbn [hasCopy].
  change COPY with (40 :: js "copy)").
  rewrite blank_matchLit; [done | by left | by constructor].
Qed.

Lemma blank_hasVersionSuffix s :
  Forall (fun c => blankUnit c = true) s -> hasVersionSuffix s = false.
Proof.
  induction 1 as [|c t Hc Ht IH]; [done|]. cbn [hasVersionSuffix matchVersionAt].
  rewrite IH, orb_false_r. unfold isLit.
  change V_94PCT with (57 :: js "4%"). change V_V94 with (118 :: js "94").
  rewrite !blank_matchLit; try (by apply Forall_trimStart).
  - by rewrite andb_false_r.
  - right. right. by left.
  - right. by left.
Qed.

Lemma blankUnit_toLowerUnit c : blankUnit (toLowerUnit c) = blankUnit c.
Proof. unfold blankUnit. by rewrite isSpace_toLowerUnit, isSymbol_toLowerUnit. Qed.

Lemma blank_stripSymbols s :
  Forall (fun c => blankUnit c = true) s -> allSpace (stripSymbols s) = true.
Proof.
  induction 1 as [|c t Hc Ht IH]; [done|]. simpl.
  unfold blankUnit in Hc. destruct (isSymbol c); simpl; [done|].
  rewrite orb_false_r in Hc. by rewrite Hc.
Qed.

Lemma allSpace_collapseSpaces s :
  allSpace s = true -> trim (collapseSpaces s) = [].
Proof.
  induction s as [|c t IH]; [done|]. cbn [allSpace forallb collapseSpaces].
  intros [Hc Ht]%andb_true_iff. rewrite Hc.
  destruct t as [|c' t']; [done|].
  pose proof Ht as Ht'. cbn [forallb] in Ht'.
  apply andb_true_iff in Ht' as [-> _]. by apply IH.
Qed.

(** A name made of white space and symbols has the empty key. *)
Lemma blank_normalizeGameName s :
  Forall (fun c => blankUnit c = true) s -> normalizeGameName (Some s) = [].
Proof.
  intros Hs. rewrite normalizeGameName_Some.
  assert (Forall (fun c => blankUnit c = true) (trim s)) as Ht
    by by apply Forall_trimEnd, Forall_trimStart.
  rewrite (replaceCopy_id _ (blank_hasCopy _ Ht)). unfold normalizeTail.
  rewrite (replaceVersion_id _ (blank_hasVersionSuffix _ Ht)).
  apply allSpace_collapseSpaces, blank_stripSymbols.
  unfold toLowerCase. apply Forall_forall. intros c Hc%list_elem_of_In.
  apply in_map_iff in Hc as (c0 & <- & Hc0). rewrite blankUnit_toLowerUnit.
  rewrite Forall_forall in Ht. by apply Ht, list_elem_of_In.
Qed.

End BlankFacts.

(** X7: white space around a name changes neither its key nor its display
    name. *)
Theorem surrounding_space_ignored (w1 s w2 : jsstring) :
  allSpace w1 = true -> allSpace w2 = true ->
  normalizeGameName (Some (w1 ++ s ++ w2)) = normalizeGameName (Some s)
  /\ cleanGameNameForDisplay (Some (w1 ++ s ++ w2)) = cleanGameNameForDisplay (Some s).
Proof.
  intros H1 H2.
  rewrite !normalizeGameName_Some, !cleanGameNameForDisplay_Some.
  by rewrite trim_surrounding.
Qed.

(** X7, on a name between a tab and two spaces. *)
Lemma surrounding_space_ignored_witness :
  normalizeGameName (Some ([TAB] ++ js "Book of Ra" ++ js "  "))
    = normalizeGameName (Some (js "Book of Ra"))
  /\ cleanGameNameForDisplay (Some ([TAB] ++ js "Book of Ra" ++ js "  "))
     = cleanGameNameForDisplay (Some (js "Book of Ra")).
Proof.
  apply (surrounding_space_ignored [TAB] (js "Book of Ra") (js "  ")); reflexivity.
Defined.

(** X8: a name that is null, empty, or made of white space and of the symbols
    ™ ® © only has the empty key, and the empty key is in no parsed table:
    such a name never finds a reference entry. *)
Theorem nameless_never_resolves (x : option jsstring) (text : jsstring) :
  Forall (fun c => blankUnit c = true) (orEmpty x) ->
  normalizeGameName x = []
  /\ parseProviderData text !! normalizeGameName x = None.
Proof.
  intros Hx.
  assert (normalizeGameName x = []) as ->.
  { destruct x as [s|]; [by apply blank_normalizeGameName | done]. }
  split; [done|]. apply parseProviderData_no_empty_key.
Qed.

(** X8, on a name of one space and the trade mark sign. *)
Lemma nameless_never_resolves_witness :
  normalizeGameName (Some [32; TM]) = []
  /\ parseProviderData Sample.referenceText !! normalizeGameName (Some [32; TM]) = None.
Proof.
  apply (nameless_never_resolves (Some [32; TM]) Sample.referenceText).
  repeat constructor.
Defined.

(** ** The exports and the files that are not completed *)

Section ExportFacts.

Variable Date_parse : jsstring -> option Z.
Variable gameProviderMap : gmap jsstring ProviderInfo.

Lemma flat_map_filter {A B} (g : A -> list B) (P : A -> bool) (l : list A) :
  (forall x, P x = false -> g x = []) ->
  flat_map g (List.filter P l) = flat_map g l.
Proof.
  intros H. induction l as [|x l IH]; [done|]. simpl.
  destruct (P x) eqn:E; simpl; [by rewrite IH|]. by rewrite (H x E), IH.
Qed.

Lemma fullRowsOf_unfinished f :
  status_eqb (status f) completed = false ->
  fullRowsOf Date_parse gameProviderMap f = [].
Proof. unfold fullRowsOf. by intros ->. Qed.

Lemma comRowsOf_unfinished f :
  status_eqb (status f) completed = false ->
  comRowsOf Date_parse gameProviderMap f = [].
Proof. unfold comRowsOf. by intros ->. Qed.

Lemma comRowsOf_length f :
  status_eqb (status f) completed = true ->
  length (comRowsOf Date_parse gameProviderMap f)
  = Nat.max 1 (length (extractedInstances f)).
Proof.
  unfold comRowsOf. intros ->. cbn [negb]. rewrite length_map.
  destruct (extractedInstances f) as [|i l]; [done|]. simpl. lia.
Qed.

Lemma comRows_length data :
  length (flat_map (comRowsOf Date_parse gameProviderMap) data) = rowCount data.
Proof.
  unfold rowCount. induction data as [|f l IH]; [done|].
  cbn [flat_map List.filter]. rewrite length_app, IH.
  destruct (status_eqb (status f) completed) eqn:E.
  - rewrite comRowsOf_length by done. reflexivity.
  - by rewrite comRowsOf_unfinished.
Qed.

Lemma comRows_nil data :
  flat_map (comRowsOf Date_parse gameProviderMap) data = []
  <-> hasCompletedData data = false.
Proof.
  unfold hasCompletedData. induction data as [|f l IH]; [done|].
  cbn [flat_map existsb].
  destruct (status_eqb (status f) completed) eqn:E.
  - split; [|done]. intros H%app_eq_nil. destruct H as [H _].
    pose proof (comRowsOf_length f E) as Hl. rewrite H in Hl. simpl in Hl. lia.
  - by rewrite comRowsOf_unfinished.
Qed.

End ExportFacts.

(** X9: both exports are made of the completed files alone: the files that are
    queued, in processing or in error can be taken away without a change in
    either text. *)
Theorem exports_skip_unfinished
    (Date_parse : jsstring -> option Z)
    (gameProviderMap : gmap jsstring ProviderInfo)
    (data : list ProcessedFileData) :
  copyToClipboard Date_parse gameProviderMap
    (List.filter (fun f => status_eqb (status f) completed) data)
  = copyToClipboard Date_parse gameProviderMap data
  /\ copyForComProcess Date_parse gameProviderMap
       (List.filter (fun f => status_eqb (status f) completed) data)
     = copyForComProcess Date_parse gameProviderMap data.
Proof.
  unfold copyToClipboard, copyForComProcess, comSortedRows.
  rewrite (flat_map_filter (fullRowsOf Date_parse gameProviderMap))
    by apply fullRowsOf_unfinished.
  rewrite (flat_map_filter (comRowsOf Date_parse gameProviderMap))
    by apply comRowsOf_unfinished.
  done.
Qed.

(** X10: the condensed export has one row for each instance of a completed file
    and one row for each completed file without instances; it is refused
    exactly when no file is completed, in which case the full export is
    refused too. *)
Theorem condensed_export_rows
    (Date_parse : jsstring -> option Z)
    (gameProviderMap : gmap jsstring ProviderInfo)
    (data : list ProcessedFileData) :
  length (comSortedRows Date_parse gameProviderMap data) = rowCount data
  /\ (copyForComProcess Date_parse gameProviderMap data = None
      <-> hasCompletedData data = false)
  /\ (hasCompletedData data = false ->
      copyToClipboard Date_parse gameProviderMap data = None).
Proof.
  split; [|split].
  - unfold comSortedRows.
    destruct (sortRows_sorted (flat_map (comRowsOf Date_parse gameProviderMap) data))
      as [_ Hp].
    rewrite (Permutation_length Hp). apply comRows_length.
  - rewrite <- (comRows_nil Date_parse gameProviderMap). unfold copyForComProcess.
    by destruct (flat_map (comRowsOf Date_parse gameProviderMap) data).
  - intros H. unfold copyToClipboard.
    assert (flat_map (fullRowsOf Date_parse gameProviderMap) data = []) as ->; [|done].
    unfold hasCompletedData in H. induction data as [|f l IH]; [done|].
    cbn [existsb] in H. apply orb_false_iff in H as [Hf Hl].
    cbn [flat_map]. by rewrite fullRowsOf_unfinished, IH.
Qed.

(** ** The order of the condensed export *)

Section OrderFacts.

Lemma ltb_trans a b c :
  Str.ltb a b = true -> Str.ltb b c = true -> Str.ltb a c = true.
Proof.
  revert b c. induction a as [|x a IH]; intros [|y b] [|z c]; simpl; try done.
  destruct (N.ltb_spec x y), (N.ltb_spec y z), (N.ltb_spec x z),
    (N.eqb_spec x y), (N.eqb_spec y z), (N.eqb_spec x z);
    simpl; try lia; try done.
  apply IH.
Qed.

(** Two strings of which none is before the other are the same string. *)
Lemma ltb_trichotomy a b :
  Str.ltb a b = false -> Str.ltb b a = false -> a = b.
Proof.
  revert b. induction a as [|x a IH]; intros [|y b]; simpl; try done.
  destruct (N.ltb_spec x y), (N.ltb_spec y x), (N.eqb_spec x y),
    (N.eqb_spec y x); simpl; try lia; try done.
  intros H1 H2. subst. f_equal. by apply IH.
Qed.

(** The comparator orders the rows by provider, then by display name. *)
Lemma rowLe_iff a b :
  rowLe a b <->
  Str.ltb (c_provider a) (c_provider b) = true
  \/ (c_provider a = c_provider b
      /\ (Str.ltb (c_gameName a) (c_gameName b) = true
          \/ c_gameName a = c_gameName b)).
Proof.
  unfold rowLe, compareRows.
  destruct (Str.ltb (c_provider a) (c_provider b)) eqn:E1.
  { split; [by left | lia]. }
  destruct (Str.ltb (c_provider b) (c_provider a)) eqn:E2.
  { split; [lia|]. intros [?|[Hp _]]; [done|].
    rewrite Hp, ltb_irrefl in E2. done. }
  pose proof (ltb_trichotomy _ _ E1 E2) as Hp.
  destruct (Str.ltb (c_gameName a) (c_gameName b)) eqn:E3.
  { split; [by right; split; [|left] | lia]. }
  destruct (Str.ltb (c_gameName b) (c_gameName a)) eqn:E4.
  { split; [lia|]. intros [?|[_ [?|Hg]]]; [done | done |].
    rewrite Hg, ltb_irrefl in E4. done. }
  pose proof (ltb_trichotomy _ _ E3 E4) as Hg.
  split; [by right; split; [|right] | lia].
Qed.

Lemma rowLe_trans : Transitive rowLe.
Proof.
  intros a b c. rewrite !rowLe_iff.
  intros [H1|[P1 H1]] [H2|[P2 H2]].
  - left. by eapply ltb_trans.
  - left. by rewrite <- P2.
  - left. by rewrite P1.
  - right. split; [congruence|].
    destruct H1 as [H1|G1], H2 as [H2|G2].
    + left. by eapply ltb_trans.
    + left. by rewrite <- G2.
    + left. by rewrite G1.
    + right. congruence.
Qed.

End OrderFacts.

(** X11: the rows of the condensed export are the rows of the instances in
    another order, in which no row is after a later one: every row comes
    with a provider that is before the provider of each later row in the
    order of code units, or with the same provider and a display name that
    is before or the same. *)
Theorem condensed_rows_in_order
    (Date_parse : jsstring -> option Z)
    (gameProviderMap : gmap jsstring ProviderInfo)
    (data : list ProcessedFileData) :
  StronglySorted
    (fun a b =>
       Str.ltb (c_provider a) (c_provider b) = true
       \/ (c_provider a = c_provider b
           /\ (Str.ltb (c_gameName a) (c_gameName b) = true
               \/ c_gameName a = c_gameName b)))
    (comSortedRows Date_parse gameProviderMap data)
  /\ Permutation (comSortedRows Date_parse gameProviderMap data)
       (flat_map (comRowsOf Date_parse gameProviderMap) data).
Proof.
  unfold comSortedRows.
  destruct (sortRows_sorted (flat_map (comRowsOf Date_parse gameProviderMap) data))
    as [Hs Hp].
  split; [|done]. clear Hp.
  apply (Sorted_StronglySorted rowLe_trans) in Hs.
  induction Hs as [|x l Hl IH Hx]; [constructor|]. constructor; [done|].
  eapply Forall_impl; [exact Hx|]. intros b Hb. by apply rowLe_iff.
Qed.

(** ** When the full export is refused *)

Section FullExportFacts.
Import Str.

Lemma in_join sep parts part c :
  In part parts -> In c part -> In c (join sep parts).
Proof.
  induction parts as [|p ps IH]; [done|]. intros [->|Hp] Hc.
  - destruct ps; [done|]. cbn [join]. apply in_or_app. by left.
  - destruct ps as [|q ps]; [done|].
    change (join sep (p :: q :: ps)) with (p ++ sep ++ join sep (q :: ps)).
    apply in_or_app. right. apply in_or_app. right. by apply IH.
Qed.

Lemma allSpace_app a b : allSpace (a ++ b) = allSpace a && allSpace b.
Proof. apply forallb_app. Qed.

Lemma allSpace_join sep parts :
  allSpace sep = true -> Forall (fun p => allSpace p = true) parts ->
  allSpace (join sep parts) = true.
Proof.
  intros Hs. induction 1 as [|p ps Hp Hps IH]; [done|].
  destruct ps as [|q ps]; [done|].
  change (join sep (p :: q :: ps)) with (p ++ sep ++ join sep (q :: ps)).
  by rewrite !allSpace_app, Hp, Hs, IH.
Qed.

Lemma allSpace_trimStart s : allSpace (trimStart s) = true -> allSpace s = true.
Proof.
  induction s as [|c t IH]; [done|]. simpl.
  destruct (isSpace c) eqn:E; [auto|]. simpl. by rewrite E.
Qed.

Lemma trim_nil s : trim s = [] -> allSpace s = true.
Proof. unfold trim. intros H%trimEnd_nil. by apply allSpace_trimStart. Qed.

Lemma allSpace_In s c : allSpace s = true -> In c s -> isSpace c = true.
Proof. unfold allSpace. rewrite forallb_forall. auto. Qed.

Variable Date_parse : jsstring -> option Z.
Variable gameProviderMap : gmap jsstring ProviderInfo.

(** Every row of a completed file has the report number of the file. *)
Lemma fullRowsOf_report f c :
  status f = completed -> In c (orEmpty (reportNumber f)) ->
  exists row, In row (fullRowsOf Date_parse gameProviderMap f) /\ In c row.
Proof.
  intros Hs Hc. unfold fullRowsOf. rewrite Hs.
  change (status_eqb completed completed) with true. cbn [negb].
  destruct (extractedInstances f) as [|i l].
  - eexists. split; [by left|].
    eapply in_join; [|exact Hc]. simpl. tauto.
  - exists (fullRow Date_parse gameProviderMap f i). split; [by left|].
    unfold fullRow, fullRowCells. eapply in_join; [|exact Hc]. simpl. tauto.
Qed.

Lemma fullRowsOf_blank f :
  extractedInstances f = [] -> allSpace (orEmpty (reportNumber f)) = true ->
  Forall (fun row => allSpace row = true)
    (fullRowsOf Date_parse gameProviderMap f).
Proof.
  intros Hi Hr. unfold fullRowsOf. rewrite Hi.
  destruct (negb (status_eqb (status f) completed)); [constructor|].
  constructor; [|constructor].
  apply allSpace_join; [done|]. repeat constructor; done.
Qed.

End FullExportFacts.

(** X12: the full export is not refused when some completed file has a report
    number with a unit that is not white space: the text is the header row,
    a line feed and the rows. *)
Theorem full_export_with_report_number
    (Date_parse : jsstring -> option Z)
    (gameProviderMap : gmap jsstring ProviderInfo)
    (data : list ProcessedFileData) (f : ProcessedFileData) (c : N) :
  In f data -> status f = completed ->
  In c (orEmpty (reportNumber f)) -> Str.isSpace c = false ->
  copyToClipboard Date_parse gameProviderMap data
  = Some (FULL_HEADERS ++ [LF]
          ++ Str.join [LF] (flat_map (fullRowsOf Date_parse gameProviderMap) data)).
Proof.
  intros Hf Hs Hc Hsp. unfold copyToClipboard.
  destruct (truthy (Str.trim (Str.join [LF]
              (flat_map (fullRowsOf Date_parse gameProviderMap) data)))) eqn:E;
    [done|].
  exfalso.
  assert (Str.trim (Str.join [LF]
            (flat_map (fullRowsOf Date_parse gameProviderMap) data)) = []) as Ht
    by (by destruct (Str.trim _)).
  apply trim_nil in Ht.
  destruct (fullRowsOf_report Date_parse gameProviderMap f c Hs Hc) as (row & Hr & Hcr).
  assert (In c (Str.join [LF]
                  (flat_map (fullRowsOf Date_parse gameProviderMap) data))) as Hin.
  { eapply in_join; [|exact Hcr]. apply in_flat_map. by exists f. }
  pose proof (allSpace_In _ _ Ht Hin). congruence.
Qed.

(** X12, on the file of report R-1. *)
Lemma full_export_with_report_number_witness :
  copyToClipboard Sample.isoOnlyDateParse Sample.referenceTable
    [ Sample.completedFile "cert.pdf-1" "R-1" [] ]
  = Some (FULL_HEADERS ++ [LF]
          ++ Str.join [LF]
               (flat_map (fullRowsOf Sample.isoOnlyDateParse Sample.referenceTable)
                  [ Sample.completedFile "cert.pdf-1" "R-1" [] ])).
Proof.
  apply (full_export_with_report_number Sample.isoOnlyDateParse Sample.referenceTable
           [ Sample.completedFile "cert.pdf-1" "R-1" [] ]
           (Sample.completedFile "cert.pdf-1" "R-1" []) 82).
  - by left.
  - reflexivity.
  - by left.
  - reflexivity.
Defined.

(** X13: the full export is refused, as if nothing were completed, when every
    file has no instance and a report number that is null or blank, even
    with completed files among them (the rows are made of tabs, which the
    test on the trimmed text takes for nothing). *)
Theorem full_export_of_blank_rows
    (Date_parse : jsstring -> option Z)
    (gameProviderMap : gmap jsstring ProviderInfo)
    (data : list ProcessedFileData) :
  Forall (fun f => extractedInstances f = []
                   /\ allSpace (orEmpty (reportNumber f)) = true) data ->
  copyToClipboard Date_parse gameProviderMap data = None.
Proof.
  intros H. unfold copyToClipboard.
  assert (allSpace (Str.join [LF]
            (flat_map (fullRowsOf Date_parse gameProviderMap) data)) = true) as Ha.
  { apply allSpace_join; [done|].
    induction H as [|f l [Hi Hr] Hl IH]; [constructor|].
    cbn [flat_map]. apply Forall_app. split; [by apply fullRowsOf_blank | done]. }
  unfold Str.trim. by rewrite (trimStart_allSpace _ Ha).
Qed.

(** X13, on one completed file without instance and without report number,
    for which the copy button is not disabled. *)
Lemma full_export_of_blank_rows_witness :
  copyToClipboard Sample.isoOnlyDateParse Sample.referenceTable
    [ {| id := js "scan.png-1"; pdfFileName := js "scan.png";
         reportNumber := None; certificationDate := None;
         supplierRegistrationNumber := None; extractedInstances := [];
         status := completed; errorMessage := None |} ]
  = None
  /\ hasCompletedData
       [ {| id := js "scan.png-1"; pdfFileName := js "scan.png";
            reportNumber := None; certificationDate := None;
            supplierRegistrationNumber := None; extractedInstances := [];
            status := completed; errorMessage := None |} ] = true.
Proof.
  split; [|reflexivity].
  apply (full_export_of_blank_rows Sample.isoOnlyDateParse Sample.referenceTable).
  repeat constructor.
Defined.

(** ** The archive export: what it answers *)

Section ZipOutcome.

Variable gameProviderMap : gmap jsstring ProviderInfo.
Variable originals : gmap jsstring File.

Lemma addFile_nonempty originalFile zip f :
  (0 < size (addFile gameProviderMap originalFile zip f).2)%nat.
Proof.
  unfold addFile.
  destruct (fold_left (addInstance gameProviderMap originalFile)
              (extractedInstances f) (zip, ∅)) as [zip1 folders].
  destruct (bool_decide (size folders = 0%nat)) eqn:E; cbn [snd].
  - apply bool_decide_eq_true in E. apply size_empty_inv, leibniz_equiv in E.
    subst folders. rewrite union_empty_l_L, size_singleton. lia.
  - apply bool_decide_eq_false in E. lia.
Qed.

Lemma zipStep_count acc f :
  (zipStep gameProviderMap originals acc f).2
  = (acc.2 + if hasOriginal originals f then 1 else 0)%nat.
Proof.
  destruct acc as [zip n]. unfold zipStep, hasOriginal.
  destruct (originals !! id f) as [file|]; [|simpl; lia].
  pose proof (addFile_nonempty file zip f) as Hn.
  destruct (addFile gameProviderMap file zip f) as [zip' folders].
  cbn [snd] in *. rewrite bool_decide_eq_true_2 by done. simpl. lia.
Qed.

Lemma zip_count l acc :
  (fold_left (zipStep gameProviderMap originals) l acc).2
  = (acc.2 + length (List.filter (hasOriginal originals) l))%nat.
Proof.
  revert acc. induction l as [|f l IH]; intros acc; [simpl; lia|].
  cbn [fold_left List.filter]. rewrite IH, zipStep_count.
  destruct (hasOriginal originals f); simpl; lia.
Qed.

Lemma existsb_filter_length {A} (P : A -> bool) (l : list A) :
  existsb P l = negb (bool_decide (length (List.filter P l) = 0%nat)).
Proof.
  induction l as [|x l IH]; [done|]. simpl. destruct (P x); [done|]. exact IH.
Qed.

End ZipOutcome.

(** X14: the archive export is refused exactly when an export or a batch runs,
    no file is completed or the reference table is empty.  Otherwise it
    counts the completed files whose original is at hand: it gives no
    archive when there is none, and an archive with that count when there
    are some. *)
Theorem export_zip_outcome
    (isZipping isBatchProcessing : bool)
    (processedFiles : list ProcessedFileData)
    (originalFilesMap : gmap jsstring File)
    (gameProviderMap : gmap jsstring ProviderInfo) :
  match handleExportZip isZipping isBatchProcessing processedFiles
          originalFilesMap gameProviderMap with
  | ZipRefused =>
      exportRefused isZipping isBatchProcessing processedFiles gameProviderMap = true
  | ZipNothing =>
      exportRefused isZipping isBatchProcessing processedFiles gameProviderMap = false
      /\ List.filter (hasOriginal originalFilesMap)
           (List.filter (fun f => status_eqb (status f) completed) processedFiles)
         = []
  | ZipDownload _ filesAddedToZip =>
      exportRefused isZipping isBatchProcessing processedFiles gameProviderMap = false
      /\ filesAddedToZip <> 0%nat
      /\ filesAddedToZip
         = length (List.filter (hasOriginal originalFilesMap)
                     (List.filter (fun f => status_eqb (status f) completed)
                        processedFiles))
  end.
Proof.
  unfold handleExportZip, exportRefused.
  rewrite (existsb_filter_length (fun f => status_eqb (status f) completed)).
  rewrite negb_involutive.
  destruct (isZipping || isBatchProcessing
            || bool_decide (length (List.filter
                 (fun f => status_eqb (status f) completed) processedFiles) = 0%nat)
            || bool_decide (size gameProviderMap = 0%nat)) eqn:G; [done|].
  pose proof (zip_count gameProviderMap originalFilesMap
                (List.filter (fun f => status_eqb (status f) completed) processedFiles)
                (∅, 0%nat)) as Hc.
  destruct (fold_left (zipStep gameProviderMap originalFilesMap) _ (∅, 0%nat))
    as [zip n].
  cbn [snd] in Hc. simpl in Hc.
  destruct (bool_decide (n = 0%nat)) eqn:En.
  - apply bool_decide_eq_true in En. split; [done|].
    apply length_zero_iff_nil. lia.
  - apply bool_decide_eq_false in En. by repeat split.
Qed.

(** ** The buttons and their handlers *)

Lemma handleExportZip_refused_iff isZ isB files originals table :
  handleExportZip isZ isB files originals table = ZipRefused
  <-> exportRefused isZ isB files table = true.
Proof.
  unfold handleExportZip, exportRefused.
  rewrite (existsb_filter_length (fun f => status_eqb (status f) completed)).
  rewrite negb_involutive.
  destruct (isZ || isB
            || bool_decide (length (List.filter
                 (fun f => status_eqb (status f) completed) files) = 0%nat)
            || bool_decide (size table = 0%nat)); [done|].
  destruct (fold_left (zipStep table originals) _ (∅, 0%nat)) as [zip n].
  by destruct (bool_decide (n = 0%nat)).
Qed.

(** X15: the export button is enabled exactly when the archive export would not
    be refused. *)
Theorem export_button_matches_guard (st : AppState) :
  exportDisabled st = false
  <-> handleExportZip (isZipping st) (isBatchProcessing st) (processedFiles st)
        (originalFilesMap st) (gameProviderMap st) <> ZipRefused.
Proof.
  rewrite handleExportZip_refused_iff.
  unfold exportDisabled, canExport, exportRefused.
  destruct (isZipping st), (isBatchProcessing st),
    (existsb (fun f => status_eqb (status f) completed) (processedFiles st));
    simpl; repeat case_bool_decide; split; try done; try lia; intros H; by destruct H.
Qed.

(** X16: the title of the start button says that the batch can start exactly
    when the button is enabled; and when it is enabled and the pasted text
    gives a table that is not empty, no guard of the handler stops the
    batch. *)
Theorem start_button_matches_title (st : AppState) :
  (getButtonTitle st = js "Start processing queued files"
   <-> startDisabled st = false)
  /\ (startDisabled st = false ->
      size (parseProviderData (providerDataText st)) <> 0%nat ->
      batchStarts st).
Proof.
  unfold getButtonTitle, startDisabled, isProcessingLocked, batchStarts.
  destruct (isBatchProcessing st), (isZipping st), (truthy (apiKey st)),
    (truthy (Str.trim (providerDataText st))), (hasQueuedFiles st);
    simpl; repeat split; try done; intros H; by vm_compute in H.
Qed.

(** ** The pipeline: what a batch run does to the list *)

Section BatchFacts.

Variable MAX_FILE_SIZE_BYTES : Z.
Variable MAX_FILE_SIZE_MB : jsstring.
Variable extractTextFromPdf : File -> Result jsstring.
Variable extractInfoFromText : jsstring -> jsstring -> Result ExtractedGeminiInfo.
Variable convertFileToBase64AndGetMime : File -> Result (jsstring * jsstring).
Variable extractInfoFromImage :
  jsstring -> jsstring -> jsstring -> Result ExtractedGeminiInfo.

Local Abbreviation processOne' :=
  (processOne extractTextFromPdf extractInfoFromText
     convertFileToBase64AndGetMime extractInfoFromImage).

Local Abbreviation handleStartProcessing' :=
  (handleStartProcessing extractTextFromPdf extractInfoFromText
     convertFileToBase64AndGetMime extractInfoFromImage).

Local Abbreviation outcomeOf' :=
  (outcomeOf extractTextFromPdf extractInfoFromText
     convertFileToBase64AndGetMime extractInfoFromImage).

Lemma updateById_ids fileId g prev :
  (forall f, id (g f) = id f) ->
  List.map id (updateById fileId g prev) = List.map id prev.
Proof.
  intros Hg. unfold updateById. rewrite List.map_map. apply List.map_ext.
  intros f. by destruct (bool_decide (id f = fileId)).
Qed.

(** A turn of the loop changes no identifier and moves no entry. *)
Lemma processOne_ids originals key prev current :
  List.map id (processOne' originals key prev current) = List.map id prev.
Proof.
  unfold processOne.
  destruct (extractFor _ _ _ _ originals key current);
    by rewrite !updateById_ids.
Qed.

Lemma run_ids originals key l prev :
  List.map id (fold_left (processOne' originals key) l prev) = List.map id prev.
Proof.
  revert prev. induction l as [|c l IH]; intros prev; [done|].
  simpl. by rewrite IH, processOne_ids.
Qed.

Lemma batchStarts_or_not (st : AppState) : batchStarts st \/ ~ batchStarts st.
Proof.
  unfold batchStarts.
  destruct (isBatchProcessing st); [right; by intros (? & _)|].
  destruct (isZipping st); [right; by intros (_ & ? & _)|].
  destruct (truthy (apiKey st)); [|right; by intros (_ & _ & ? & _)].
  destruct (decide (size (parseProviderData (providerDataText st)) = 0%nat)) as [E|E].
  - right. by intros (_ & _ & _ & ?).
  - by left.
Qed.

Lemma handleStartProcessing_ids st :
  List.map id (processedFiles (handleStartProcessing' st))
  = List.map id (processedFiles st).
Proof.
  destruct (batchStarts_or_not st) as [Hr|Hr].
  - rewrite handleStartProcessing_files by done. apply run_ids.
  - by rewrite handleStartProcessing_refused.
Qed.

(** The turn of a queued entry whose identifier no other entry has. *)
Lemma processOne_self originals key prev f i :
  prev !! i = Some f ->
  processOne' originals key prev f !! i = Some (outcomeOf' originals key f).
Proof.
  intros Hi. unfold processOne, outcomeOf.
  destruct (extractFor _ _ _ _ originals key f);
    rewrite !updateById_lookup, Hi; simpl;
    rewrite (bool_decide_eq_true_2 (id f = id f)) by done; simpl;
    by rewrite (bool_decide_eq_true_2 (id f = id f)) by done.
Qed.

Lemma NoDup_ids_inj (l : list ProcessedFileData) a b :
  NoDup (List.map id l) -> In a l -> In b l -> id a = id b -> a = b.
Proof.
  induction l as [|x l IH]; [done|]. cbn [List.map].
  intros [Hx Hl]%NoDup_cons [->|Ha] [->|Hb] E; try done.
  - exfalso. apply Hx, list_elem_of_In, in_map_iff. by exists b.
  - exfalso. apply Hx, list_elem_of_In, in_map_iff. by exists a.
  - by apply IH.
Qed.

(** The run over a queue of entries with identifiers of their own: the
    entry of the queue gets its outcome. *)
Lemma run_self originals key l prev f i :
  NoDup (List.map id l) -> In f l -> prev !! i = Some f ->
  fold_left (processOne' originals key) l prev !! i
  = Some (outcomeOf' originals key f).
Proof.
  revert prev. induction l as [|c l IH]; intros prev Hnd Hin Hi; [done|].
  cbn [List.map] in Hnd. apply NoDup_cons in Hnd as [Hc Hl].
  cbn [fold_left]. destruct Hin as [->|Hin].
  - apply (run_other extractTextFromPdf extractInfoFromText
      convertFileToBase64AndGetMime extractInfoFromImage originals key l).
    + by apply processOne_self.
    + intros c Hcl E. apply Hc, list_elem_of_In, in_map_iff. exists c.
      split; [|done]. rewrite E. unfold outcomeOf.
      by destruct (extractFor _ _ _ _ originals key f).
  - apply IH; [done | done |].
    apply (processOne_other extractTextFromPdf extractInfoFromText
      convertFileToBase64AndGetMime extractInfoFromImage originals key prev c i f Hi).
    intros E. apply Hc, list_elem_of_In, in_map_iff. by exists f.
Qed.

Lemma filter_NoDup_ids (P : ProcessedFileData -> bool) l :
  NoDup (List.map id l) -> NoDup (List.map id (List.filter P l)).
Proof.
  induction l as [|x l IH]; [done|]. cbn [List.map List.filter].
  intros [Hx Hl]%NoDup_cons. destruct (P x); [|auto].
  cbn [List.map]. apply NoDup_cons. split; [|auto].
  intros Hin. apply Hx. apply list_elem_of_In, in_map_iff in Hin as (y & E & Hy).
  apply list_elem_of_In, in_map_iff. exists y. split; [done|].
  by apply filter_In in Hy as [? _].
Qed.

Lemma run_either originals key l prev i g :
  prev !! i = Some g ->
  exists g', fold_left (processOne' originals key) l prev !! i = Some g'
             /\ (g' = g \/ settled g').
Proof.
  revert prev g. induction l as [|c l IH]; intros prev g Hi; [by eauto|].
  cbn [fold_left]. destruct (decide (id g = id c)) as [E|Hne].
  - destruct (processOne_same extractTextFromPdf extractInfoFromText
      convertFileToBase64AndGetMime extractInfoFromImage originals key prev c i g Hi E)
      as (g1 & H1 & _ & S1).
    destruct (run_settled extractTextFromPdf extractInfoFromText
      convertFileToBase64AndGetMime extractInfoFromImage originals key l _ i g1 H1 S1) as (g2 & H2 & _ & S2).
    exists g2. by split; [|right].
  - apply IH. by apply (processOne_other extractTextFromPdf extractInfoFromText
      convertFileToBase64AndGetMime extractInfoFromImage originals key prev c i g).
Qed.

End BatchFacts.

(** X17: a batch run that starts on entries with identifiers of their own gives
    each queued entry its outcome, whatever happens to the other files: the
    extracted data and the status completed, or the status error with the
    message of the failure; the other entries are left as they are. *)
Theorem batch_pointwise
    (extractTextFromPdf : File -> Result jsstring)
    (extractInfoFromText : jsstring -> jsstring -> Result ExtractedGeminiInfo)
    (convertFileToBase64AndGetMime : File -> Result (jsstring * jsstring))
    (extractInfoFromImage :
       jsstring -> jsstring -> jsstring -> Result ExtractedGeminiInfo)
    (st : AppState) :
  NoDup (List.map id (processedFiles st)) -> batchStarts st ->
  processedFiles
    (handleStartProcessing extractTextFromPdf extractInfoFromText
       convertFileToBase64AndGetMime extractInfoFromImage st)
  = List.map
      (fun f =>
         if status_eqb (status f) queued
         then outcomeOf extractTextFromPdf extractInfoFromText
                convertFileToBase64AndGetMime extractInfoFromImage
                (originalFilesMap st) (apiKey st) f
         else f)
      (processedFiles st).
Proof.
  intros Hnd Hr. rewrite handleStartProcessing_files by done.
  apply list_eq. intros i. rewrite lookup_List_map.
  destruct (processedFiles st !! i) as [f|] eqn:Hi.
  - cbn [fmap option_fmap option_map].
    assert (In f (processedFiles st)) as Hin
      by (apply list_elem_of_In; by eapply list_elem_of_lookup_2).
    destruct (status_eqb (status f) queued) eqn:Hq.
    + apply run_self; [by apply filter_NoDup_ids | | done].
      apply filter_In. by split.
    + apply run_other; [done|]. intros c [Hc Hcq]%filter_In E.
      assert (c = f) as -> by by apply (NoDup_ids_inj (processedFiles st)).
      congruence.
  - cbn. apply lookup_ge_None.
    assert (length (fold_left
              (processOne extractTextFromPdf extractInfoFromText
                 convertFileToBase64AndGetMime extractInfoFromImage
                 (originalFilesMap st) (apiKey st))
              (List.filter (fun f => status_eqb (status f) queued) (processedFiles st))
              (processedFiles st))
            = length (processedFiles st)) as ->.
    { rewrite <- (length_map id), run_ids. apply length_map. }
    by apply lookup_ge_None.
Qed.

(** X17, on the selection of the samples. *)
Lemma batch_pointwise_witness :
  processedFiles
    (handleStartProcessing Sample.extractTextFromPdf Sample.extractInfoFromText
       Sample.convertFileToBase64AndGetMime Sample.extractInfoFromImage
       (handleFilesSelected Sample.MAX_FILE_SIZE_BYTES Sample.MAX_FILE_SIZE_MB
          Sample.selection Sample.ready))
  = List.map
      (fun f =>
         if status_eqb (status f) queued
         then outcomeOf Sample.extractTextFromPdf Sample.extractInfoFromText
                Sample.convertFileToBase64AndGetMime Sample.extractInfoFromImage
                (originalFilesMap
                   (handleFilesSelected Sample.MAX_FILE_SIZE_BYTES
                      Sample.MAX_FILE_SIZE_MB Sample.selection Sample.ready))
                (apiKey
                   (handleFilesSelected Sample.MAX_FILE_SIZE_BYTES
                      Sample.MAX_FILE_SIZE_MB Sample.selection Sample.ready)) f
         else f)
      (processedFiles
         (handleFilesSelected Sample.MAX_FILE_SIZE_BYTES Sample.MAX_FILE_SIZE_MB
            Sample.selection Sample.ready)).
Proof.
  apply (batch_pointwise Sample.extractTextFromPdf Sample.extractInfoFromText
           Sample.convertFileToBase64AndGetMime Sample.extractInfoFromImage
           (handleFilesSelected Sample.MAX_FILE_SIZE_BYTES Sample.MAX_FILE_SIZE_MB
              Sample.selection Sample.ready)).
  - vm_compute. repeat constructor; intros H; inversion H as [|? ? ? H']; subst;
      try discriminate; inversion H'.
  - by vm_compute.
Defined.

(** ** A pasted text of white space gives no table *)

Section BlankTable.
Import Str.

Lemma trim_nil_allSpace s : trim s = [] -> allSpace s = true.
Proof.
  unfold trim. intros H%trimEnd_nil.
  pose proof (trimStart_headClean s) as Hc.
  destruct (trimStart s) as [|c t] eqn:E; [by apply trimStart_nil|].
  simpl in H, Hc. apply andb_true_iff in H as [H _]. by rewrite H in Hc.
Qed.

Lemma allSpace_trim s : allSpace s = true -> trim s = [].
Proof. intros H. unfold trim. by rewrite trimStart_allSpace. Qed.

Lemma allSpace_split sep s :
  allSpace s = true -> Forall (fun f => allSpace f = true) (split sep s).
Proof.
  induction s as [|c t IH]; [by repeat constructor|].
  cbn [allSpace forallb]. intros [Hc Ht]%andb_true_iff. cbn [split].
  specialize (IH Ht). destruct (c =? sep); [by constructor|].
  destruct (split_cons_inv sep t) as (h & r & E). rewrite E in *.
  inversion IH; subst. constructor; [|done]. cbn. by rewrite Hc.
Qed.

Lemma allSpace_no_provider s :
  allSpace s = true -> includes GAME_PROVIDER (toLowerCase s) = false.
Proof.
  induction s as [|c t IH]; [done|].
  cbn [allSpace forallb]. intros [Hc Ht]%andb_true_iff.
  cbn [toLowerCase List.map includes]. fold (toLowerCase t). rewrite (IH Ht).
  rewrite orb_false_r. cbn [GAME_PROVIDER js startsWith].
  apply andb_false_iff. left. apply N.eqb_neq. intros E.
  rewrite <- isSpace_toLowerUnit, E in Hc. by vm_compute in Hc.
Qed.

Lemma allSpace_addLine m line : allSpace line = true -> addLine m line = m.
Proof.
  intros H. unfold addLine.
  destruct (6 <=? length (split TAB line))%nat; [|done].
  assert (allSpace (field (split TAB line) 0) = true) as H0.
  { unfold field. pose proof (allSpace_split TAB line H) as Hs.
    destruct (split TAB line) as [|h r]; [done|]. by inversion Hs. }
  by rewrite (allSpace_trim _ H0).
Qed.

Lemma allSpace_dataLines text :
  allSpace text = true -> Forall (fun f => allSpace f = true) (dataLines text).
Proof.
  intros H. unfold dataLines. pose proof (allSpace_split LF text H) as Hs.
  destruct (split LF text) as [|l0 rest]; [done|].
  destruct (truthy l0 && _); [by inversion Hs | done].
Qed.

(** The test of the button on the pasted text is weaker than that of the
    handler on the table: a text of white space gives an empty table. *)
Lemma blank_text_no_table text :
  truthy (trim text) = false -> parseProviderData text = ∅.
Proof.
  intros H. assert (trim text = []) as E by by destruct (trim text).
  apply trim_nil_allSpace, allSpace_dataLines in E.
  unfold parseProviderData. induction E as [|l ls Hl _ IH]; [done|].
  cbn [fold_left]. by rewrite allSpace_addLine.
Qed.

End BlankTable.

(** ** The queue after a batch run *)

Section DrainFacts.

Variable extractTextFromPdf : File -> Result jsstring.
Variable extractInfoFromText : jsstring -> jsstring -> Result ExtractedGeminiInfo.
Variable convertFileToBase64AndGetMime : File -> Result (jsstring * jsstring).
Variable extractInfoFromImage :
  jsstring -> jsstring -> jsstring -> Result ExtractedGeminiInfo.

Local Abbreviation processOne' :=
  (processOne extractTextFromPdf extractInfoFromText
     convertFileToBase64AndGetMime extractInfoFromImage).

Local Abbreviation handleStartProcessing' :=
  (handleStartProcessing extractTextFromPdf extractInfoFromText
     convertFileToBase64AndGetMime extractInfoFromImage).

Lemma run_length originals key l prev :
  length (fold_left (processOne' originals key) l prev) = length prev.
Proof.
  rewrite <- (length_map id).
  rewrite (run_ids extractTextFromPdf extractInfoFromText
             convertFileToBase64AndGetMime extractInfoFromImage).
  apply length_map.
Qed.

Lemma settled_not_queued g : settled g -> status_eqb (status g) queued = false.
Proof. by intros [-> | ->]. Qed.

(** A run over the queued entries of the list leaves none queued. *)
Lemma run_drains originals key prev g' :
  In g'
    (fold_left (processOne' originals key)
       (List.filter (fun f => status_eqb (status f) queued) prev) prev) ->
  status_eqb (status g') queued = false.
Proof.
  intros Hin. apply list_elem_of_In, list_elem_of_lookup_1 in Hin as [i Hi].
  destruct (prev !! i) as [g|] eqn:Hg.
  - destruct (status_eqb (status g) queued) eqn:Hq.
    + destruct (run_processed extractTextFromPdf extractInfoFromText
                  convertFileToBase64AndGetMime extractInfoFromImage originals key
                  (List.filter (fun f => status_eqb (status f) queued) prev)
                  prev i g Hg) as (g2 & H2 & _ & S2).
      { exists g. split; [|done]. apply filter_In. split; [|done].
        apply list_elem_of_In. by eapply list_elem_of_lookup_2. }
      rewrite H2 in Hi. injection Hi as <-. by apply settled_not_queued.
    + destruct (run_either extractTextFromPdf extractInfoFromText
                  convertFileToBase64AndGetMime extractInfoFromImage originals key
                  (List.filter (fun f => status_eqb (status f) queued) prev)
                  prev i g Hg) as (g2 & H2 & [->|S2]);
        rewrite H2 in Hi; injection Hi as <-; [done|].
      by apply settled_not_queued.
  - apply lookup_ge_None in Hg. apply lookup_lt_Some in Hi.
    rewrite run_length in Hi. lia.
Qed.

Lemma existsb_false {A} (P : A -> bool) l :
  (forall x, In x l -> P x = false) -> existsb P l = false.
Proof.
  intros H. destruct (existsb P l) eqn:E; [|done].
  apply existsb_exists in E as (x & Hx & Px). by rewrite (H x Hx) in Px.
Qed.

Lemma batch_no_queued st :
  batchStarts st -> hasQueuedFiles (handleStartProcessing' st) = false.
Proof.
  intros Hr. unfold hasQueuedFiles.
  rewrite (handleStartProcessing_files extractTextFromPdf extractInfoFromText
             convertFileToBase64AndGetMime extractInfoFromImage) by done.
  apply existsb_false. intros x Hx. by apply run_drains in Hx.
Qed.

Lemma no_queued_filter l :
  existsb (fun f => status_eqb (status f) queued) l = false ->
  List.filter (fun f => status_eqb (status f) queued) l = [].
Proof.
  induction l as [|x l IH]; [done|]. cbn [existsb List.filter].
  intros [-> H]%orb_false_iff. auto.
Qed.

(** Without a queued entry the handler changes no entry. *)
Lemma no_queue_no_change st :
  hasQueuedFiles st = false ->
  processedFiles (handleStartProcessing' st) = processedFiles st.
Proof.
  intros H. apply no_queued_filter in H.
  unfold handleStartProcessing.
  destruct (isBatchProcessing st || isZipping st); [done|].
  destruct (negb (truthy (apiKey st))); [done|].
  destruct (bool_decide _); [done|]. cbn [processedFiles]. by rewrite H.
Qed.

Lemma batch_keeps_rest st :
  batchStarts st ->
  isBatchProcessing (handleStartProcessing' st) = false
  /\ isZipping (handleStartProcessing' st) = false
  /\ apiKey (handleStartProcessing' st) = apiKey st
  /\ providerDataText (handleStartProcessing' st) = providerDataText st
  /\ originalFilesMap (handleStartProcessing' st) = originalFilesMap st
  /\ gameProviderMap (handleStartProcessing' st)
     = parseProviderData (providerDataText st).
Proof.
  intros (Hb & Hz & Hk & Hm). unfold handleStartProcessing.
  rewrite Hb, Hz, Hk. simpl. by rewrite bool_decide_eq_false_2 by done.
Qed.

Lemma handleStartProcessing_originals st :
  originalFilesMap (handleStartProcessing' st) = originalFilesMap st.
Proof.
  unfold handleStartProcessing.
  destruct (isBatchProcessing st || isZipping st); [done|].
  destruct (negb (truthy (apiKey st))); [done|].
  by destruct (bool_decide _).
Qed.

End DrainFacts.

(** X18: after a batch run that starts, no entry is queued: the start button is
    disabled and its title says that the queue is empty, the table of the
    pasted text is the one in use, and to start again changes no entry. *)
Theorem batch_drains_queue
    (extractTextFromPdf : File -> Result jsstring)
    (extractInfoFromText : jsstring -> jsstring -> Result ExtractedGeminiInfo)
    (convertFileToBase64AndGetMime : File -> Result (jsstring * jsstring))
    (extractInfoFromImage :
       jsstring -> jsstring -> jsstring -> Result ExtractedGeminiInfo)
    (st : AppState) :
  batchStarts st ->
  hasQueuedFiles
    (handleStartProcessing extractTextFromPdf extractInfoFromText
       convertFileToBase64AndGetMime extractInfoFromImage st) = false
  /\ startDisabled
       (handleStartProcessing extractTextFromPdf extractInfoFromText
          convertFileToBase64AndGetMime extractInfoFromImage st) = true
  /\ getButtonTitle
       (handleStartProcessing extractTextFromPdf extractInfoFromText
          convertFileToBase64AndGetMime extractInfoFromImage st)
     = js "No files in the queue to process."
  /\ gameProviderMap
       (handleStartProcessing extractTextFromPdf extractInfoFromText
          convertFileToBase64AndGetMime extractInfoFromImage st)
     = parseProviderData (providerDataText st)
  /\ processedFiles
       (handleStartProcessing extractTextFromPdf extractInfoFromText
          convertFileToBase64AndGetMime extractInfoFromImage
          (handleStartProcessing extractTextFromPdf extractInfoFromText
             convertFileToBase64AndGetMime extractInfoFromImage st))
     = processedFiles
         (handleStartProcessing extractTextFromPdf extractInfoFromText
            convertFileToBase64AndGetMime extractInfoFromImage st).
Proof.
  intros Hr.
  pose proof (batch_no_queued extractTextFromPdf extractInfoFromText
                convertFileToBase64AndGetMime extractInfoFromImage st Hr) as Hq.
  destruct (batch_keeps_rest extractTextFromPdf extractInfoFromText
              convertFileToBase64AndGetMime extractInfoFromImage st Hr)
    as (Hb & Hz & Hk & Ht & _ & Hm).
  destruct Hr as (_ & _ & Hkey & Hsize).
  assert (truthy (Str.trim (providerDataText st)) = true) as Htext.
  { destruct (truthy (Str.trim (providerDataText st))) eqn:E; [done|].
    exfalso. apply Hsize. by rewrite (blank_text_no_table _ E). }
  split; [done|]. split; [|split; [|split; [done|]]].
  - unfold startDisabled. by rewrite Hq.
  - unfold getButtonTitle, isProcessingLocked.
    by rewrite Hb, Hz, Hk, Hkey, Ht, Htext, Hq.
  - by apply no_queue_no_change.
Qed.

(** X18, on the selection of the samples. *)
Lemma batch_drains_queue_witness :
  hasQueuedFiles
    (handleStartProcessing Sample.extractTextFromPdf Sample.extractInfoFromText
       Sample.convertFileToBase64AndGetMime Sample.extractInfoFromImage
       (handleFilesSelected Sample.MAX_FILE_SIZE_BYTES Sample.MAX_FILE_SIZE_MB
          Sample.selection Sample.ready)) = false
  /\ hasQueuedFiles
       (handleFilesSelected Sample.MAX_FILE_SIZE_BYTES Sample.MAX_FILE_SIZE_MB
          Sample.selection Sample.ready) = true.
Proof.
  split; [|reflexivity].
  apply (batch_drains_queue Sample.extractTextFromPdf Sample.extractInfoFromText
           Sample.convertFileToBase64AndGetMime Sample.extractInfoFromImage
           (handleFilesSelected Sample.MAX_FILE_SIZE_BYTES Sample.MAX_FILE_SIZE_MB
              Sample.selection Sample.ready)).
  by vm_compute.
Defined.

(** ** The originals of the entries *)

Section OriginalFacts.

Variable MAX_FILE_SIZE_BYTES : Z.
Variable MAX_FILE_SIZE_MB : jsstring.

Lemma initialEntry_id file now :
  id (initialEntry MAX_FILE_SIZE_BYTES MAX_FILE_SIZE_MB file now)
  = f_name file ++ [DASH] ++ decimal now.
Proof.
  unfold initialEntry. destruct (_ <? _)%Z; [done|].
  by destruct (negb _ && negb _).
Qed.

Lemma stored_kept (files : list (File * Z)) (m : gmap jsstring File) k :
  is_Some (m !! k) ->
  is_Some (fold_left (fun m '(file, now) =>
                        <[ f_name file ++ [DASH] ++ decimal now := file ]> m)
             files m !! k).
Proof.
  revert m. induction files as [|[file now] files IH]; intros m Hm; [done|].
  cbn [fold_left]. apply IH. apply lookup_insert_is_Some'. by right.
Qed.

Lemma stored_new (files : list (File * Z)) (m : gmap jsstring File) file now :
  In (file, now) files ->
  is_Some (fold_left (fun m '(file, now) =>
                        <[ f_name file ++ [DASH] ++ decimal now := file ]> m)
             files m !! (f_name file ++ [DASH] ++ decimal now)).
Proof.
  revert m. induction files as [|[file' now'] files IH]; intros m Hin; [done|].
  cbn [fold_left]. destruct Hin as [E|Hin]; [|by apply IH].
  injection E as -> ->. apply stored_kept. apply lookup_insert_is_Some'. by left.
Qed.

Lemma handleFilesSelected_originals files st :
  originalsAtHand st ->
  originalsAtHand (handleFilesSelected MAX_FILE_SIZE_BYTES MAX_FILE_SIZE_MB files st).
Proof.
  intros H f. unfold handleFilesSelected. cbn [processedFiles originalFilesMap].
  intros [Hf|Hf]%in_app_or.
  - by apply stored_kept, H.
  - apply in_map_iff in Hf as ([file now] & <- & Hin).
    rewrite initialEntry_id. by apply stored_new.
Qed.

End OriginalFacts.

(** X19: every entry of the list has its original in the map of the originals:
    a selection, a batch run and a clearing keep this so. *)
Theorem originals_kept_at_hand
    (MAX_FILE_SIZE_BYTES : Z) (MAX_FILE_SIZE_MB : jsstring)
    (extractTextFromPdf : File -> Result jsstring)
    (extractInfoFromText : jsstring -> jsstring -> Result ExtractedGeminiInfo)
    (convertFileToBase64AndGetMime : File -> Result (jsstring * jsstring))
    (extractInfoFromImage :
       jsstring -> jsstring -> jsstring -> Result ExtractedGeminiInfo)
    (files : list (File * Z)) (st : AppState) :
  originalsAtHand st ->
  originalsAtHand
    (handleFilesSelected MAX_FILE_SIZE_BYTES MAX_FILE_SIZE_MB files st)
  /\ originalsAtHand
       (handleStartProcessing extractTextFromPdf extractInfoFromText
          convertFileToBase64AndGetMime extractInfoFromImage st)
  /\ originalsAtHand (handleClearAllData st).
Proof.
  intros H. split; [by apply handleFilesSelected_originals|]. split.
  - intros f Hf. rewrite handleStartProcessing_originals.
    assert (In (id f) (List.map id (processedFiles st))) as Hid.
    { rewrite <- (handleStartProcessing_ids extractTextFromPdf extractInfoFromText
                    convertFileToBase64AndGetMime extractInfoFromImage st).
      by apply in_map. }
    apply in_map_iff in Hid as (f0 & <- & Hf0). by apply H.
  - unfold handleClearAllData.
    destruct (isBatchProcessing st || isZipping st); [done|]. by intros f [].
Qed.

(** X19, on the samples: the application before any file, then the selection. *)
Lemma originals_kept_at_hand_witness :
  originalsAtHand
    (handleFilesSelected Sample.MAX_FILE_SIZE_BYTES Sample.MAX_FILE_SIZE_MB
       Sample.selection Sample.ready)
  /\ originalsAtHand
       (handleStartProcessing Sample.extractTextFromPdf Sample.extractInfoFromText
          Sample.convertFileToBase64AndGetMime Sample.extractInfoFromImage
          Sample.ready)
  /\ originalsAtHand (handleClearAllData Sample.ready).
Proof.
  apply (originals_kept_at_hand Sample.MAX_FILE_SIZE_BYTES Sample.MAX_FILE_SIZE_MB
           Sample.extractTextFromPdf Sample.extractInfoFromText
           Sample.convertFileToBase64AndGetMime Sample.extractInfoFromImage
           Sample.selection Sample.ready).
  by intros f [].
Defined.

(** ** The archive and the completed files *)

Section ArchiveFacts.

Variable gameProviderMap : gmap jsstring ProviderInfo.
Variable originals : gmap jsstring File.

(** The entry of a file in a folder is not touched when a file of another
    name, or the same file, is put in a folder. *)
Lemma zipFile_keeps (zip : gmap jsstring ZipEntry) g (o o' : File) folderName :
  noSlash g -> noSlash folderName -> f_name o <> [] ->
  (f_name o' = f_name o -> o' = o) ->
  zip !! (g ++ [SLASH] ++ f_name o) = Some (ZFile (f_bytes o)) ->
  zipFile (zipFolder zip folderName) folderName (f_name o') (f_bytes o')
    !! (g ++ [SLASH] ++ f_name o)
  = Some (ZFile (f_bytes o)).
Proof.
  intros Hg Hf Hn Ho Hz. unfold zipFile, zipFolder.
  destruct (decide (folderName ++ [SLASH] ++ f_name o' = g ++ [SLASH] ++ f_name o))
    as [E|E].
  - rewrite E, lookup_insert_eq.
    assert (folderName = g) as ->
      by exact (path_folder_inj _ _ _ _ Hf Hg E).
    apply app_inv_head in E. injection E as E. by rewrite (Ho E).
  - rewrite lookup_insert_ne by done. rewrite lookup_insert_ne; [done|].
    intros E2.
    assert (folderName = g) as ->
      by exact (path_folder_inj _ _ [] (f_name o) Hf Hg E2).
    apply app_inv_head in E2. injection E2 as E2. by apply Hn.
Qed.

Lemma addInstance_keeps (o o' : File) l zip folders g :
  noSlash g -> f_name o <> [] -> (f_name o' = f_name o -> o' = o) ->
  zip !! (g ++ [SLASH] ++ f_name o) = Some (ZFile (f_bytes o)) ->
  (fold_left (addInstance gameProviderMap o') l (zip, folders)).1
    !! (g ++ [SLASH] ++ f_name o)
  = Some (ZFile (f_bytes o)).
Proof.
  intros Hg Hn Ho. revert zip folders.
  induction l as [|i l IH]; intros zip folders Hz; [done|].
  cbn [fold_left]. unfold addInstance at 2.
  destruct (negb (bool_decide (folderOf gameProviderMap i ∈ folders)));
    apply IH; [|done].
  apply zipFile_keeps; try done. apply folderOf_noSlash.
Qed.

Lemma addFile_keeps (o o' : File) zip f g :
  noSlash g -> f_name o <> [] -> (f_name o' = f_name o -> o' = o) ->
  zip !! (g ++ [SLASH] ++ f_name o) = Some (ZFile (f_bytes o)) ->
  (addFile gameProviderMap o' zip f).1 !! (g ++ [SLASH] ++ f_name o)
  = Some (ZFile (f_bytes o)).
Proof.
  intros Hg Hn Ho Hz. unfold addFile.
  pose proof (addInstance_keeps o o' (extractedInstances f) zip ∅ g Hg Hn Ho Hz)
    as H1.
  destruct (fold_left (addInstance gameProviderMap o')
              (extractedInstances f) (zip, ∅)) as [zip1 folders].
  cbn [fst] in H1. destruct (bool_decide (size folders = 0%nat)); cbn [fst]; [|done].
  apply zipFile_keeps; try done. apply UNCATEGORIZED_noSlash.
Qed.

Lemma zipStep_keeps (o : File) acc x g :
  noSlash g -> f_name o <> [] ->
  (forall o', originals !! id x = Some o' -> f_name o' = f_name o -> o' = o) ->
  acc.1 !! (g ++ [SLASH] ++ f_name o) = Some (ZFile (f_bytes o)) ->
  (zipStep gameProviderMap originals acc x).1 !! (g ++ [SLASH] ++ f_name o)
  = Some (ZFile (f_bytes o)).
Proof.
  destruct acc as [zip n]. cbn [fst]. intros Hg Hn Ho Hz. unfold zipStep.
  destruct (originals !! id x) as [o'|]; [|done].
  pose proof (addFile_keeps o o' zip x g Hg Hn (Ho o' eq_refl) Hz) as H1.
  destruct (addFile gameProviderMap o' zip x) as [zip' folders]. cbn [fst] in H1.
  by destruct (bool_decide (0 < size folders)%nat).
Qed.

Lemma zip_keeps (o : File) l acc g :
  noSlash g -> f_name o <> [] ->
  (forall x o', In x l -> originals !! id x = Some o' ->
     f_name o' = f_name o -> o' = o) ->
  acc.1 !! (g ++ [SLASH] ++ f_name o) = Some (ZFile (f_bytes o)) ->
  (fold_left (zipStep gameProviderMap originals) l acc).1
    !! (g ++ [SLASH] ++ f_name o)
  = Some (ZFile (f_bytes o)).
Proof.
  intros Hg Hn. revert acc. induction l as [|x l IH]; intros acc Ho Hz; [done|].
  cbn [fold_left]. apply IH.
  - intros y o' Hy. apply Ho. by right.
  - apply zipStep_keeps; try done. intros o'. apply Ho. by left.
Qed.

(** The folders of a file that has been added, and the file in each. *)
Lemma addFile_filed originalFile zip f :
  filed originalFile (addFile gameProviderMap originalFile zip f).1
    (addFile gameProviderMap originalFile zip f).2
  /\ (forall i, In i (extractedInstances f) ->
        folderOf gameProviderMap i
        ∈ (addFile gameProviderMap originalFile zip f).2)
  /\ (extractedInstances f = [] ->
        UNCATEGORIZED ∈ (addFile gameProviderMap originalFile zip f).2).
Proof.
  assert (filed originalFile zip ∅) as H0 by (intros g Hg; set_solver).
  destruct (addInstance_fold gameProviderMap originalFile
              (extractedInstances f) zip ∅ H0) as [H1 H2].
  unfold addFile.
  destruct (fold_left (addInstance gameProviderMap originalFile)
              (extractedInstances f) (zip, ∅)) as [zip1 folders].
  cbn [fst snd] in *. subst folders.
  destruct (bool_decide (size _ = 0%nat)) eqn:E; cbn [fst snd].
  - split; [|split].
    + apply (filed_add originalFile); [apply UNCATEGORIZED_noSlash | done].
    + intros i Hi. apply elem_of_union. left. apply elem_of_union. right.
      apply elem_of_list_to_set, list_elem_of_In. by apply in_map.
    + intros _. set_solver.
  - split; [done|]. split.
    + intros i Hi. apply elem_of_union. right.
      apply elem_of_list_to_set, list_elem_of_In. by apply in_map.
    + intros En. rewrite En in E. cbn in E.
      rewrite union_empty_l_L, size_empty in E.
      by rewrite bool_decide_eq_true_2 in E.
Qed.

(** A completed file of the run whose original is at hand, has a name and
    shares it with no other original of the run, is in the archive with its
    own bytes, under the folder of each of its instances. *)
Lemma zip_has l acc f o :
  In f l -> originals !! id f = Some o -> f_name o <> [] ->
  (forall x o', In x l -> originals !! id x = Some o' ->
     f_name o' = f_name o -> o' = o) ->
  (forall i, In i (extractedInstances f) ->
     (fold_left (zipStep gameProviderMap originals) l acc).1
       !! (folderOf gameProviderMap i ++ [SLASH] ++ f_name o)
     = Some (ZFile (f_bytes o)))
  /\ (extractedInstances f = [] ->
      (fold_left (zipStep gameProviderMap originals) l acc).1
        !! (UNCATEGORIZED ++ [SLASH] ++ f_name o)
      = Some (ZFile (f_bytes o))).
Proof.
  revert acc. induction l as [|x l IH]; intros acc Hin Ho Hn Hd; [done|].
  cbn [fold_left]. destruct Hin as [->|Hin].
  - assert (forall g, g ∈ (addFile gameProviderMap o acc.1 f).2 ->
              noSlash g
              /\ (zipStep gameProviderMap originals acc f).1
                   !! (g ++ [SLASH] ++ f_name o)
                 = Some (ZFile (f_bytes o))) as Hg.
    { intros g Hg. destruct acc as [zip n]. unfold zipStep. rewrite Ho.
      destruct (addFile_filed o zip f) as (Hf & _). cbn [fst] in Hg.
      destruct (addFile gameProviderMap o zip f) as [zip' folders].
      cbn [fst snd] in *. destruct (Hf g Hg) as [Hs Hl]. split; [done|].
      by destruct (bool_decide (0 < size folders)%nat); cbn [fst]; rewrite Hl. }
    assert (forall y o', In y l -> originals !! id y = Some o' ->
              f_name o' = f_name o -> o' = o) as Hd'
      by (intros y o' Hy; apply Hd; by right).
    destruct (addFile_filed o acc.1 f) as (_ & Hi & He).
    split; [intros i Hin | intros En].
    + destruct (Hg _ (Hi i Hin)) as [Hs Hl]. by apply zip_keeps.
    + destruct (Hg _ (He En)) as [Hs Hl]. by apply zip_keeps.
  - apply IH; try done. intros y o' Hy. apply Hd. by right.
Qed.

End ArchiveFacts.

(** X20: when every entry has its original at hand and the export button is
    enabled, the export gives an archive that counts every completed file.
    A completed file whose original has a name, which no other original of
    a completed file has, is in the archive with its own bytes under the
    folder of each of its instances, or under Uncategorized when it has
    none. *)
Theorem enabled_export_takes_every_completed_file (st : AppState) :
  originalsAtHand st -> exportDisabled st = false ->
  exists zip,
    handleExportZip (isZipping st) (isBatchProcessing st) (processedFiles st)
      (originalFilesMap st) (gameProviderMap st)
    = ZipDownload zip
        (length (List.filter (fun f => status_eqb (status f) completed)
                   (processedFiles st)))
    /\ forall f, In f (processedFiles st) -> status f = completed ->
         exists o, originalFilesMap st !! id f = Some o
           /\ (f_name o <> [] ->
               (forall g o', In g (processedFiles st) -> status g = completed ->
                  originalFilesMap st !! id g = Some o' ->
                  f_name o' = f_name o -> o' = o) ->
               (forall i, In i (extractedInstances f) ->
                  zip !! (folderOf (gameProviderMap st) i ++ [SLASH] ++ f_name o)
                  = Some (ZFile (f_bytes o)))
               /\ (extractedInstances f = [] ->
                   zip !! (UNCATEGORIZED ++ [SLASH] ++ f_name o)
                   = Some (ZFile (f_bytes o)))).
Proof.
  intros Ho Hd.
  assert (exportRefused (isZipping st) (isBatchProcessing st) (processedFiles st)
            (gameProviderMap st) = false) as Hr.
  { revert Hd. unfold exportDisabled, canExport, exportRefused.
    destruct (isZipping st), (isBatchProcessing st),
      (existsb (fun f => status_eqb (status f) completed) (processedFiles st));
      simpl; repeat case_bool_decide; try done; lia. }
  assert (List.filter (hasOriginal (originalFilesMap st))
            (List.filter (fun f => status_eqb (status f) completed)
               (processedFiles st))
          = List.filter (fun f => status_eqb (status f) completed)
              (processedFiles st)) as Hall.
  { apply forallb_filter_id, forallb_forall. intros f [Hf _]%filter_In.
    unfold hasOriginal. by destruct (Ho f Hf) as [o ->]. }
  unfold handleExportZip, exportRefused in *.
  rewrite (existsb_filter_length (fun f => status_eqb (status f) completed)) in Hr.
  rewrite negb_involutive in Hr. rewrite Hr.
  pose proof (zip_count (gameProviderMap st) (originalFilesMap st)
                (List.filter (fun f => status_eqb (status f) completed)
                   (processedFiles st)) (∅, 0%nat)) as Hc.
  pose proof (zip_has (gameProviderMap st) (originalFilesMap st)
                (List.filter (fun f => status_eqb (status f) completed)
                   (processedFiles st)) (∅, 0%nat)) as Hh.
  destruct (fold_left (zipStep (gameProviderMap st) (originalFilesMap st)) _ (∅, 0%nat))
    as [zip n].
  cbn [fst snd] in *. rewrite Hall in Hc. simpl in Hc. subst n.
  apply orb_false_iff in Hr as [Hr _]. apply orb_false_iff in Hr as [_ Hr].
  rewrite Hr. exists zip. split; [done|].
  intros f Hf Hs. destruct (Ho f Hf) as [o Hfo]. exists o. split; [done|].
  intros Hn Hdistinct. apply Hh; try done.
  - apply filter_In. split; [done|]. by rewrite Hs.
  - intros x o' [Hx Hxs]%filter_In. apply Hdistinct; [done|].
    unfold status_eqb in Hxs. by apply bool_decide_eq_true in Hxs.
Qed.

(** X20, on the selection of the samples after the batch run. *)
Lemma enabled_export_takes_every_completed_file_witness :
  exists zip,
    handleExportZip false false
      (processedFiles
         (handleStartProcessing Sample.extractTextFromPdf Sample.extractInfoFromText
            Sample.convertFileToBase64AndGetMime Sample.extractInfoFromImage
            (handleFilesSelected Sample.MAX_FILE_SIZE_BYTES Sample.MAX_FILE_SIZE_MB
               Sample.selection Sample.ready)))
      (originalFilesMap
         (handleStartProcessing Sample.extractTextFromPdf Sample.extractInfoFromText
            Sample.convertFileToBase64AndGetMime Sample.extractInfoFromImage
            (handleFilesSelected Sample.MAX_FILE_SIZE_BYTES Sample.MAX_FILE_SIZE_MB
               Sample.selection Sample.ready)))
      Sample.referenceTable
    = ZipDownload zip 1
    /\ zip !! js "NetEnt/cert.pdf" = Some (ZFile [37; 80; 68; 70]).
Proof.
  destruct (enabled_export_takes_every_completed_file
              (handleStartProcessing Sample.extractTextFromPdf
                 Sample.extractInfoFromText Sample.convertFileToBase64AndGetMime
                 Sample.extractInfoFromImage
                 (handleFilesSelected Sample.MAX_FILE_SIZE_BYTES
                    Sample.MAX_FILE_SIZE_MB Sample.selection Sample.ready)))
    as (zip & Hz & Hf).
  - intros f Hf. vm_compute in Hf. destruct Hf as [<-|[<-|[]]]; vm_compute; eauto.
  - by vm_compute.
  - exists zip. split; [exact Hz|].
    destruct (Hf (setCompleted Sample.extracted
                    (initialEntry Sample.MAX_FILE_SIZE_BYTES Sample.MAX_FILE_SIZE_MB
                       (Sample.pdf "cert.pdf" 4 "application/pdf") 1700000000000)))
      as (o & Ho & Hin); [vm_compute; auto | reflexivity |].
    vm_compute in Ho. injection Ho as <-.
    destruct Hin as [Hi _]; [by vm_compute | |].
    + intros g o' Hg Hs Hg' _. vm_compute in Hg.
      destruct Hg as [<-|[<-|[]]]; [by vm_compute in Hs|].
      vm_compute in Hg'. by injection Hg' as <-.
    + apply (Hi (Sample.instance "Starburst" (Some (js "nt_starburst")))).
      by left.
Defined.

(** ** The data URL of an image *)

Section DataUrlFacts.
Import Str.

Lemma startsWith_app pat s : startsWith pat (pat ++ s) = true.
Proof. induction pat as [|p pt IH]; [done|]. simpl. by rewrite N.eqb_refl. Qed.

Lemma no_semicolon_app a b :
  Forall (fun c => c <> SEMICOLON) a -> Forall (fun c => c <> SEMICOLON) b ->
  Forall (fun c => c <> SEMICOLON) (a ++ b).
Proof. intros Ha Hb. by apply Forall_app. Qed.

Lemma no_semicolon_data : Forall (fun c => c <> SEMICOLON) (js "data:").
Proof. repeat constructor; by vm_compute. Qed.

Lemma no_semicolon_base64 : Forall (fun c => c <> SEMICOLON) (js "base64,").
Proof. repeat constructor; by vm_compute. Qed.

End DataUrlFacts.

(** X21: the handler of the reader takes a data URL apart: from the URL made of
    a MIME type and of base64 text, neither with a semicolon in it, it gives
    back that text and that type; a result without a semicolon is rejected
    as no data URL. *)
Theorem parseDataUrl_round_trip (mimeType base64Data other : jsstring) :
  Forall (fun c => c <> SEMICOLON) mimeType ->
  Forall (fun c => c <> SEMICOLON) base64Data ->
  Forall (fun c => c <> SEMICOLON) other ->
  parseDataUrl (js "data:" ++ mimeType ++ js ";base64," ++ base64Data)
  = inr (base64Data, mimeType)
  /\ parseDataUrl other = throwError "Invalid Data URL format".
Proof.
  intros Hm Hb Ho. split.
  - unfold parseDataUrl.
    change (js "data:" ++ mimeType ++ js ";base64," ++ base64Data)
      with ((js "data:" ++ mimeType) ++ SEMICOLON :: (js "base64," ++ base64Data)).
    rewrite split_app_sep
      by (apply no_semicolon_app; [apply no_semicolon_base64 | done]).
    rewrite split_no_sep
      by (apply no_semicolon_app; [apply no_semicolon_data | done]).
    cbn [app length Nat.ltb Nat.leb orb nth].
    by rewrite startsWith_app.
  - unfold parseDataUrl. by rewrite split_no_sep.
Qed.

(** X21, on the data URL of a PNG image. *)
Lemma parseDataUrl_round_trip_witness :
  parseDataUrl (js "data:image/png;base64,iVBORw0KGgo=")
  = inr (js "iVBORw0KGgo=", js "image/png")
  /\ parseDataUrl (js "iVBORw0KGgo=") = throwError "Invalid Data URL format".
Proof.
  apply (parseDataUrl_round_trip (js "image/png") (js "iVBORw0KGgo=")
           (js "iVBORw0KGgo="));
    repeat constructor; by vm_compute.
Defined.

(** ** The quoted cells of the full export *)

Section CellFacts.

Lemma undouble_escaped content :
  undouble (flat_map (fun c => if c =? QUOTE then [QUOTE; QUOTE] else [c]) content)
  = content.
Proof.
  induction content as [|c t IH]; [done|]. cbn [flat_map].
  destruct (c =? QUOTE) eqn:E.
  - apply N.eqb_eq in E as ->. cbn [app undouble]. rewrite N.eqb_refl. cbn.
    by rewrite IH.
  - cbn [app]. destruct t as [|d t]; [done|].
    revert IH. cbn [flat_map].
    destruct (d =? QUOTE); cbn [app undouble]; rewrite E; cbn [andb];
      intros IH; by rewrite IH.
Qed.

End CellFacts.

(** X22: the cell of a list reads back as the list: with the quotes around it
    taken off and every doubled quote made one, it is the items that are
    not empty, joined by a comma and a space. *)
Theorem quoted_cell_reads_back (items : list jsstring) :
  readCell (formatListForClipboard items)
  = Str.join (js ", ") (List.filter truthy items).
Proof.
  unfold formatListForClipboard. destruct items as [|x l]; [done|].
  destruct (Str.join (js ", ") (List.filter truthy (x :: l))) as [|c t] eqn:E;
    [done|].
  cbn [truthy negb readCell app]. rewrite removelast_last.
  apply undouble_escaped.
Qed.

(** ** The folder of an instance, for a parsed table *)

Section FolderFacts.

Lemma parseProviderData_shape text k info :
  parseProviderData text !! k = Some info -> entryShape k info.
Proof.
  unfold parseProviderData. revert k info.
  assert (forall l m,
            (forall k info, m !! k = Some info -> entryShape k info) ->
            forall k info, fold_left addLine l m !! k = Some info -> entryShape k info)
    as H.
  { induction l as [|x l IH]; intros m Hm; [done|].
    simpl. apply IH. by apply addLine_entryShape. }
  apply H. intros k info. by rewrite lookup_empty.
Qed.

End FolderFacts.

(** X23: with a parsed table the name decides before the game code does: an
    instance whose normalized name is in the table goes to the folder of
    the provider of that entry, whatever its game code; only a name that is
    not in the table leaves the folder to the suffix of the game code, and
    to Uncategorized when the code is missing or has neither suffix. *)
Theorem folder_of_instance (text : jsstring) (instance : GameInstanceData) :
  folderOf (parseProviderData text) instance
  = match parseProviderData text !! normalizeGameName (gameName instance) with
    | Some info => sanitizeFolderName (provider info)
    | None =>
        if truthyOpt (gameCode instance) then
          if Str.endsWith (js "_mcg") (orEmpty (gameCode instance))
          then js "Games Global"
          else if Str.endsWith (js "_prg") (orEmpty (gameCode instance))
          then js "Pragmatic"
          else js "Uncategorized"
        else js "Uncategorized"
    end.
Proof.
  unfold folderOf, resolveProvider.
  destruct (parseProviderData text !! normalizeGameName (gameName instance))
    as [info|] eqn:E.
  - destruct (parseProviderData_shape _ _ _ E) as (_ & _ & Ht & Hp & _).
    cbn [fmap option_fmap option_map truthyOpt]. rewrite Ht. cbn [negb].
    cbn [fmap option_fmap option_map optOrNull]. rewrite Hp.
    by destruct (provider info).
  - cbn [fmap option_fmap option_map truthyOpt negb].
    destruct (truthyOpt (gameCode instance)); [|done].
    destruct (Str.endsWith (js "_mcg") _); [done|].
    by destruct (Str.endsWith (js "_prg") _).
Qed.
